(** * furnace: the container init process (src/furnace/pid1.py)

    A shallow embedding of class [PID1]: every method is a computation in a
    small state-and-exception monad over a model of the operating system,
    which records each primitive the process issues in a trace. *)

From Stdlib Require Import ZArith String Ascii List Lia.
From stdpp Require Import base tactics option list gmap strings pretty sorting.

Local Open Scope Z_scope.

(** ** pathlib.PurePosixPath: joining and printing *)

Module pathlib.

Definition sep : ascii := "/"%char.

(** [s.split("/")] *)
Fixpoint split (s : string) : list string :=
  match s with
  | EmptyString => [EmptyString]
  | String c s' =>
      if Ascii.eqb c sep then EmptyString :: split s'
      else match split s' with
           | [] => [String c EmptyString]
           | x :: xs => String c x :: xs
           end
  end.

(** [s.lstrip("/")] *)
Fixpoint lstrip (s : string) : string :=
  match s with
  | EmptyString => EmptyString
  | String c s' => if Ascii.eqb c sep then lstrip s' else s
  end.

(** [_PosixFlavour.splitroot]: the root ("", "/" or "//") and the rest. *)
Definition splitroot (part : string) : string * string :=
  match part with
  | String c _ =>
      if Ascii.eqb c sep then
        let stripped := lstrip part in
        if (String.length part - String.length stripped =? 2)%nat
        then ("//", stripped) else ("/", stripped)
      else ("", part)
  | EmptyString => ("", part)
  end.

(** The components of a relative part: empty ones and "." are dropped. *)
Definition components (rel : string) : list string :=
  List.filter (fun x => negb (String.eqb x "") && negb (String.eqb x "."))
              (split rel).

(** [parse_parts], walking the arguments from the last to the first and
    stopping at the first one that is absolute. *)
Fixpoint parse_rev (rparts : list string) : string * list string :=
  match rparts with
  | [] => ("", [])
  | part :: rest =>
      if String.eqb part "" then parse_rev rest
      else
        let '(root, rel) := splitroot part in
        if String.eqb root "" then
          let '(r, cs) := parse_rev rest in (r, cs ++ components rel)
        else (root, components rel)
  end.

(** [str(Path(p1, ..., pn))] *)
Definition Path (parts : list string) : string :=
  let '(root, cs) := parse_rev (rev parts) in
  let s := root +:+ String.concat "/" cs in
  if String.eqb s "" then "." else s.

End pathlib.

(** ** stat and os constants *)

Definition S_IFBLK : Z := 0x6000.  (* 0o060000 *)
Definition S_IFCHR : Z := 0x2000.  (* 0o020000 *)
Definition S_IFMT  : Z := 0xF000.  (* 0o170000 *)
Definition S_IALLUGO : Z := 0xFFF. (* 0o7777 *)

(** [os.makedev]: the packed device number of glibc. *)
Definition makedev (major minor : Z) : Z :=
  Z.lor (Z.lor (Z.shiftl (Z.land major 0xFFF) 8)
               (Z.shiftl (Z.land major 0xFFFFF000) 32))
        (Z.lor (Z.land minor 0xFF)
               (Z.shiftl (Z.land minor 0xFFFFFF00) 12)).

(** ** The tables and constants imported by pid1.py *)

(** An entry of [CONTAINER_MOUNTS]: "flags" and "options" are optional keys. *)
Record MountSpec := {
  m_source : string;
  m_destination : string;
  m_type : string;
  m_flags : option Z;
  m_options : option (list string)
}.

Inductive NodeKind := char_device | block_device.

(** Modelled from the spec: the entries of [CONTAINER_DEVICE_NODES], whose
    declaration (bake.container.config) is not part of the sources. *)
Record DeviceNodeSpec := {
  d_name : string;
  d_major : Z;
  d_minor : Z;
  d_mode : Z;
  d_kind : NodeKind
}.

(** bake.container.libc *)
Record Libc := {
  MS_REC : Z;
  MS_SLAVE : Z;
  CLONE_NEWPID : Z;
  CLONE_NEWNET : Z;
  MNT_DETACH : Z
}.

(** bake.container.config; [NAMESPACES] is a dict, kept as its items in
    iteration order. *)
Record Config := {
  NAMESPACES : list (string * Z);
  CONTAINER_MOUNTS : list MountSpec;
  CONTAINER_DEVICE_NODES : list DeviceNodeSpec;
  HOSTNAME : string
}.

(** The attributes of a [PID1] object; [root_dir] is already resolved. *)
Record PID1 := {
  control_read : Z;
  control_write : Z;
  root_dir : string;
  isolate_networking : bool
}.

(** ** The operating system: calls, outcomes, trace *)

Inductive LogLevel := DEBUG | WARNING.
Inductive Signal := SIGCHLD.
Inductive Handler := SIG_IGN | SIG_DFL.

Inductive Exn :=
| ValueError (msg : string)
| OSError (errno : Z)
| FileExistsError (path : string)
| FileNotFoundError (path : string)
| CalledProcessError (returncode : Z) (cmd : list string).

Inductive Call :=
| c_getpid
| c_setsid
| c_signal (sig : Signal) (h : Handler)
| c_exists (path : string)
| c_unshare (flags : Z)
| c_mount (source target : string) (fstype : option string) (flags : Z)
          (data : option string)
| c_mkdir (path : string)
| c_chdir (path : string)
| c_pivot_root (new_root put_old : string)
| c_chroot (path : string)
| c_check_output (argv : list string)
| c_mknod (path : string) (mode device : Z)
| c_chmod (path : string) (mode : Z)
| c_umount2 (path : string) (flags : Z)
| c_rmdir (path : string)
| c_sethostname (name : string)
| c_write (fd : Z) (data : string)
| c_read (fd : Z) (n : Z)
| c_log (lvl : LogLevel) (msg : string).

Inductive Value :=
| v_none
| v_int (z : Z)
| v_bool (b : bool)
| v_bytes (s : string).

(** What became of a call: it returned, it raised, or it never returned. *)
Inductive Outcome :=
| returned (v : Value)
| raised (e : Exn)
| pending.

(** The statement of [PID1.run] that is executing. *)
Inductive Stage :=
| at_getpid
| at_setsid
| at_enable_zombie_reaping
| at_create_namespaces
| at_setup_root_mount
| at_mount_defaults
| at_create_default_dev_nodes
| at_create_loop_devices
| at_create_tmpfs_dirs
| at_umount_old_root
| at_sethostname
| at_write
| at_read.

Record Event := Ev {
  ev_stage : Stage;
  ev_call : Call;
  ev_outcome : Outcome
}.

Global Instance LogLevel_eq_dec : EqDecision LogLevel.
Proof. solve_decision. Defined.
Global Instance Signal_eq_dec : EqDecision Signal.
Proof. solve_decision. Defined.
Global Instance Handler_eq_dec : EqDecision Handler.
Proof. solve_decision. Defined.
Global Instance Exn_eq_dec : EqDecision Exn.
Proof. solve_decision. Defined.
Global Instance Call_eq_dec : EqDecision Call.
Proof. solve_decision. Defined.
Global Instance Value_eq_dec : EqDecision Value.
Proof. solve_decision. Defined.
Global Instance Outcome_eq_dec : EqDecision Outcome.
Proof. solve_decision. Defined.
Global Instance Stage_eq_dec : EqDecision Stage.
Proof. solve_decision. Defined.
Global Instance Event_eq_dec : EqDecision Event.
Proof. solve_decision. Defined.

(** A file as far as this program looks at it: type bits, permission bits
    and device number. *)
Record Inode := {
  i_fmt : Z;
  i_perm : Z;
  i_rdev : Z
}.

Record World := {
  w_trace : list Event;
  w_stage : Stage;
  w_fs : gmap string Inode;
  w_umask : Z
}.

(** What the program does not decide: which calls fail, the process id, how
    a call other than mknod and chmod changes the visible file tree, whether
    a child process ever exits and, when it does, its exit status and what
    it printed, what the control pipe delivers. Each answer may depend on
    everything that happened before. *)
Record OS := {
  os_fault : list Event -> Call -> option Exn;
  os_pid : list Event -> Z;
  os_effect : list Event -> Call -> gmap string Inode -> gmap string Inode;
  os_child : list Event -> list string -> option (Z * string);
  os_pipe : list Event -> Z -> Z -> option string;
  os_repr : string -> string
}.

(** The disposition of SIGCHLD after the events [h]: the last
    [signal.signal(SIGCHLD, ...)] that returned decides, and before any the
    signal is not ignored. *)
Definition sigchld_step (ignored : bool) (e : Event) : bool :=
  match ev_call e, ev_outcome e with
  | c_signal SIGCHLD SIG_IGN, returned _ => true
  | c_signal SIGCHLD SIG_DFL, returned _ => false
  | _, _ => ignored
  end.

Definition sigchld_ignored (h : list Event) : bool :=
  foldl sigchld_step false h.

(** The exit status that [subprocess] gets to see. While SIGCHLD is ignored
    the kernel reaps the child itself, the wait for it fails with ECHILD,
    and [subprocess] takes 0 for the status. *)
Definition seen_status (h : list Event) (status : Z) : Z :=
  if sigchld_ignored h then 0 else status.

(** ** The monad *)

Inductive Result (A : Type) :=
| Ok (a : A)
| Raise (e : Exn)
| Blocked.
Arguments Ok {A} a.
Arguments Raise {A} e.
Arguments Blocked {A}.

Definition M (A : Type) : Type := World -> Result A * World.

Global Instance M_ret : MRet M := fun A a w => (Ok a, w).

Global Instance M_bind : MBind M := fun A B k m w =>
  match m w with
  | (Ok a, w') => k a w'
  | (Raise e, w') => (Raise e, w')
  | (Blocked, w') => (Blocked, w')
  end.

Definition raise {A} (e : Exn) : M A := fun w => (Raise e, w).

Definition record (c : Call) (o : Outcome) (w : World) : World :=
  {| w_trace := w_trace w ++ [Ev (w_stage w) c o];
     w_stage := w_stage w;
     w_fs := w_fs w;
     w_umask := w_umask w |}.

Definition set_fs (fs : gmap string Inode) (w : World) : World :=
  {| w_trace := w_trace w;
     w_stage := w_stage w;
     w_fs := fs;
     w_umask := w_umask w |}.

(** The ghost annotation of [run]: the events of [m] carry stage [s]. *)
Definition within {A} (s : Stage) (m : M A) : M A := fun w =>
  m {| w_trace := w_trace w; w_stage := s; w_fs := w_fs w;
       w_umask := w_umask w |}.

Fixpoint for_each {A} (xs : list A) (body : A -> M unit) : M unit :=
  match xs with
  | [] => mret tt
  | x :: xs' => body x ;; for_each xs' body
  end.

(** ** The primitives *)

Section pid1.

Variable os : OS.
Variable libc : Libc.
Variable config : Config.
Variable self : PID1.

(** A call that the system may refuse. When it goes through, [sem] gives
    its own error or its result, the value to log and the new file tree. *)
Definition syscall {A} (c : Call)
    (sem : World -> Exn + (A * Value * gmap string Inode)) : M A := fun w =>
  match os_fault os (w_trace w) c with
  | Some e => (Raise e, record c (raised e) w)
  | None =>
      match sem w with
      | inl e => (Raise e, record c (raised e) w)
      | inr (a, v, fs) => (Ok a, record c (returned v) (set_fs fs w))
      end
  end.

(** A call with no result, whose effect on the file tree is the system's. *)
Definition effect (c : Call) : M unit :=
  syscall c (fun w => inr (tt, v_none, os_effect os (w_trace w) c (w_fs w))).

(** A call with no result that leaves the file tree alone. *)
Definition plain (c : Call) : M unit :=
  syscall c (fun w => inr (tt, v_none, w_fs w)).

(** [logger.debug], [logger.warning] *)
Definition log (lvl : LogLevel) (msg : string) : M unit := fun w =>
  (Ok tt, record (c_log lvl msg) (returned v_none) w).

(** [non_caching_getpid()] *)
Definition non_caching_getpid : M Z := fun w =>
  let pid := os_pid os (w_trace w) in
  (Ok pid, record c_getpid (returned (v_int pid)) w).

(** [Path.exists()]: a look at the file tree, which does not raise. *)
Definition path_exists (path : string) : M bool := fun w =>
  let b := bool_decide (is_Some (w_fs w !! path)) in
  (Ok b, record (c_exists path) (returned (v_bool b)) w).

Definition os_setsid : M unit := plain c_setsid.
Definition signal_signal (sig : Signal) (h : Handler) : M unit :=
  plain (c_signal sig h).
Definition unshare (flags : Z) : M unit := effect (c_unshare flags).
Definition mount (source target : string) (fstype : option string)
    (flags : Z) (data : option string) : M unit :=
  effect (c_mount source target fstype flags data).
(** [Path.mkdir(parents=True, exist_ok=True)] *)
Definition path_mkdir (path : string) : M unit := effect (c_mkdir path).
Definition os_chdir (path : string) : M unit := effect (c_chdir path).
Definition pivot_root (new_root put_old : string) : M unit :=
  effect (c_pivot_root new_root put_old).
Definition os_chroot (path : string) : M unit := effect (c_chroot path).
Definition umount2 (path : string) (flags : Z) : M unit :=
  effect (c_umount2 path flags).
Definition os_rmdir (path : string) : M unit := effect (c_rmdir path).
Definition sethostname (name : string) : M unit :=
  plain (c_sethostname name).

(** [subprocess.check_output(argv, stderr=STDOUT)]: waits, without a
    timeout, for the child to exit; then the output of the child, or
    CalledProcessError when the exit status it gets to see is not zero. *)
Definition check_output (argv : list string) : M string := fun w =>
  let c := c_check_output argv in
  match os_fault os (w_trace w) c with
  | Some e => (Raise e, record c (raised e) w)
  | None =>
      match os_child os (w_trace w) argv with
      | None => (Blocked, record c pending w)
      | Some (status, output) =>
          let seen := seen_status (w_trace w) status in
          if seen =? 0
          then (Ok output,
                record c (returned (v_bytes output))
                  (set_fs (os_effect os (w_trace w) c (w_fs w)) w))
          else (Raise (CalledProcessError seen argv),
                record c (raised (CalledProcessError seen argv)) w)
      end
  end.

(** [os.mknod(path, mode=, device=)]: refuses an existing path; the
    permission bits of [mode] go through the file-creation mask. *)
Definition os_mknod (path : string) (mode device : Z) : M unit :=
  syscall (c_mknod path mode device) (fun w =>
    match w_fs w !! path with
    | Some _ => inl (FileExistsError path)
    | None =>
        let node := {| i_fmt := Z.land mode S_IFMT;
                       i_perm := Z.land (Z.land mode S_IALLUGO)
                                        (Z.lnot (w_umask w));
                       i_rdev := device |} in
        inr (tt, v_none, <[path := node]> (w_fs w))
    end).

(** [Path.chmod(mode)]: replaces the permission bits. *)
Definition path_chmod (path : string) (mode : Z) : M unit :=
  syscall (c_chmod path mode) (fun w =>
    match w_fs w !! path with
    | None => inl (FileNotFoundError path)
    | Some node =>
        let node' := {| i_fmt := i_fmt node;
                        i_perm := Z.land mode S_IALLUGO;
                        i_rdev := i_rdev node |} in
        inr (tt, v_none, <[path := node']> (w_fs w))
    end).

(** [os.write(fd, data)] *)
Definition os_write (fd : Z) (data : string) : M Z :=
  let n := Z.of_nat (String.length data) in
  syscall (c_write fd data) (fun w => inr (n, v_int n, w_fs w)).

(** [os.read(fd, n)]: blocks until the pipe delivers bytes or its end. *)
Definition os_read (fd n : Z) : M string := fun w =>
  match os_fault os (w_trace w) (c_read fd n) with
  | Some e => (Raise e, record (c_read fd n) (raised e) w)
  | None =>
      match os_pipe os (w_trace w) fd n with
      | Some data => (Ok data, record (c_read fd n) (returned (v_bytes data)) w)
      | None => (Blocked, record (c_read fd n) pending w)
      end
  end.

(** ** The methods of PID1 *)

Definition enable_zombie_reaping : M unit :=
  signal_signal SIGCHLD SIG_IGN.

Definition setup_root_mount : M unit :=
  mount "none" "/" None (Z.lor (MS_REC libc) (MS_SLAVE libc)) None;;
  let old_root_dir := pathlib.Path [root_dir self; "old_root"] in
  path_mkdir old_root_dir;;
  os_chdir (root_dir self);;
  pivot_root "." "old_root";;
  os_chroot ".".

Definition mount_defaults : M unit :=
  for_each (CONTAINER_MOUNTS config) (fun m =>
    let options :=
      match m_options m with
      | Some opts => Some (String.concat "," opts)
      | None => None
      end in
    path_mkdir (m_destination m);;
    mount (m_source m) (m_destination m) (Some (m_type m))
          (default 0 (m_flags m)) options).

Definition create_tmpfs_dirs : M unit :=
  present ← path_exists "/bin/systemd-tmpfiles";
  if present : bool then
    for_each (CONTAINER_MOUNTS config) (fun m =>
      if String.eqb (m_type m) "tmpfs" then
        tmpfiles_output ← check_output
          ["/bin/systemd-tmpfiles"; "--create"; "--prefix"; m_destination m];
        if negb (String.eqb tmpfiles_output "") then
          log DEBUG ("systemd-tmpfiles output: "
                     +:+ os_repr os tmpfiles_output)
        else mret tt
      else mret tt)
  else
    log WARNING ("Could not run systemd-tmpfiles, because it does not exist. "
                 +:+ "/tmp and /run will not be populated.").

Definition create_device_node (name : string) (major minor mode : Z)
    (is_block_device : bool) : M unit :=
  let device_type := if is_block_device then S_IFBLK else S_IFCHR in
  let nodepath := pathlib.Path ["/dev"; name] in
  os_mknod nodepath device_type (makedev major minor);;
  path_chmod nodepath mode.

Definition create_default_dev_nodes : M unit :=
  for_each (CONTAINER_DEVICE_NODES config) (fun d =>
    create_device_node (d_name d) (d_major d) (d_minor d) 438 false).

Definition create_loop_devices : M unit :=
  create_device_node "loop-control" 10 237 432 false;;
  for_each (seqZ 0 8) (fun i =>
    create_device_node ("loop" +:+ pretty i) 7 i 432 true).

Definition umount_old_root : M unit :=
  umount2 "/old_root" (MNT_DETACH libc);;
  os_rmdir "/old_root".

Fixpoint namespaces_loop (items : list (string * Z)) (unshare_flags : Z)
    : M Z :=
  match items with
  | [] => mret unshare_flags
  | (name, flag) :: rest =>
      if flag =? CLONE_NEWPID libc then namespaces_loop rest unshare_flags
      else if (flag =? CLONE_NEWNET libc) && negb (isolate_networking self)
      then namespaces_loop rest unshare_flags
      else
        present ← path_exists (pathlib.Path ["/proc/self/ns"; name]);
        if present : bool
        then namespaces_loop rest (Z.lor unshare_flags flag)
        else
          log WARNING ("Namespace type " +:+ name
                       +:+ " not supported on this system");;
          namespaces_loop rest unshare_flags
  end.

Definition create_namespaces : M unit :=
  unshare_flags ← namespaces_loop (NAMESPACES config) 0;
  unshare unshare_flags.

(** [run]; the decoding of b'a' before [os.setsid] touches nothing of the
    system and is left out. *)
Definition run : M Z :=
  pid ← within at_getpid non_caching_getpid;
  if negb (pid =? 1) then
    raise (ValueError "We are not actually PID1, exiting for safety reasons")
  else
    within at_setsid os_setsid;;
    within at_enable_zombie_reaping enable_zombie_reaping;;
    within at_create_namespaces create_namespaces;;
    within at_setup_root_mount setup_root_mount;;
    within at_mount_defaults mount_defaults;;
    within at_create_default_dev_nodes create_default_dev_nodes;;
    within at_create_loop_devices create_loop_devices;;
    within at_create_tmpfs_dirs create_tmpfs_dirs;;
    within at_umount_old_root umount_old_root;;
    within at_sethostname (sethostname (HOSTNAME config));;
    within at_write (os_write (control_write self) "RDY");;
    log DEBUG "Container started";;
    within at_read (os_read (control_read self) 1);;
    log DEBUG "Control pipe closed, stopping";;
    mret 0.

End pid1.

(** ** Vocabulary of the statements *)

(** The events a computation adds to the trace of the world it starts in. *)
Definition events_of {A} (m : M A) (w : World) : list Event :=
  drop (length (w_trace w)) (w_trace (m w).2).

(** The world [w] after the events [evs], with the file tree [fs]. *)
Definition after (w : World) (evs : list Event) (fs : gmap string Inode)
    : World :=
  {| w_trace := w_trace w ++ evs;
     w_stage := w_stage w;
     w_fs := fs;
     w_umask := w_umask w |}.

Definition ev_ok (e : Event) : bool :=
  match ev_outcome e with returned _ => true | _ => false end.

Definition is_write (e : Event) : bool :=
  match ev_call e with c_write _ _ => true | _ => false end.

Definition is_unshare (e : Event) : bool :=
  match ev_call e with c_unshare _ => true | _ => false end.

Definition is_read (e : Event) : bool :=
  match ev_call e with c_read _ _ => true | _ => false end.

Definition is_mknod (e : Event) : bool :=
  match ev_call e with c_mknod _ _ _ => true | _ => false end.

Definition is_umount2 (e : Event) : bool :=
  match ev_call e with c_umount2 _ _ => true | _ => false end.

Definition is_mount (e : Event) : bool :=
  match ev_call e with c_mount _ _ _ _ _ => true | _ => false end.

Definition with_umask (mask : Z) (w : World) : World :=
  {| w_trace := w_trace w; w_stage := w_stage w; w_fs := w_fs w;
     w_umask := mask |}.

(** A name without "/", other than "" and ".". *)
Fixpoint no_sep (s : string) : bool :=
  match s with
  | EmptyString => true
  | String c s' => negb (Ascii.eqb c pathlib.sep) && no_sep s'
  end.

Definition plain_name (name : string) : bool :=
  no_sep name && negb (String.eqb name "") && negb (String.eqb name ".").

Definition present (fs : gmap string Inode) (path : string) : bool :=
  bool_decide (is_Some (fs !! path)).

Definition ns_path (name : string) : string :=
  pathlib.Path ["/proc/self/ns"; name].

Definition ns_warning (name : string) : Call :=
  c_log WARNING ("Namespace type " +:+ name +:+ " not supported on this system").

(** Two flags that are the same one or have no bit in common. *)
Definition same_or_disjoint (a b : Z) : Prop := a = b \/ Z.land a b = 0.

Section requested.

Variable libc : Libc.
Variable config : Config.
Variable self : PID1.

(** An entry the isolator looks at: not the PID flag, and not the network
    flag unless networking is to be isolated. *)
Definition considered (flag : Z) : bool :=
  negb (flag =? CLONE_NEWPID libc)
  && negb ((flag =? CLONE_NEWNET libc) && negb (isolate_networking self)).

(** The contract of the namespace isolator in the words of the
    specification: of the entries looked at, those whose namespace kind
    the kernel exposes. *)
Definition spec_requested (fs : gmap string Inode)
    (items : list (string * Z)) : list (string * Z) :=
  List.filter (fun it => considered it.2 && present fs (ns_path it.1)) items.

Definition spec_flags (fs : gmap string Inode) (items : list (string * Z))
    (acc : Z) : Z :=
  foldl Z.lor acc (map snd (spec_requested fs items)).

End requested.

(** ** The calls of each statement of [run] *)

Definition dev_path (name : string) : string := pathlib.Path ["/dev"; name].

Definition device_inode (is_block_device : bool) (major minor mode : Z)
    : Inode :=
  {| i_fmt := if is_block_device then S_IFBLK else S_IFCHR;
     i_perm := mode;
     i_rdev := makedev major minor |}.

Definition mknod_call (name : string) (major minor : Z) (blk : bool) : Call :=
  c_mknod (dev_path name) (if blk then S_IFBLK else S_IFCHR)
          (makedev major minor).

Definition chmod_call (name : string) (mode : Z) : Call :=
  c_chmod (dev_path name) mode.

Definition mount_call (m : MountSpec) : Call :=
  c_mount (m_source m) (m_destination m) (Some (m_type m))
          (default 0 (m_flags m))
          (match m_options m with
           | Some opts => Some (String.concat "," opts)
           | None => None
           end).

Definition tmpfiles : string := "/bin/systemd-tmpfiles".

Definition tmpfiles_argv (m : MountSpec) : list string :=
  [tmpfiles; "--create"; "--prefix"; m_destination m].

Definition tmpfiles_warning : Call :=
  c_log WARNING ("Could not run systemd-tmpfiles, because it does not exist. "
                 +:+ "/tmp and /run will not be populated.").

(** The nodes of [create_loop_devices]: name, major, minor, block device. *)
Definition loop_nodes : list (string * Z * Z * bool) :=
  ("loop-control", 10, 237, false)
  :: map (fun i => ("loop" +:+ pretty i, 7, i, true)) (seqZ 0 8).

Definition stage_rank (s : Stage) : nat :=
  match s with
  | at_getpid => 0
  | at_setsid => 1
  | at_enable_zombie_reaping => 2
  | at_create_namespaces => 3
  | at_setup_root_mount => 4
  | at_mount_defaults => 5
  | at_create_default_dev_nodes => 6
  | at_create_loop_devices => 7
  | at_create_tmpfs_dirs => 8
  | at_umount_old_root => 9
  | at_sethostname => 10
  | at_write => 11
  | at_read => 12
  end%nat.

Definition enter (s : Stage) (w : World) : World :=
  {| w_trace := w_trace w; w_stage := s; w_fs := w_fs w;
     w_umask := w_umask w |}.

(** Statements one after the other, each under its stage, then [k]. *)
Fixpoint chain {A} (ps : list (Stage * M unit)) (k : M A) : M A :=
  match ps with
  | [] => k
  | (s, m) :: ps' => within s m ;; chain ps' k
  end.

(** The steps went through one after the other, from [w] to [w'], and
    left the events [evs]. *)
Inductive completed : list (Stage * M unit) -> World -> list Event -> World
    -> Prop :=
| completed_nil w : completed [] w [] w
| completed_cons s m ps w evs w' :
    (m (enter s w)).1 = Ok tt ->
    completed ps (m (enter s w)).2 evs w' ->
    completed ((s, m) :: ps) w (events_of m (enter s w) ++ evs) w'.

(** How a result shows in the events: a computation that returns saw all
    its calls return; one that raises or blocks stopped at its last call. *)
Definition disc {A} (r : Result A) (evs : list Event) : Prop :=
  match r with
  | Ok _ => Forall (fun e => ev_ok e = true) evs
  | Raise x => exists pre s c,
      evs = pre ++ [Ev s c (raised x)] /\ Forall (fun e => ev_ok e = true) pre
  | Blocked => exists pre s c,
      evs = pre ++ [Ev s c pending] /\ Forall (fun e => ev_ok e = true) pre
  end.

(** [m] only appends events, under the stage it starts in, with calls in
    [P], and leaves stage and mask alone. *)
Definition emits {A} (P : Call -> Prop) (m : M A) : Prop :=
  forall w, exists evs fs,
    (m w).2 = after w evs fs
    /\ Forall (fun e => ev_stage e = w_stage w /\ P (ev_call e)) evs
    /\ disc (m w).1 evs.

Section stages.

Variable os : OS.
Variable libc : Libc.
Variable config : Config.
Variable self : PID1.

Definition remount_call : Call :=
  c_mount "none" "/" None (Z.lor (MS_REC libc) (MS_SLAVE libc)) None.

Definition root_mount_calls : list Call :=
  [remount_call;
   c_mkdir (pathlib.Path [root_dir self; "old_root"]);
   c_chdir (root_dir self);
   c_pivot_root "." "old_root";
   c_chroot "."].

Definition marker_call : Call := c_write (control_write self) "RDY".

Definition wait_call : Call := c_read (control_read self) 1.

(** The statements of [run] after the identity check. *)
Definition steps_of_run : list (Stage * M unit) :=
  [(at_setsid, os_setsid os);
   (at_enable_zombie_reaping, enable_zombie_reaping os);
   (at_create_namespaces, create_namespaces os libc config self);
   (at_setup_root_mount, setup_root_mount os libc self);
   (at_mount_defaults, mount_defaults os config);
   (at_create_default_dev_nodes, create_default_dev_nodes os config);
   (at_create_loop_devices, create_loop_devices os);
   (at_create_tmpfs_dirs, create_tmpfs_dirs os config);
   (at_umount_old_root, umount_old_root os libc);
   (at_sethostname, sethostname os (HOSTNAME config));
   (at_write, os_write os (control_write self) "RDY";;
              log DEBUG "Container started");
   (at_read, os_read os (control_read self) 1;;
             log DEBUG "Control pipe closed, stopping")].

(** The calls a statement of [run] can issue. *)
Definition stage_call (s : Stage) (c : Call) : Prop :=
  match s with
  | at_getpid => c = c_getpid
  | at_setsid => c = c_setsid
  | at_enable_zombie_reaping => c = c_signal SIGCHLD SIG_IGN
  | at_create_namespaces =>
      (exists name flag, (name, flag) ∈ NAMESPACES config
         /\ (c = c_exists (ns_path name) \/ c = ns_warning name))
      \/ exists flags, c = c_unshare flags
  | at_setup_root_mount => c ∈ root_mount_calls
  | at_mount_defaults =>
      exists m, m ∈ CONTAINER_MOUNTS config
        /\ (c = c_mkdir (m_destination m) \/ c = mount_call m)
  | at_create_default_dev_nodes =>
      exists d, d ∈ CONTAINER_DEVICE_NODES config
        /\ (c = mknod_call (d_name d) (d_major d) (d_minor d) false
            \/ c = chmod_call (d_name d) 438)
  | at_create_loop_devices =>
      exists n, n ∈ loop_nodes
        /\ (c = mknod_call n.1.1.1 n.1.1.2 n.1.2 n.2
            \/ c = chmod_call n.1.1.1 432)
  | at_create_tmpfs_dirs =>
      c = c_exists tmpfiles
      \/ c = tmpfiles_warning
      \/ (exists m, m ∈ CONTAINER_MOUNTS config /\ m_type m = "tmpfs"
            /\ c = c_check_output (tmpfiles_argv m))
      \/ exists output, c = c_log DEBUG ("systemd-tmpfiles output: "
                                         +:+ os_repr os output)
  | at_umount_old_root =>
      c = c_umount2 "/old_root" (MNT_DETACH libc) \/ c = c_rmdir "/old_root"
  | at_sethostname => c = c_sethostname (HOSTNAME config)
  | at_write => c = marker_call \/ c = c_log DEBUG "Container started"
  | at_read =>
      c = wait_call \/ c = c_log DEBUG "Control pipe closed, stopping"
  end.

(** What the events show once a statement of [run] has gone through. *)
Definition stage_done (s : Stage) (l : list Event) : Prop :=
  match s with
  | at_getpid => Ev s c_getpid (returned (v_int 1)) ∈ l
  | at_setsid => Ev s c_setsid (returned v_none) ∈ l
  | at_enable_zombie_reaping =>
      Ev s (c_signal SIGCHLD SIG_IGN) (returned v_none) ∈ l
  | at_create_namespaces =>
      exists flags, Ev s (c_unshare flags) (returned v_none) ∈ l
  | at_setup_root_mount =>
      forall c, c ∈ root_mount_calls -> Ev s c (returned v_none) ∈ l
  | at_mount_defaults =>
      forall m, m ∈ CONTAINER_MOUNTS config ->
        Ev s (c_mkdir (m_destination m)) (returned v_none) ∈ l
        /\ Ev s (mount_call m) (returned v_none) ∈ l
  | at_create_default_dev_nodes =>
      forall d, d ∈ CONTAINER_DEVICE_NODES config ->
        Ev s (mknod_call (d_name d) (d_major d) (d_minor d) false)
           (returned v_none) ∈ l
        /\ Ev s (chmod_call (d_name d) 438) (returned v_none) ∈ l
  | at_create_loop_devices =>
      forall n, n ∈ loop_nodes ->
        Ev s (mknod_call n.1.1.1 n.1.1.2 n.1.2 n.2) (returned v_none) ∈ l
        /\ Ev s (chmod_call n.1.1.1 432) (returned v_none) ∈ l
  | at_create_tmpfs_dirs =>
      (Ev s (c_exists tmpfiles) (returned (v_bool false)) ∈ l
       /\ Ev s tmpfiles_warning (returned v_none) ∈ l)
      \/ (Ev s (c_exists tmpfiles) (returned (v_bool true)) ∈ l
          /\ forall m, m ∈ CONTAINER_MOUNTS config -> m_type m = "tmpfs" ->
               exists output,
                 Ev s (c_check_output (tmpfiles_argv m))
                    (returned (v_bytes output)) ∈ l)
  | at_umount_old_root =>
      Ev s (c_umount2 "/old_root" (MNT_DETACH libc)) (returned v_none) ∈ l
      /\ Ev s (c_rmdir "/old_root") (returned v_none) ∈ l
  | at_sethostname =>
      Ev s (c_sethostname (HOSTNAME config)) (returned v_none) ∈ l
  | at_write => Ev s marker_call (returned (v_int 3)) ∈ l
  | at_read => exists data, Ev s wait_call (returned (v_bytes data)) ∈ l
  end.

(** Every statement before the readiness marker has gone through. *)
Definition setup_done (l : list Event) : Prop :=
  Forall (fun e => ev_ok e = true) l
  /\ forall s, (stage_rank s < stage_rank at_write)%nat -> stage_done s l.

(** The body of the loop of [create_tmpfs_dirs]. *)
Definition tmpfs_body (m : MountSpec) : M unit :=
  if String.eqb (m_type m) "tmpfs" then
    tmpfiles_output ← check_output os (tmpfiles_argv m);
    if negb (String.eqb tmpfiles_output "") then
      log DEBUG ("systemd-tmpfiles output: " +:+ os_repr os tmpfiles_output)
    else mret tt
  else mret tt.

(** The last two statement groups of [run]. *)
Definition write_step : M unit :=
  os_write os (control_write self) "RDY";; log DEBUG "Container started".

Definition read_step : M unit :=
  os_read os (control_read self) 1;;
  log DEBUG "Control pipe closed, stopping".

(** The look at the process id that opens [run], and the world after it. *)
Definition getpid_event (w : World) : Event :=
  Ev at_getpid c_getpid (returned (v_int (os_pid os (w_trace w)))).

Definition identified (w : World) : World :=
  after (enter at_getpid w) [getpid_event w] (w_fs w).

(** A step issues calls of its stage only and, when it goes through, leaves
    the events of that stage behind. *)
Definition step_ok (s : Stage) (m : M unit) : Prop :=
  emits (stage_call s) m
  /\ forall w, w_stage w = s -> (m w).1 = Ok tt ->
       stage_done s (events_of m w).

Definition steps_ok (ps : list (Stage * M unit)) : Prop :=
  Forall (fun p => step_ok p.1 p.2) ps.

(** An event of one of the steps: its stage, and a call of that stage. *)
Definition from_steps (ps : list (Stage * M unit)) (e : Event) : Prop :=
  exists p, p ∈ ps /\ ev_stage e = p.1 /\ stage_call p.1 (ev_call e).

(** What a call of the tool comes to, after the events [h]. *)
Definition check_outcome (h : list Event) (argv : list string) : Outcome :=
  match os_fault os h (c_check_output argv) with
  | Some x => raised x
  | None =>
      match os_child os h argv with
      | None => pending
      | Some (status, output) =>
          if seen_status h status =? 0 then returned (v_bytes output)
          else raised (CalledProcessError (seen_status h status) argv)
      end
  end.

(** The events of [m] that call the tool record what the system answered
    at that point. *)
Definition faithful {A} (m : M A) : Prop :=
  forall w pre e post argv,
    events_of m w = pre ++ e :: post ->
    ev_call e = c_check_output argv ->
    ev_outcome e = check_outcome (w_trace w ++ pre) argv.

End stages.

(** What an entry of the device table asks for, were its kind and mode
    read. *)
Definition entry_inode (d : DeviceNodeSpec) : Inode :=
  device_inode (match d_kind d with
                | block_device => true
                | char_device => false
                end)
               (d_major d) (d_minor d) (d_mode d).

(** ** A small system, for the examples *)

Definition ex_libc : Libc :=
  {| MS_REC := 0x4000;
     MS_SLAVE := 0x80000;
     CLONE_NEWPID := 0x20000000;
     CLONE_NEWNET := 0x40000000;
     MNT_DETACH := 2 |}.

Definition ex_null : DeviceNodeSpec :=
  {| d_name := "null"; d_major := 1; d_minor := 3; d_mode := 438;
     d_kind := char_device |}.

Definition ex_sda : DeviceNodeSpec :=
  {| d_name := "sda"; d_major := 8; d_minor := 0; d_mode := 432;
     d_kind := block_device |}.

Definition ex_tmp : MountSpec :=
  {| m_source := "tmpfs"; m_destination := "/tmp"; m_type := "tmpfs";
     m_flags := Some 6; m_options := Some ["mode=1777"; "size=1g"] |}.

Definition ex_proc : MountSpec :=
  {| m_source := "proc"; m_destination := "/proc"; m_type := "proc";
     m_flags := None; m_options := None |}.

Definition ex_config : Config :=
  {| NAMESPACES := [("pid", 0x20000000); ("net", 0x40000000);
                    ("mnt", 0x20000); ("uts", 0x4000000)];
     CONTAINER_MOUNTS := [ex_proc; ex_tmp];
     CONTAINER_DEVICE_NODES := [ex_null];
     HOSTNAME := "localhost" |}.

(** A table with a block device of mode 0o660. *)
Definition ex_config_sda : Config :=
  {| NAMESPACES := NAMESPACES ex_config;
     CONTAINER_MOUNTS := CONTAINER_MOUNTS ex_config;
     CONTAINER_DEVICE_NODES := [ex_sda];
     HOSTNAME := HOSTNAME ex_config |}.

Definition ex_self : PID1 :=
  {| control_read := 3; control_write := 4; root_dir := "/mnt/ctr";
     isolate_networking := true |}.

Definition ex_self_offline : PID1 :=
  {| control_read := 3; control_write := 4; root_dir := "/mnt/ctr";
     isolate_networking := false |}.

(** A system on which every call goes through, the process id is 1, the
    tool prints nothing and the control channel is at its end. *)
Definition ex_os : OS :=
  {| os_fault := fun _ _ => None;
     os_pid := fun _ => 1;
     os_effect := fun _ _ fs => fs;
     os_child := fun _ _ => Some (0, "");
     os_pipe := fun _ _ _ => Some "";
     os_repr := fun s => s |}.

(** The same with another process id. *)
Definition ex_os_stranger : OS :=
  {| os_fault := fun _ _ => None;
     os_pid := fun _ => 4711;
     os_effect := fun _ _ fs => fs;
     os_child := fun _ _ => Some (0, "");
     os_pipe := fun _ _ _ => Some "";
     os_repr := fun s => s |}.

(** The same with a tool that exits with status 1. *)
Definition ex_os_tool_fails : OS :=
  {| os_fault := fun _ _ => None;
     os_pid := fun _ => 1;
     os_effect := fun _ _ fs => fs;
     os_child := fun _ _ => Some (1, "");
     os_pipe := fun _ _ _ => Some "";
     os_repr := fun s => s |}.

Definition ex_file : Inode := {| i_fmt := 0x8000; i_perm := 493; i_rdev := 0 |}.

(** The mount and network namespace kinds are there, the uts kind and the
    tool are not. *)
Definition ex_world : World :=
  {| w_trace := [];
     w_stage := at_getpid;
     w_fs := {[ "/proc/self/ns/mnt" := ex_file;
                "/proc/self/ns/net" := ex_file ]};
     w_umask := 18 |}.

(** The same with the tool. *)
Definition ex_world_tool : World :=
  {| w_trace := [];
     w_stage := at_getpid;
     w_fs := {[ "/proc/self/ns/mnt" := ex_file;
                "/proc/self/ns/net" := ex_file;
                "/bin/systemd-tmpfiles" := ex_file ]};
     w_umask := 18 |}.

Definition ex_events : list Event :=
  Eval vm_compute in events_of (run ex_os ex_libc ex_config ex_self) ex_world.

Definition ex_events_tool_fails : list Event :=
  Eval vm_compute in
    events_of (run ex_os_tool_fails ex_libc ex_config ex_self) ex_world_tool.

(** A file tree without any namespace kind. *)
Definition ex_world_bare : World :=
  {| w_trace := []; w_stage := at_create_namespaces; w_fs := ∅;
     w_umask := 18 |}.

Definition ex_pivot : Event :=
  Ev at_setup_root_mount (c_pivot_root "." "old_root") (returned v_none).

Definition ex_mount_proc : Event :=
  Ev at_mount_defaults (c_mount "proc" "/proc" (Some "proc") 0 None)
     (returned v_none).

Definition ex_marker : Event :=
  Ev at_write (c_write 4 "RDY") (returned (v_int 3)).

Definition ex_wait : Event :=
  Ev at_read (c_read 3 1) (returned (v_bytes "")).

Definition ex_tool_call : Event :=
  Ev at_create_tmpfs_dirs (c_check_output (tmpfiles_argv ex_tmp))
     (returned (v_bytes "")).

(** ** Vocabulary of the further properties *)

Definition calls_of (evs : list Event) : list Call := map ev_call evs.

(** [m] issues the calls [cs] in this order and stops at the first one that
    does not return: all of them when it goes through. *)
Definition scripted (cs : list Call) (m : M unit) : Prop :=
  forall w,
    calls_of (events_of m w) `prefix_of` cs
    /\ ((m w).1 = Ok tt -> calls_of (events_of m w) = cs).

(** The argument lists of the child processes started, in order. *)
Definition tool_calls (evs : list Event) : list (list string) :=
  omap (fun e => match ev_call e with
                 | c_check_output argv => Some argv
                 | _ => None
                 end) evs.

(** The paths whose existence was looked up, in order. *)
Definition looked_at (evs : list Event) : list string :=
  omap (fun e => match ev_call e with
                 | c_exists path => Some path
                 | _ => None
                 end) evs.

Definition is_tmpfs (m : MountSpec) : bool := String.eqb (m_type m) "tmpfs".

(** The calls of [mount_defaults] for a table: for each entry the mkdir of
    its destination, then its mount. *)
Definition mount_script (ms : list MountSpec) : list Call :=
  flat_map (fun m => [c_mkdir (m_destination m); mount_call m]) ms.

(** An event of a statement of [run] that comes no later than another's. *)
Definition stage_le (a b : Event) : Prop :=
  (stage_rank (ev_stage a) <= stage_rank (ev_stage b))%nat.

(** The log line that follows a call of the tool with outcome [o]: one
    when the tool returned something, none otherwise. *)
Definition output_log (os : OS) (s : Stage) (o : Outcome) : list Event :=
  match o with
  | returned (v_bytes out) =>
      if negb (String.eqb out "")
      then [Ev s (c_log DEBUG ("systemd-tmpfiles output: " +:+ os_repr os out))
               (returned v_none)]
      else []
  | _ => []
  end.

(** Nothing, or events that begin with a call of the tool. *)
Definition tool_or_end (l : list Event) : Prop :=
  match l with
  | [] => True
  | e :: _ => exists argv, ev_call e = c_check_output argv
  end.

(** ** Further small systems, for the examples *)

(** A system that refuses every chmod. *)
Definition ex_os_no_chmod : OS :=
  {| os_fault := fun _ c => match c with
                            | c_chmod _ _ => Some (OSError 1)
                            | _ => None
                            end;
     os_pid := fun _ => 1;
     os_effect := fun _ _ fs => fs;
     os_child := fun _ _ => Some (0, "");
     os_pipe := fun _ _ _ => Some "";
     os_repr := fun s => s |}.

(** A system whose tool prints a line. *)
Definition ex_os_chatty : OS :=
  {| os_fault := fun _ _ => None;
     os_pid := fun _ => 1;
     os_effect := fun _ _ fs => fs;
     os_child := fun _ _ => Some (0, "created");
     os_pipe := fun _ _ _ => Some "";
     os_repr := fun s => "b'" +:+ s +:+ "'" |}.

(** A file tree in which /dev/null is taken. *)
Definition ex_world_dev : World :=
  {| w_trace := [];
     w_stage := at_create_default_dev_nodes;
     w_fs := {[ "/dev/null" := ex_file ]};
     w_umask := 18 |}.

Definition ex_tool_returns : Event :=
  Ev at_getpid (c_check_output (tmpfiles_argv ex_tmp))
     (returned (v_bytes "created")).

Definition ex_tool_raises : Event :=
  Ev at_getpid (c_check_output (tmpfiles_argv ex_tmp))
     (raised (CalledProcessError 1 (tmpfiles_argv ex_tmp))).

(** ** The monad and the trace *)

Lemma bind_unfold {A B} (m : M A) (k : A -> M B) w :
  (m ≫= k) w =
  match m w with
  | (Ok a, w') => k a w'
  | (Raise e, w') => (Raise e, w')
  | (Blocked, w') => (Blocked, w')
  end.
Proof. reflexivity. Qed.

Lemma bind_Ok {A B} (m : M A) (k : A -> M B) w b w' :
  (m ≫= k) w = (Ok b, w') ->
  exists a w1, m w = (Ok a, w1) /\ k a w1 = (Ok b, w').
Proof.
  rewrite bind_unfold. destruct (m w) as [[a|e|] w1]; [eauto|done|done].
Qed.

Lemma run_pair {A} (m : M A) w : m w = ((m w).1, (m w).2).
Proof. by destruct (m w). Qed.

Lemma after_after w evs1 fs1 evs2 fs2 :
  after (after w evs1 fs1) evs2 fs2 = after w (evs1 ++ evs2) fs2.
Proof. unfold after; simpl. by rewrite <- app_assoc. Qed.

Lemma after_nil w : after w [] (w_fs w) = w.
Proof. destruct w; unfold after; simpl. by rewrite app_nil_r. Qed.

Lemma events_of_after {A} (m : M A) w evs fs :
  (m w).2 = after w evs fs -> events_of m w = evs.
Proof.
  intros H. unfold events_of. rewrite H. simpl. by rewrite drop_app_length.
Qed.

Lemma events_of_eq {A} (m : M A) w r evs fs :
  m w = (r, after w evs fs) -> events_of m w = evs.
Proof. intros H. apply (events_of_after m w evs fs). by rewrite H. Qed.

(** ** Composing computations that only append events *)

Lemma disc_app {A B} (evs1 evs2 : list Event) (a : A) (r : Result B) :
  disc (Ok a) evs1 -> disc r evs2 -> disc r (evs1 ++ evs2).
Proof.
  intros H1 H2. destruct r as [b|x|]; simpl in *.
  - by apply Forall_app.
  - destruct H2 as (pre & s & c & -> & Hpre).
    exists (evs1 ++ pre), s, c. split; [by rewrite app_assoc|by apply Forall_app].
  - destruct H2 as (pre & s & c & -> & Hpre).
    exists (evs1 ++ pre), s, c. split; [by rewrite app_assoc|by apply Forall_app].
Qed.

Lemma emits_ret {A} P (a : A) : emits P (mret a).
Proof.
  intros w. exists [], (w_fs w). simpl. rewrite after_nil.
  split; [done|]. split; constructor.
Qed.

Lemma emits_bind {A B} P (m : M A) (k : A -> M B) :
  emits P m -> (forall a, emits P (k a)) -> emits P (m ≫= k).
Proof.
  intros Hm Hk w. destruct (Hm w) as (evs1 & fs1 & Hw1 & Hall1 & Hd1).
  rewrite bind_unfold. destruct (m w) as [[a|x|] w1]; simpl in *; subst w1.
  - destruct (Hk a (after w evs1 fs1)) as (evs2 & fs2 & Hw2 & Hall2 & Hd2).
    exists (evs1 ++ evs2), fs2. rewrite Hw2, after_after.
    split; [done|]. split; [by apply Forall_app|].
    eapply (disc_app _ _ a); [exact Hd1|exact Hd2].
  - by exists evs1, fs1.
  - by exists evs1, fs1.
Qed.

Lemma emits_mono {A} (P Q : Call -> Prop) (m : M A) :
  (forall c, P c -> Q c) -> emits P m -> emits Q m.
Proof.
  intros HPQ Hm w. destruct (Hm w) as (evs & fs & ? & Hall & ?).
  exists evs, fs. split; [done|]. split; [|done].
  eapply Forall_impl; [exact Hall|]. intros e [? ?]. eauto.
Qed.

Lemma emits_for_each {A} P (xs : list A) (body : A -> M unit) :
  (forall x, x ∈ xs -> emits P (body x)) -> emits P (for_each xs body).
Proof.
  induction xs as [|x xs IH]; intros Hb; simpl.
  - apply emits_ret.
  - apply emits_bind; [apply Hb; by left|]. intros _. apply IH.
    intros y Hy. apply Hb. by right.
Qed.

(** What [emits] says, on the events the computation added. *)
Lemma emits_events {A} P (m : M A) w :
  emits P m ->
  (exists fs, (m w).2 = after w (events_of m w) fs)
  /\ Forall (fun e => ev_stage e = w_stage w /\ P (ev_call e)) (events_of m w)
  /\ disc (m w).1 (events_of m w).
Proof.
  intros Hm. destruct (Hm w) as (evs & fs & Hw & Hall & Hd).
  rewrite (events_of_after m w evs fs Hw). eauto.
Qed.

Lemma emits_frame {A} P (m : M A) w :
  emits P m -> w_trace (m w).2 = w_trace w ++ events_of m w.
Proof.
  intros Hm. destruct (emits_events P m w Hm) as ([fs ->] & _). done.
Qed.

Lemma emits_stage {A} P (m : M A) w :
  emits P m -> w_stage (m w).2 = w_stage w.
Proof.
  intros Hm. destruct (emits_events P m w Hm) as ([fs ->] & _). done.
Qed.

Lemma events_of_bind {A B} P (m : M A) (k : A -> M B) w a :
  emits P m -> (forall a, emits P (k a)) -> (m w).1 = Ok a ->
  (m ≫= k) w = k a (m w).2
  /\ events_of (m ≫= k) w = events_of m w ++ events_of (k a) (m w).2.
Proof.
  intros Hm Hk Hok.
  destruct (emits_events P m w Hm) as ([fs1 Hw1] & _).
  destruct (emits_events P (k a) (m w).2 (Hk a)) as ([fs2 Hw2] & _).
  assert ((m ≫= k) w = k a (m w).2) as Heq.
  { rewrite bind_unfold, (run_pair m w), Hok. done. }
  split; [done|]. apply (events_of_after _ w _ fs2).
  rewrite Heq, Hw2. rewrite Hw1 at 1. by rewrite after_after.
Qed.

Lemma events_of_bind_stop {A B} (m : M A) (k : A -> M B) w :
  (forall a, (m w).1 <> Ok a) ->
  events_of (m ≫= k) w = events_of m w
  /\ match (m w).1 with
     | Ok _ => False
     | Raise x => ((m ≫= k) w).1 = Raise x
     | Blocked => ((m ≫= k) w).1 = Blocked
     end.
Proof.
  intros Hno. unfold events_of. rewrite bind_unfold.
  destruct (m w) as [[a|x|] w1]; simpl in *; [by destruct (Hno a)|done|done].
Qed.

(** ** The primitives *)

Section primitives.

Variable os : OS.

Lemma emits_one {A} (P : Call -> Prop) c o (r : Result A) fs w :
  P c ->
  match r with
  | Ok _ => exists v, o = returned v
  | Raise x => o = raised x
  | Blocked => o = pending
  end ->
  exists evs fs',
    (r, after w [Ev (w_stage w) c o] fs).2 = after w evs fs'
    /\ Forall (fun e => ev_stage e = w_stage w /\ P (ev_call e)) evs
    /\ disc (r, after w [Ev (w_stage w) c o] fs).1 evs.
Proof.
  intros HP Ho. exists [Ev (w_stage w) c o], fs. split; [done|].
  split; [by repeat constructor|]. simpl.
  destruct r as [a|x|].
  - destruct Ho as [v ->]. by repeat constructor.
  - subst o. exists [], (w_stage w), c. by split.
  - subst o. exists [], (w_stage w), c. by split.
Qed.

Lemma emits_syscall {A} (P : Call -> Prop) c
    (sem : World -> Exn + (A * Value * gmap string Inode)) :
  P c -> emits P (syscall os c sem).
Proof.
  intros HP w. unfold syscall.
  destruct (os_fault os (w_trace w) c) as [x|].
  { by apply (emits_one P c (raised x) (Raise x) (w_fs w)). }
  destruct (sem w) as [x|[[a v] fs]].
  { by apply (emits_one P c (raised x) (Raise x) (w_fs w)). }
  apply (emits_one P c (returned v) (Ok a) fs w); eauto.
Qed.

Lemma emits_log (P : Call -> Prop) lvl msg :
  P (c_log lvl msg) -> emits P (log lvl msg).
Proof.
  intros HP w.
  apply (emits_one P _ (returned v_none) (Ok tt) (w_fs w)); eauto.
Qed.

Lemma emits_path_exists (P : Call -> Prop) path :
  P (c_exists path) -> emits P (path_exists path).
Proof.
  intros HP w.
  apply (emits_one P _ (returned _) (Ok _) (w_fs w)); eauto.
Qed.

Lemma emits_os_read (P : Call -> Prop) fd n :
  P (c_read fd n) -> emits P (os_read os fd n).
Proof.
  intros HP w. unfold os_read.
  destruct (os_fault os (w_trace w) _) as [x|].
  { by apply (emits_one P _ (raised x) (Raise x) (w_fs w)). }
  destruct (os_pipe os (w_trace w) fd n) as [data|].
  - apply (emits_one P _ (returned _) (Ok data) (w_fs w)); eauto.
  - by apply (emits_one P _ pending Blocked (w_fs w)).
Qed.

Lemma emits_check_output (P : Call -> Prop) argv :
  P (c_check_output argv) -> emits P (check_output os argv).
Proof.
  intros HP w. unfold check_output. cbv zeta.
  destruct (os_fault os (w_trace w) _) as [x|].
  { by apply (emits_one P _ (raised x) (Raise x) (w_fs w)). }
  destruct (os_child os (w_trace w) argv) as [[status output]|].
  - destruct (seen_status (w_trace w) status =? 0).
    + apply (emits_one P _ (returned _) (Ok output) _ w); eauto.
    + by apply (emits_one P _ (raised _) (Raise _) (w_fs w)).
  - by apply (emits_one P _ pending Blocked (w_fs w)).
Qed.

Lemma path_exists_run path w :
  path_exists path w =
  (Ok (present (w_fs w) path),
   after w [Ev (w_stage w) (c_exists path)
               (returned (v_bool (present (w_fs w) path)))] (w_fs w)).
Proof. reflexivity. Qed.

Lemma log_run lvl msg w :
  log lvl msg w =
  (Ok tt, after w [Ev (w_stage w) (c_log lvl msg) (returned v_none)] (w_fs w)).
Proof. reflexivity. Qed.

Lemma syscall_Ok {A} c (sem : World -> Exn + (A * Value * gmap string Inode))
    w a w' :
  syscall os c sem w = (Ok a, w') ->
  os_fault os (w_trace w) c = None /\
  exists v fs, sem w = inr (a, v, fs)
    /\ w' = after w [Ev (w_stage w) c (returned v)] fs.
Proof.
  unfold syscall. destruct (os_fault os (w_trace w) c); [done|].
  destruct (sem w) as [e|[[a' v] fs]]; [done|].
  intros [= -> <-]. eauto.
Qed.

Lemma effect_Ok c w w' :
  effect os c w = (Ok tt, w') ->
  w' = after w [Ev (w_stage w) c (returned v_none)]
             (os_effect os (w_trace w) c (w_fs w)).
Proof.
  intros H. apply syscall_Ok in H as (_ & v & fs & Hsem & ->).
  by inversion Hsem.
Qed.

Lemma plain_Ok c w w' :
  plain os c w = (Ok tt, w') ->
  w' = after w [Ev (w_stage w) c (returned v_none)] (w_fs w).
Proof.
  intros H. apply syscall_Ok in H as (_ & v & fs & Hsem & ->).
  by inversion Hsem.
Qed.

Lemma os_mknod_Ok path mode device w w' :
  os_mknod os path mode device w = (Ok tt, w') ->
  w_fs w !! path = None /\
  w' = after w [Ev (w_stage w) (c_mknod path mode device) (returned v_none)]
         (<[path := {| i_fmt := Z.land mode S_IFMT;
                       i_perm := Z.land (Z.land mode S_IALLUGO)
                                        (Z.lnot (w_umask w));
                       i_rdev := device |}]> (w_fs w)).
Proof.
  intros H. apply syscall_Ok in H as (_ & v & fs & Hsem & ->).
  destruct (w_fs w !! path); [done|]. by inversion Hsem.
Qed.

Lemma path_chmod_Ok path mode w w' :
  path_chmod os path mode w = (Ok tt, w') ->
  exists node, w_fs w !! path = Some node /\
  w' = after w [Ev (w_stage w) (c_chmod path mode) (returned v_none)]
         (<[path := {| i_fmt := i_fmt node;
                       i_perm := Z.land mode S_IALLUGO;
                       i_rdev := i_rdev node |}]> (w_fs w)).
Proof.
  intros H. apply syscall_Ok in H as (_ & v & fs & Hsem & ->).
  destruct (w_fs w !! path) as [node|]; [|done].
  exists node. by inversion Hsem.
Qed.

End primitives.

(** ** The statements of [run], one by one *)

Section steps.

Variable os : OS.
Variable libc : Libc.
Variable config : Config.
Variable self : PID1.

Local Abbreviation stage_call := (stage_call os libc config self).
Local Abbreviation stage_done := (stage_done libc config self).
Local Abbreviation tmpfs_body := (tmpfs_body os).
Local Abbreviation write_step := (write_step os self).
Local Abbreviation read_step := (read_step os self).
Local Abbreviation getpid_event := (getpid_event os).
Local Abbreviation identified := (identified os).
Local Abbreviation step_ok := (step_ok os libc config self).
Local Abbreviation steps_ok := (steps_ok os libc config self).
Local Abbreviation from_steps := (from_steps os libc config self).
Local Abbreviation check_outcome := (check_outcome os).
Local Abbreviation faithful := (faithful os).

Lemma for_each_Ok_cons {A} (x : A) xs body w w' :
  for_each (x :: xs) body w = (Ok tt, w') ->
  exists w1, body x w = (Ok tt, w1) /\ for_each xs body w1 = (Ok tt, w').
Proof.
  simpl. intros H. apply bind_Ok in H as ([] & w1 & ? & ?). eauto.
Qed.

(** In a loop that went through, every iteration went through, and its
    events are among those of the loop. *)
Lemma for_each_iterations {A} P (xs : list A) (body : A -> M unit) :
  (forall x, x ∈ xs -> emits P (body x)) ->
  forall w, (for_each xs body w).1 = Ok tt ->
  forall x, x ∈ xs ->
    exists wx, w_stage wx = w_stage w
      /\ (body x wx).1 = Ok tt
      /\ events_of (body x) wx ⊆ events_of (for_each xs body) w.
Proof.
  induction xs as [|x0 xs IH]; intros Hb w Hok x Hin.
  { by apply elem_of_nil in Hin. }
  assert (emits P (body x0)) as H0 by (apply Hb; by left).
  assert (forall y, y ∈ xs -> emits P (body y)) as Hb'.
  { intros y Hy. apply Hb. by right. }
  assert (forall u : unit, emits P (for_each xs body)) as Hrest.
  { intros _. by apply emits_for_each. }
  simpl in Hok. destruct (body x0 w) as [r0 w1] eqn:Hrun0.
  assert (r0 = Ok tt) as ->.
  { rewrite bind_unfold, Hrun0 in Hok. destruct r0 as [[]| |]; done. }
  destruct (events_of_bind P (body x0) (fun _ => for_each xs body) w tt H0 Hrest)
    as [Heq Hevs]; [by rewrite Hrun0|].
  rewrite Hrun0 in Heq, Hevs. simpl in Heq, Hevs.
  change (for_each (x0 :: xs) body) with (body x0 ;; for_each xs body).
  rewrite Hevs. apply elem_of_cons in Hin as [->|Hin].
  - exists w. rewrite Hrun0. split_and!; try done.
    intros e He. apply elem_of_app. by left.
  - rewrite Heq in Hok.
    destruct (IH Hb' w1 Hok x Hin) as (wx & Hst & Hokx & Hsub).
    exists wx. split_and!; try done.
    + rewrite Hst. pose proof (emits_stage P (body x0) w H0) as Hs.
      by rewrite Hrun0 in Hs.
    + intros e He. apply elem_of_app. right. by apply Hsub.
Qed.

(** *** setsid, signal, hostname *)

Lemma emits_plain c (P : Call -> Prop) : P c -> emits P (plain os c).
Proof. apply emits_syscall. Qed.

Lemma emits_effect c (P : Call -> Prop) : P c -> emits P (effect os c).
Proof. apply emits_syscall. Qed.

Lemma plain_events c w :
  (plain os c w).1 = Ok tt ->
  events_of (plain os c) w = [Ev (w_stage w) c (returned v_none)].
Proof.
  intros Hok. pose proof (run_pair (plain os c) w) as Hrun.
  rewrite Hok in Hrun. apply plain_Ok in Hrun.
  by rewrite (events_of_after _ _ _ _ Hrun).
Qed.

Lemma effect_events c w :
  (effect os c w).1 = Ok tt ->
  events_of (effect os c) w = [Ev (w_stage w) c (returned v_none)].
Proof.
  intros Hok. pose proof (run_pair (effect os c) w) as Hrun.
  rewrite Hok in Hrun. apply effect_Ok in Hrun.
  by rewrite (events_of_after _ _ _ _ Hrun).
Qed.

Lemma emits_os_setsid : emits (stage_call at_setsid) (os_setsid os).
Proof. by apply emits_plain. Qed.

Lemma done_os_setsid w :
  w_stage w = at_setsid -> (os_setsid os w).1 = Ok tt ->
  stage_done at_setsid (events_of (os_setsid os) w).
Proof.
  intros Hs Hok. unfold os_setsid. rewrite plain_events by done.
  rewrite Hs. simpl. by left.
Qed.

Lemma emits_enable_zombie_reaping :
  emits (stage_call at_enable_zombie_reaping) (enable_zombie_reaping os).
Proof. by apply emits_plain. Qed.

Lemma done_enable_zombie_reaping w :
  w_stage w = at_enable_zombie_reaping ->
  (enable_zombie_reaping os w).1 = Ok tt ->
  stage_done at_enable_zombie_reaping (events_of (enable_zombie_reaping os) w).
Proof.
  intros Hs Hok. unfold enable_zombie_reaping, signal_signal.
  rewrite plain_events by done. rewrite Hs. simpl. by left.
Qed.

Lemma emits_sethostname :
  emits (stage_call at_sethostname) (sethostname os (HOSTNAME config)).
Proof. by apply emits_plain. Qed.

Lemma done_sethostname w :
  w_stage w = at_sethostname ->
  (sethostname os (HOSTNAME config) w).1 = Ok tt ->
  stage_done at_sethostname (events_of (sethostname os (HOSTNAME config)) w).
Proof.
  intros Hs Hok. unfold sethostname. rewrite plain_events by done.
  rewrite Hs. simpl. by left.
Qed.

(** A sequence of two computations that went through. *)
Lemma seq_Ok {A B} P (m : M A) (k : A -> M B) w b :
  emits P m -> (forall a, emits P (k a)) ->
  ((m ≫= k) w).1 = Ok b ->
  exists a, (m w).1 = Ok a /\ (k a (m w).2).1 = Ok b
    /\ events_of (m ≫= k) w = events_of m w ++ events_of (k a) (m w).2.
Proof.
  intros Hm Hk Hok. destruct ((m w).1) as [a| |] eqn:Hr.
  - destruct (events_of_bind P m k w a Hm Hk Hr) as [Heq Hevs].
    exists a. rewrite Heq in Hok. done.
  - rewrite bind_unfold, (run_pair m w), Hr in Hok. done.
  - rewrite bind_unfold, (run_pair m w), Hr in Hok. done.
Qed.

(** *** umount_old_root *)

Lemma emits_umount_old_root :
  emits (stage_call at_umount_old_root) (umount_old_root os libc).
Proof.
  apply emits_bind; [apply emits_effect; by left|].
  intros _. apply emits_effect. by right.
Qed.

Lemma done_umount_old_root w :
  w_stage w = at_umount_old_root ->
  (umount_old_root os libc w).1 = Ok tt ->
  stage_done at_umount_old_root (events_of (umount_old_root os libc) w).
Proof.
  intros Hs Hok. unfold umount_old_root, umount2, os_rmdir in *.
  eapply (seq_Ok (fun _ => True)) in Hok as ([] & H1 & H2 & ->);
    [|by apply emits_effect|intros; by apply emits_effect].
  rewrite !effect_events by done.
  rewrite (emits_stage (fun _ => True)) by (by apply emits_effect).
  rewrite Hs. simpl. split; [by left|right; by left].
Qed.

Ltac in_list := solve [repeat first [left; reflexivity | right]].

Ltac emits_any :=
  repeat first
    [ apply emits_ret
    | apply emits_effect; exact I
    | apply emits_plain; exact I
    | apply emits_syscall; exact I
    | apply emits_check_output; exact I
    | apply emits_log; exact I
    | apply emits_path_exists; exact I
    | apply emits_os_read; exact I
    | apply emits_bind; [|intros ?] ].

Ltac seq_ok H H1 :=
  eapply (seq_Ok (fun _ => True)) in H as ([] & H1 & H & ->);
  [|emits_any|intros ?; emits_any].

(** *** setup_root_mount *)

Lemma emits_setup_root_mount :
  emits (stage_call at_setup_root_mount) (setup_root_mount os libc self).
Proof.
  unfold setup_root_mount, mount, path_mkdir, os_chdir, pivot_root, os_chroot.
  repeat (apply emits_bind; [|intros _]); apply emits_effect; simpl;
    unfold root_mount_calls; in_list.
Qed.

Lemma done_setup_root_mount w :
  w_stage w = at_setup_root_mount ->
  (setup_root_mount os libc self w).1 = Ok tt ->
  stage_done at_setup_root_mount (events_of (setup_root_mount os libc self) w).
Proof.
  intros Hs Hok.
  unfold setup_root_mount, mount, path_mkdir, os_chdir, pivot_root, os_chroot
    in *.
  seq_ok Hok H1. seq_ok Hok H2. seq_ok Hok H3. seq_ok Hok H4.
  rewrite !effect_events by done.
  rewrite !(emits_stage (fun _ => True)) by emits_any.
  rewrite Hs. simpl. unfold root_mount_calls, remount_call. intros c Hc.
  repeat (apply elem_of_cons in Hc as [->|Hc]; [in_list|]).
  by apply elem_of_nil in Hc.
Qed.

(** In the events of [setup_root_mount] the remount comes before the
    pivot, and has gone through by then. *)
Lemma setup_root_mount_order w pre e post :
  events_of (setup_root_mount os libc self) w = pre ++ e :: post ->
  ev_call e = c_pivot_root "." "old_root" ->
  Ev (w_stage w) (remount_call libc) (returned v_none) ∈ pre.
Proof.
  unfold setup_root_mount, mount, path_mkdir, os_chdir, pivot_root, os_chroot,
    effect, syscall, events_of, remount_call.
  unfold mbind, M_bind. simpl.
  repeat (match goal with
          | |- context [os_fault os ?h ?c] => destruct (os_fault os h c)
          end; simpl);
    rewrite <- ?app_assoc, drop_app_length; simpl; intros Heq Hcall;
    repeat (destruct pre as [|? pre]; simplify_eq/=; try done);
    by left.
Qed.

(** *** mount_defaults *)

Lemma emits_mount_defaults :
  emits (stage_call at_mount_defaults) (mount_defaults os config).
Proof.
  apply emits_for_each. intros m Hm.
  apply emits_bind; [|intros _]; apply emits_effect; exists m; eauto.
Qed.

Lemma done_mount_defaults w :
  w_stage w = at_mount_defaults ->
  (mount_defaults os config w).1 = Ok tt ->
  stage_done at_mount_defaults (events_of (mount_defaults os config) w).
Proof.
  intros Hs Hok m Hm. unfold mount_defaults in *.
  eapply (for_each_iterations (fun _ => True)) in Hok
    as (wx & Hst & Hokx & Hsub); [|intros; emits_any|exact Hm].
  cbv beta zeta in Hokx, Hsub. unfold path_mkdir, mount in *.
  eapply (seq_Ok (fun _ => True)) in Hokx as ([] & H1 & Hokx & Hevs);
    [|emits_any|intros ?; emits_any].
  rewrite Hevs, !effect_events in Hsub by done.
  rewrite !(emits_stage (fun _ => True)) in Hsub by emits_any.
  rewrite Hst, Hs in Hsub. split; apply Hsub; in_list.
Qed.

(** *** Device nodes *)

Lemma emits_create_device_node name major minor mode blk :
  emits (fun c => c = mknod_call name major minor blk
                  \/ c = chmod_call name mode)
        (create_device_node os name major minor mode blk).
Proof.
  apply emits_bind; [|intros _]; apply emits_syscall; [by left|by right].
Qed.

Lemma create_device_node_Ok name major minor mode blk w w' :
  create_device_node os name major minor mode blk w = (Ok tt, w') ->
  w_fs w !! dev_path name = None /\
  w' = after w [Ev (w_stage w) (mknod_call name major minor blk)
                   (returned v_none);
                Ev (w_stage w) (chmod_call name mode) (returned v_none)]
         (<[dev_path name :=
              device_inode blk major minor (Z.land mode S_IALLUGO)]> (w_fs w)).
Proof.
  unfold create_device_node. intros H.
  apply bind_Ok in H as ([] & w1 & Hmk & Hch).
  apply os_mknod_Ok in Hmk as [Hfree ->].
  apply path_chmod_Ok in Hch as (node & Hnode & ->).
  split; [done|]. simpl in *. rewrite after_after.
  rewrite lookup_insert_eq in Hnode. inversion Hnode; subst; simpl.
  rewrite insert_insert_eq. unfold device_inode, mknod_call, chmod_call.
  by destruct blk.
Qed.

Lemma create_device_node_events name major minor mode blk w :
  (create_device_node os name major minor mode blk w).1 = Ok tt ->
  events_of (create_device_node os name major minor mode blk) w
  = [Ev (w_stage w) (mknod_call name major minor blk) (returned v_none);
     Ev (w_stage w) (chmod_call name mode) (returned v_none)].
Proof.
  intros Hok. pose proof (run_pair (create_device_node os name major minor mode blk) w) as Hrun.
  rewrite Hok in Hrun. apply create_device_node_Ok in Hrun as [_ Hrun].
  by rewrite (events_of_after _ _ _ _ Hrun).
Qed.

Lemma emits_create_default_dev_nodes :
  emits (stage_call at_create_default_dev_nodes)
        (create_default_dev_nodes os config).
Proof.
  apply emits_for_each. intros d Hd.
  eapply emits_mono; [|apply emits_create_device_node].
  intros c Hc. exists d. eauto.
Qed.

Lemma done_create_default_dev_nodes w :
  w_stage w = at_create_default_dev_nodes ->
  (create_default_dev_nodes os config w).1 = Ok tt ->
  stage_done at_create_default_dev_nodes
             (events_of (create_default_dev_nodes os config) w).
Proof.
  intros Hs Hok d Hd. unfold create_default_dev_nodes in *.
  eapply (for_each_iterations (fun _ => True)) in Hok
    as (wx & Hst & Hokx & Hsub); [|intros; emits_any|exact Hd].
  rewrite create_device_node_events in Hsub by done.
  rewrite Hst, Hs in Hsub. split; apply Hsub; in_list.
Qed.

Lemma emits_create_loop_devices :
  emits (stage_call at_create_loop_devices) (create_loop_devices os).
Proof.
  apply emits_bind; [|intros _].
  - eapply emits_mono; [|apply emits_create_device_node].
    intros c Hc. exists ("loop-control", 10, 237, false).
    split; [by left|done].
  - apply emits_for_each. intros i Hi.
    eapply emits_mono; [|apply emits_create_device_node].
    intros c Hc. exists ("loop" +:+ pretty i, 7, i, true). split; [|done].
    right. apply list_elem_of_fmap. eauto.
Qed.

Lemma done_create_loop_devices w :
  w_stage w = at_create_loop_devices ->
  (create_loop_devices os w).1 = Ok tt ->
  stage_done at_create_loop_devices (events_of (create_loop_devices os) w).
Proof.
  intros Hs Hok n Hn. unfold create_loop_devices in *.
  eapply (seq_Ok (fun _ => True)) in Hok as ([] & H1 & Hok & ->);
    [|emits_any|intros ?; apply emits_for_each; intros; emits_any].
  apply elem_of_cons in Hn as [->|Hn].
  - rewrite create_device_node_events by done. rewrite Hs.
    split; apply elem_of_app; left; in_list.
  - apply list_elem_of_fmap in Hn as (i & -> & Hi).
    eapply (for_each_iterations (fun _ => True)) in Hok
      as (wx & Hst & Hokx & Hsub); [|intros; emits_any|exact Hi].
    rewrite create_device_node_events in Hsub by done.
    rewrite Hst, (emits_stage (fun _ => True)), Hs in Hsub by emits_any.
    split; apply elem_of_app; right; apply Hsub; in_list.
Qed.

(** *** create_namespaces *)

(** The loop of [create_namespaces] never fails: it computes the flags of
    the specification, and logs a warning right after each look that found
    the namespace kind missing. *)
Lemma namespaces_loop_spec items :
  (forall it, it ∈ items -> it ∈ NAMESPACES config) ->
  forall acc w, exists evs,
    namespaces_loop libc self items acc w
    = (Ok (spec_flags libc self (w_fs w) items acc), after w evs (w_fs w))
    /\ Forall (fun e => ev_stage e = w_stage w
                        /\ stage_call at_create_namespaces (ev_call e)
                        /\ ev_ok e = true /\ is_unshare e = false) evs
    /\ forall name flag,
         (name, flag) ∈ items ->
         considered libc self flag = true ->
         present (w_fs w) (ns_path name) = false ->
         exists pre post,
           evs = pre ++ [Ev (w_stage w) (c_exists (ns_path name))
                            (returned (v_bool false));
                         Ev (w_stage w) (ns_warning name) (returned v_none)]
                     ++ post.
Proof.
  induction items as [|[name flag] rest IH]; intros Hsub acc w.
  - exists []. split; [|split].
    + simpl. by rewrite after_nil.
    + constructor.
    + intros ?? Hin. by apply elem_of_nil in Hin.
  - assert (forall it, it ∈ rest -> it ∈ NAMESPACES config) as Hsub'.
    { intros it Hit. apply Hsub. by right. }
    assert ((name, flag) ∈ NAMESPACES config) as Hhere.
    { apply Hsub. by left. }
    specialize (IH Hsub').
    unfold spec_flags, spec_requested in *. simpl.
    unfold considered at 1. simpl.
    destruct (flag =? CLONE_NEWPID libc) eqn:Hpid; simpl.
    { destruct (IH acc w) as (evs & Hrun & Hall & Hwarn).
      exists evs. split; [done|]. split; [done|].
      intros n f Hin Hc Hp. apply elem_of_cons in Hin as [Heq|Hin]; [|eauto].
      inversion Heq; subst. unfold considered in Hc. by rewrite Hpid in Hc. }
    destruct ((flag =? CLONE_NEWNET libc) && negb (isolate_networking self))
      eqn:Hnet; simpl.
    { destruct (IH acc w) as (evs & Hrun & Hall & Hwarn).
      exists evs. split; [done|]. split; [done|].
      intros n f Hin Hc Hp. apply elem_of_cons in Hin as [Heq|Hin]; [|eauto].
      inversion Heq; subst. unfold considered in Hc.
      rewrite Hnet, andb_false_r in Hc. done. }
    rewrite bind_unfold, path_exists_run.
    fold (ns_path name).
    destruct (present (w_fs w) (ns_path name)) eqn:Hp; simpl.
    + set (w1 := after w _ _).
      destruct (IH (Z.lor acc flag) w1) as (evs & Hrun & Hall & Hwarn).
      eexists (_ :: evs). split; [|split].
      * rewrite Hrun. subst w1. rewrite after_after. done.
      * constructor; [|done]. split_and!; try done. left. eauto.
      * intros n f Hin Hc Hpn.
        apply elem_of_cons in Hin as [Heq|Hin].
        { inversion Heq; subst. congruence. }
        destruct (Hwarn n f Hin Hc Hpn) as (pre & post & ->).
        eexists (_ :: pre), post. done.
    + rewrite bind_unfold, log_run. simpl.
      set (w1 := after (after w _ _) _ _).
      destruct (IH acc w1) as (evs & Hrun & Hall & Hwarn).
      eexists (_ :: _ :: evs). split; [|split].
      * rewrite Hrun. subst w1. rewrite !after_after. done.
      * constructor; [|constructor; [|done]]; split_and!; try done;
          left; eauto.
      * intros n f Hin Hc Hpn.
        apply elem_of_cons in Hin as [Heq|Hin].
        { inversion Heq; subst. exists [], evs. done. }
        destruct (Hwarn n f Hin Hc Hpn) as (pre & post & ->).
        eexists (_ :: _ :: pre), post. done.
Qed.

Lemma effect_run c w :
  effect os c w =
  match os_fault os (w_trace w) c with
  | Some x => (Raise x, after w [Ev (w_stage w) c (raised x)] (w_fs w))
  | None => (Ok tt, after w [Ev (w_stage w) c (returned v_none)]
                      (os_effect os (w_trace w) c (w_fs w)))
  end.
Proof. unfold effect, syscall. by destruct (os_fault os (w_trace w) c). Qed.

Lemma create_namespaces_run w evs :
  namespaces_loop libc self (NAMESPACES config) 0 w
  = (Ok (spec_flags libc self (w_fs w) (NAMESPACES config) 0),
     after w evs (w_fs w)) ->
  create_namespaces os libc config self w =
  let c := c_unshare (spec_flags libc self (w_fs w) (NAMESPACES config) 0) in
  match os_fault os (w_trace w ++ evs) c with
  | Some x => (Raise x, after w (evs ++ [Ev (w_stage w) c (raised x)]) (w_fs w))
  | None => (Ok tt, after w (evs ++ [Ev (w_stage w) c (returned v_none)])
                      (os_effect os (w_trace w ++ evs) c (w_fs w)))
  end.
Proof.
  intros Hrun. unfold create_namespaces, unshare.
  rewrite bind_unfold, Hrun, effect_run. simpl.
  destruct (os_fault os _ _); by rewrite after_after.
Qed.

(** [create_namespaces]: looks and warnings, then one unshare with the
    flags of the specification, on which alone the result depends. *)
Lemma create_namespaces_spec w :
  exists evs o,
    events_of (create_namespaces os libc config self) w
    = evs ++ [Ev (w_stage w)
                 (c_unshare (spec_flags libc self (w_fs w) (NAMESPACES config) 0))
                 o]
    /\ Forall (fun e => ev_stage e = w_stage w
                        /\ stage_call at_create_namespaces (ev_call e)
                        /\ ev_ok e = true /\ is_unshare e = false) evs
    /\ (forall name flag,
         (name, flag) ∈ NAMESPACES config ->
         considered libc self flag = true ->
         present (w_fs w) (ns_path name) = false ->
         exists pre post,
           evs = pre ++ [Ev (w_stage w) (c_exists (ns_path name))
                            (returned (v_bool false));
                         Ev (w_stage w) (ns_warning name) (returned v_none)]
                     ++ post)
    /\ match (create_namespaces os libc config self w).1 with
       | Ok _ => o = returned v_none
       | Raise x => o = raised x
       | Blocked => False
       end.
Proof.
  destruct (namespaces_loop_spec (NAMESPACES config) (fun _ H => H) 0 w)
    as (evs & Hrun & Hall & Hwarn).
  pose proof (create_namespaces_run w evs Hrun) as Heq. cbv zeta in Heq.
  destruct (os_fault os (w_trace w ++ evs) _) as [x|].
  - exists evs, (raised x).
    rewrite (events_of_eq _ _ _ _ _ Heq), Heq. done.
  - exists evs, (returned v_none).
    rewrite (events_of_eq _ _ _ _ _ Heq), Heq. done.
Qed.

Lemma emits_create_namespaces :
  emits (stage_call at_create_namespaces)
        (create_namespaces os libc config self).
Proof.
  intros w.
  destruct (namespaces_loop_spec (NAMESPACES config) (fun _ H => H) 0 w)
    as (evs & Hrun & Hall & _).
  assert (Forall (fun e => ev_stage e = w_stage w
            /\ stage_call at_create_namespaces (ev_call e)) evs) as Hall1.
  { eapply Forall_impl; [exact Hall|]. intros e (? & ? & _). done. }
  assert (Forall (fun e => ev_ok e = true) evs) as Hall2.
  { eapply Forall_impl; [exact Hall|]. intros e (? & ? & ? & _). done. }
  pose proof (create_namespaces_run w evs Hrun) as Heq. cbv zeta in Heq.
  destruct (os_fault os (w_trace w ++ evs) _) as [x|]; rewrite Heq;
    eexists _, _; (split; [reflexivity|]); simpl.
  - split.
    + apply Forall_app. split; [done|]. constructor; [|constructor].
      split; [done|]. right. eauto.
    + eexists evs, _, _. done.
  - split.
    + apply Forall_app. split; [done|]. constructor; [|constructor].
      split; [done|]. right. eauto.
    + apply Forall_app. split; [done|]. by repeat constructor.
Qed.

Lemma done_create_namespaces w :
  w_stage w = at_create_namespaces ->
  (create_namespaces os libc config self w).1 = Ok tt ->
  stage_done at_create_namespaces
             (events_of (create_namespaces os libc config self) w).
Proof.
  intros Hs Hok. destruct (create_namespaces_spec w) as (evs & o & -> & _ & _ & Ho).
  rewrite Hok in Ho. subst o. rewrite Hs. eexists.
  apply elem_of_app. right. by left.
Qed.

(** *** create_tmpfs_dirs *)

Lemma create_tmpfs_dirs_unfold w :
  create_tmpfs_dirs os config w =
  (found ← path_exists tmpfiles;
   if found : bool then for_each (CONTAINER_MOUNTS config) tmpfs_body
   else log WARNING ("Could not run systemd-tmpfiles, because it does not exist. "
                     +:+ "/tmp and /run will not be populated.")) w.
Proof. reflexivity. Qed.

Lemma emits_tmpfs_body m :
  m ∈ CONTAINER_MOUNTS config ->
  emits (stage_call at_create_tmpfs_dirs) (tmpfs_body m).
Proof.
  intros Hm. unfold tmpfs_body.
  destruct (String.eqb (m_type m) "tmpfs") eqn:Ht; [|apply emits_ret].
  apply String.eqb_eq in Ht.
  apply emits_bind.
  - apply emits_check_output. right; right; left. eauto.
  - intros out. destruct (negb _); [|apply emits_ret].
    apply emits_log. right; right; right. eauto.
Qed.

Lemma emits_create_tmpfs_dirs :
  emits (stage_call at_create_tmpfs_dirs) (create_tmpfs_dirs os config).
Proof.
  apply emits_bind; [apply emits_path_exists; by left|].
  intros [|].
  - apply emits_for_each. apply emits_tmpfs_body.
  - apply emits_log. right; by left.
Qed.

Lemma check_output_Ok argv w output w' :
  check_output os argv w = (Ok output, w') ->
  w' = after w [Ev (w_stage w) (c_check_output argv)
                   (returned (v_bytes output))]
         (os_effect os (w_trace w) (c_check_output argv) (w_fs w)).
Proof.
  unfold check_output. cbv zeta. intros H.
  destruct (os_fault os (w_trace w) _); [done|].
  destruct (os_child os (w_trace w) argv) as [[status out]|]; [|done].
  destruct (seen_status (w_trace w) status =? 0); [|done].
  by inversion H.
Qed.

Lemma done_create_tmpfs_dirs w :
  w_stage w = at_create_tmpfs_dirs ->
  (create_tmpfs_dirs os config w).1 = Ok tt ->
  stage_done at_create_tmpfs_dirs (events_of (create_tmpfs_dirs os config) w).
Proof.
  intros Hs Hok. pose proof emits_create_tmpfs_dirs as Hem.
  unfold create_tmpfs_dirs in Hem.
  eapply (seq_Ok (stage_call at_create_tmpfs_dirs)) in Hok
    as (found & H1 & Hok & Hevs);
    [|apply emits_path_exists; by left
     |intros [|]; [apply emits_for_each, emits_tmpfs_body
                  |apply emits_log; right; by left]].
  unfold create_tmpfs_dirs. rewrite Hevs. clear Hevs Hem.
  rewrite (events_of_eq _ _ _ _ _ (path_exists_run "/bin/systemd-tmpfiles" w)).
  rewrite path_exists_run in H1, Hok |- *. cbn [fst snd] in H1, Hok |- *.
  injection H1 as Hfound. rewrite Hfound in Hok |- *.
  set (w1 := after w _ _) in *.
  assert (w_stage w1 = at_create_tmpfs_dirs) as Hs1 by done.
  clearbody w1. rewrite Hs. destruct found.
  - right. split; [by left|]. intros m Hm Ht.
    eapply (for_each_iterations (stage_call at_create_tmpfs_dirs)) in Hok
      as (wx & Hst & Hokx & Hsub); [|apply emits_tmpfs_body|exact Hm].
    fold (tmpfs_body m) in Hokx, Hsub. unfold tmpfs_body in Hokx, Hsub.
    apply String.eqb_eq in Ht. rewrite Ht in Hokx, Hsub.
    change (("tmpfs" =? "tmpfs")%string) with true in Hokx, Hsub.
    cbv iota in Hokx, Hsub.
    eapply (seq_Ok (fun _ => True)) in Hokx as (out & H2 & Hokx & Hevs);
      [|emits_any|intros ?; destruct (negb _); emits_any].
    rewrite Hevs in Hsub. exists out.
    pose proof (run_pair (check_output os ["/bin/systemd-tmpfiles";
                  "--create"; "--prefix"; m_destination m]) wx) as Hrun.
    rewrite H2 in Hrun. apply check_output_Ok in Hrun.
    rewrite (events_of_after _ _ _ _ Hrun) in Hsub.
    rewrite Hst, Hs1 in Hsub. apply elem_of_app. right. apply Hsub.
    apply elem_of_app. left. by left.
  - left. rewrite (events_of_eq _ _ _ _ _ (log_run _ _ _)). rewrite Hs1.
    split; [by left|]. right. by left.
Qed.

(** *** The readiness marker and the wait *)

Lemma emits_write_step : emits (stage_call at_write) write_step.
Proof.
  apply emits_bind; [apply emits_syscall; by left|].
  intros _. apply emits_log. by right.
Qed.

Lemma emits_read_step : emits (stage_call at_read) read_step.
Proof.
  apply emits_bind; [apply emits_os_read; by left|].
  intros _. apply emits_log. by right.
Qed.

(** The events of the write statement: the marker, then the log line when
    the write went through. *)
Lemma write_step_events w :
  exists o, events_of write_step w
    = Ev (w_stage w) (marker_call self) o
      :: match o with
         | returned _ =>
             [Ev (w_stage w) (c_log DEBUG "Container started") (returned v_none)]
         | _ => []
         end
    /\ match (write_step w).1 with
       | Ok _ => o = returned (v_int 3)
       | Raise x => o = raised x
       | Blocked => False
       end.
Proof.
  unfold write_step, os_write, syscall, marker_call, events_of.
  rewrite bind_unfold. simpl.
  destruct (os_fault os _ _) as [x|]; simpl.
  - exists (raised x). by rewrite drop_app_length.
  - exists (returned (v_int 3)). by rewrite <- app_assoc, drop_app_length.
Qed.

(** The events of the wait: the read, then the log line when it returned. *)
Lemma read_step_events w :
  exists o, events_of read_step w
    = Ev (w_stage w) (wait_call self) o
      :: match o with
         | returned _ =>
             [Ev (w_stage w) (c_log DEBUG "Control pipe closed, stopping")
                 (returned v_none)]
         | _ => []
         end
    /\ match (read_step w).1 with
       | Ok _ => exists data, o = returned (v_bytes data)
       | Raise x => o = raised x
       | Blocked => o = pending
       end.
Proof.
  unfold read_step, os_read, wait_call, events_of.
  rewrite bind_unfold. simpl.
  destruct (os_fault os _ _) as [x|]; simpl.
  - exists (raised x). by rewrite drop_app_length.
  - destruct (os_pipe os _ _ _) as [data|]; simpl.
    + exists (returned (v_bytes data)).
      rewrite <- app_assoc, drop_app_length. eauto.
    + exists pending. by rewrite drop_app_length.
Qed.

Lemma done_write_step w :
  w_stage w = at_write -> (write_step w).1 = Ok tt ->
  stage_done at_write (events_of write_step w).
Proof.
  intros Hs Hok. destruct (write_step_events w) as (o & -> & Ho).
  rewrite Hok in Ho. subst o. rewrite Hs. by left.
Qed.

Lemma done_read_step w :
  w_stage w = at_read -> (read_step w).1 = Ok tt ->
  stage_done at_read (events_of read_step w).
Proof.
  intros Hs Hok. destruct (read_step_events w) as (o & -> & Ho).
  rewrite Hok in Ho. destruct Ho as [data ->]. rewrite Hs. exists data. by left.
Qed.

(** ** Statements in sequence *)

Lemma stage_done_mono s (l l' : list Event) :
  l ⊆ l' -> stage_done s l -> stage_done s l'.
Proof.
  intros Hsub. destruct s; simpl; try (by apply Hsub).
  - intros [flags H]. exists flags. by apply Hsub.
  - intros H c Hc. by apply Hsub, H.
  - intros H m Hm. destruct (H m Hm). split; by apply Hsub.
  - intros H d Hd. destruct (H d Hd). split; by apply Hsub.
  - intros H n Hn. destruct (H n Hn). split; by apply Hsub.
  - intros [[H1 H2]|[H1 H2]]; [left|right]; (split; [by apply Hsub|]).
    + by apply Hsub.
    + intros m Hm Ht. destruct (H2 m Hm Ht) as [out Hout].
      exists out. by apply Hsub.
  - intros [H1 H2]. split; by apply Hsub.
  - intros [data H]. exists data. by apply Hsub.
Qed.

Lemma steps_of_run_ok : steps_ok (steps_of_run os libc config self).
Proof.
  unfold steps_ok, steps_of_run.
  repeat (apply Forall_cons; split); [..|constructor]; split; simpl.
  - apply emits_os_setsid.
  - apply done_os_setsid.
  - apply emits_enable_zombie_reaping.
  - apply done_enable_zombie_reaping.
  - apply emits_create_namespaces.
  - apply done_create_namespaces.
  - apply emits_setup_root_mount.
  - apply done_setup_root_mount.
  - apply emits_mount_defaults.
  - apply done_mount_defaults.
  - apply emits_create_default_dev_nodes.
  - apply done_create_default_dev_nodes.
  - apply emits_create_loop_devices.
  - apply done_create_loop_devices.
  - apply emits_create_tmpfs_dirs.
  - apply done_create_tmpfs_dirs.
  - apply emits_umount_old_root.
  - apply done_umount_old_root.
  - apply emits_sethostname.
  - apply done_sethostname.
  - apply emits_write_step.
  - apply done_write_step.
  - apply emits_read_step.
  - apply done_read_step.
Qed.

Lemma app_split_at {A} (l1 l2 pre post : list A) e :
  l1 ++ l2 = pre ++ e :: post ->
  (exists post1, l1 = pre ++ e :: post1 /\ post = post1 ++ l2)
  \/ (exists pre2, pre = l1 ++ pre2 /\ l2 = pre2 ++ e :: post).
Proof.
  revert pre. induction l1 as [|x l1 IH]; intros pre Heq; simpl in *.
  - right. exists pre. done.
  - destruct pre as [|y pre]; simplify_eq/=.
    + left. exists l1. done.
    + destruct (IH pre H0) as [(post1 & -> & ->)|(pre2 & -> & ->)].
      * left. eauto.
      * right. eauto.
Qed.

Lemma enter_step s (m : M unit) w :
  emits (stage_call s) m ->
  exists fs, (m (enter s w)).2 = after (enter s w) (events_of m (enter s w)) fs
    /\ Forall (fun e => ev_stage e = s /\ stage_call s (ev_call e))
              (events_of m (enter s w))
    /\ disc (m (enter s w)).1 (events_of m (enter s w)).
Proof.
  intros Hm. destruct (emits_events _ m (enter s w) Hm) as ([fs Hw] & Hall & Hd).
  eauto.
Qed.

(** The trace of a chain: the events of its first step, then those of the
    rest when that step returned. *)
Lemma chain_cons {A} s (m : M unit) ps (a : A) w :
  chain ((s, m) :: ps) (mret a) w =
  match (m (enter s w)).1 with
  | Ok _ => chain ps (mret a) (m (enter s w)).2
  | Raise x => (Raise x, (m (enter s w)).2)
  | Blocked => (Blocked, (m (enter s w)).2)
  end.
Proof.
  simpl. rewrite bind_unfold. unfold within.
  change {| w_trace := w_trace w; w_stage := s; w_fs := w_fs w;
            w_umask := w_umask w |} with (enter s w).
  by destruct (m (enter s w)) as [[[]|x|] w1].
Qed.

Lemma events_of_appends {A} (m : M A) w evs :
  w_trace (m w).2 = w_trace w ++ evs -> events_of m w = evs.
Proof. intros H. unfold events_of. by rewrite H, drop_app_length. Qed.

Lemma chain_appends_ex {A} ps (a : A) :
  steps_ok ps ->
  forall w, exists evs, w_trace (chain ps (mret a) w).2 = w_trace w ++ evs.
Proof.
  induction ps as [|[s m] ps IH]; intros Hps w.
  - exists []. simpl. by rewrite app_nil_r.
  - apply Forall_cons in Hps as [[Hm _] Hps]. simpl in Hm.
    destruct (enter_step s m w Hm) as (fs & Hw & _).
    rewrite chain_cons.
    destruct ((m (enter s w)).1) as [[]|x|].
    + destruct (IH Hps (m (enter s w)).2) as [evs ->]. rewrite Hw. simpl.
      rewrite <- app_assoc. eauto.
    + simpl. rewrite Hw. simpl. eauto.
    + simpl. rewrite Hw. simpl. eauto.
Qed.

Lemma chain_appends {A} ps (a : A) :
  steps_ok ps ->
  forall w, w_trace (chain ps (mret a) w).2
            = w_trace w ++ events_of (chain ps (mret a)) w.
Proof.
  intros Hps w. destruct (chain_appends_ex ps a Hps w) as [evs Hevs].
  by rewrite (events_of_appends _ _ _ Hevs).
Qed.

Lemma chain_events {A} s (m : M unit) ps (a : A) w :
  steps_ok ((s, m) :: ps) ->
  events_of (chain ((s, m) :: ps) (mret a)) w =
  events_of m (enter s w)
  ++ match (m (enter s w)).1 with
     | Ok _ => events_of (chain ps (mret a)) (m (enter s w)).2
     | _ => []
     end.
Proof.
  intros Hps. apply Forall_cons in Hps as [[Hm _] Hps]. simpl in Hm.
  destruct (enter_step s m w Hm) as (fs & Hw & _).
  apply events_of_appends. rewrite chain_cons.
  destruct ((m (enter s w)).1) as [[]|x|].
  - rewrite (chain_appends ps a Hps). rewrite Hw at 1. simpl.
    by rewrite <- app_assoc.
  - simpl. rewrite Hw. simpl. by rewrite app_nil_r.
  - simpl. rewrite Hw. simpl. by rewrite app_nil_r.
Qed.

(** Every event of a chain comes from one of its steps. *)
Lemma chain_from_steps {A} ps (a : A) :
  steps_ok ps ->
  forall w, Forall (from_steps ps) (events_of (chain ps (mret a)) w).
Proof.
  induction ps as [|[s m] ps IH]; intros Hps w.
  - unfold events_of. simpl. rewrite drop_ge by done. constructor.
  - rewrite chain_events by done.
    apply Forall_cons in Hps as [[Hm _] Hps]. simpl in Hm.
    destruct (enter_step s m w Hm) as (fs & _ & Hall & _).
    apply Forall_app. split.
    + eapply Forall_impl; [exact Hall|]. intros e [? ?].
      exists (s, m). split; [by left|done].
    + destruct ((m (enter s w)).1); [|constructor..].
      eapply Forall_impl; [apply (IH Hps)|].
      intros e (p & ? & ?). exists p. split; [by right|done].
Qed.

(** What a completed sequence leaves behind. *)
Lemma completed_facts ps w evs w' :
  steps_ok ps -> completed ps w evs w' ->
  w_trace w' = w_trace w ++ evs
  /\ Forall (fun e => ev_ok e = true) evs
  /\ Forall (from_steps ps) evs
  /\ forall p, p ∈ ps -> stage_done p.1 evs.
Proof.
  intros Hps Hc. induction Hc as [w|s m ps w evs w' Hok Hc IH].
  - split_and!; [by rewrite app_nil_r|constructor|constructor|].
    intros p Hp. by apply elem_of_nil in Hp.
  - apply Forall_cons in Hps as [[Hm Hdone] Hps]. simpl in Hm, Hdone.
    destruct (IH Hps) as (Htr & Hall & Hfrom & Hd).
    destruct (enter_step s m w Hm) as (fs & Hw & Hall1 & Hd1).
    rewrite Hok in Hd1. simpl in Hd1.
    split_and!.
    + rewrite Htr, Hw. simpl. by rewrite <- app_assoc.
    + by apply Forall_app.
    + apply Forall_app. split.
      * eapply Forall_impl; [exact Hall1|]. intros e [? ?].
        exists (s, m). split; [by left|done].
      * eapply Forall_impl; [exact Hfrom|].
        intros e (p & ? & ?). exists p. split; [by right|done].
    + intros p Hp. apply elem_of_cons in Hp as [->|Hp].
      * simpl. specialize (Hdone (enter s w) eq_refl Hok).
        revert Hdone. apply stage_done_mono. intros e He.
        apply elem_of_app. by left.
      * specialize (Hd p Hp). revert Hd. apply stage_done_mono.
        intros e He. apply elem_of_app. by right.
Qed.

Lemma completed_app ps1 ps2 w evs1 w1 evs2 w2 :
  completed ps1 w evs1 w1 -> completed ps2 w1 evs2 w2 ->
  completed (ps1 ++ ps2) w (evs1 ++ evs2) w2.
Proof.
  intros H1 H2. induction H1 as [w|s m ps w evs w' Hok Hc IH]; [done|].
  simpl. rewrite <- app_assoc. constructor; [done|]. by apply IH.
Qed.

(** A chain that returns has completed all its steps. *)
Lemma chain_Ok {A} ps (a : A) :
  steps_ok ps ->
  forall w b, (chain ps (mret a) w).1 = Ok b ->
  b = a /\ completed ps w (events_of (chain ps (mret a)) w)
                       (chain ps (mret a) w).2.
Proof.
  induction ps as [|[s m] ps IH]; intros Hps w b Hok.
  - simpl in *. inversion Hok. split; [done|].
    unfold events_of. simpl. rewrite drop_ge by done. constructor.
  - rewrite chain_events by done. rewrite chain_cons in *.
    apply Forall_cons in Hps as [_ Hps].
    destruct ((m (enter s w)).1) as [[]|x|] eqn:Hr; [|done..].
    destruct (IH Hps _ _ Hok) as [-> Hc]. split; [done|].
    by constructor.
Qed.

(** The step an event of a chain comes from: the steps before have all
    completed, and what follows the step are the events of the rest. *)
Lemma chain_locate {A} ps (a : A) :
  steps_ok ps ->
  forall w pre e post,
    events_of (chain ps (mret a)) w = pre ++ e :: post ->
    exists ps1 s m ps2 evs1 w1 pre2 post2,
      ps = ps1 ++ (s, m) :: ps2
      /\ completed ps1 w evs1 w1
      /\ pre = evs1 ++ pre2
      /\ events_of m (enter s w1) = pre2 ++ e :: post2
      /\ post = post2 ++ match (m (enter s w1)).1 with
                         | Ok _ => events_of (chain ps2 (mret a))
                                             (m (enter s w1)).2
                         | _ => []
                         end
      /\ (chain ps (mret a) w).1
         = match (m (enter s w1)).1 with
           | Ok _ => (chain ps2 (mret a) (m (enter s w1)).2).1
           | Raise x => Raise x
           | Blocked => Blocked
           end.
Proof.
  induction ps as [|[s m] ps IH]; intros Hps w pre e post Heq.
  - unfold events_of in Heq. simpl in Heq. rewrite drop_ge in Heq by done.
    by destruct pre.
  - rewrite chain_events in Heq by done.
    assert ((chain ((s, m) :: ps) (mret a) w).1
            = match (m (enter s w)).1 with
              | Ok _ => (chain ps (mret a) (m (enter s w)).2).1
              | Raise x => Raise x
              | Blocked => Blocked
              end) as Hres.
    { rewrite chain_cons. by destruct ((m (enter s w)).1). }
    apply Forall_cons in Hps as [Hstep Hps].
    apply app_split_at in Heq as [(post1 & Hm & ->)|(pre2 & -> & Hrest)].
    + exists [], s, m, ps, [], w, pre, post1.
      split_and!; try done. constructor.
    + destruct ((m (enter s w)).1) as [[]|x|] eqn:Hr;
        [|by destruct pre2..].
      destruct (IH Hps _ _ _ _ Hrest)
        as (ps1 & s' & m' & ps2 & evs1 & w1 & pre3 & post2
            & -> & Hc & -> & Hm' & -> & Hres').
      exists ((s, m) :: ps1), s', m', ps2,
        (events_of m (enter s w) ++ evs1), w1, pre3, post2.
      split_and!; try done.
      * by constructor.
      * by rewrite app_assoc.
      * by rewrite Hres.
Qed.

(** ** [run] as a chain *)

Lemma bind_ext {A B} (m : M A) (k k' : A -> M B) w :
  (forall a w', k a w' = k' a w') -> (m ≫= k) w = (m ≫= k') w.
Proof.
  intros H. rewrite !bind_unfold. destruct (m w) as [[a|x|] w1]; auto.
Qed.

Lemma bind_assoc {A B C} (m : M A) (f : A -> M B) (g : B -> M C) w :
  ((m ≫= f) ≫= g) w = (m ≫= (fun a => f a ≫= g)) w.
Proof.
  rewrite !bind_unfold. by destruct (m w) as [[a|x|] w1].
Qed.

Lemma run_unfold w :
  run os libc config self w =
  if negb (os_pid os (w_trace w) =? 1) then
    (Raise (ValueError "We are not actually PID1, exiting for safety reasons"),
     identified w)
  else chain (steps_of_run os libc config self) (mret 0) (identified w).
Proof.
  unfold run. rewrite bind_unfold.
  change (within at_getpid (non_caching_getpid os) w)
    with (Ok (os_pid os (w_trace w)), identified w).
  cbv iota beta. destruct (negb _); [done|].
  unfold steps_of_run, chain.
  do 10 (apply bind_ext; intros [] ?).
  change (within at_write (os_write os (control_write self) "RDY";;
                           log DEBUG "Container started"))
    with (within at_write (os_write os (control_write self) "RDY");;
          log DEBUG "Container started").
  rewrite bind_assoc. apply bind_ext; intros ? ?.
  apply bind_ext; intros [] ?.
  change (within at_read (os_read os (control_read self) 1;;
                          log DEBUG "Control pipe closed, stopping"))
    with (within at_read (os_read os (control_read self) 1);;
          log DEBUG "Control pipe closed, stopping").
  rewrite bind_assoc. done.
Qed.

(** The events of a run: the look at the process id, then, when it is 1,
    those of the chain of statements. *)
Lemma run_events w :
  (os_pid os (w_trace w) <> 1
   /\ events_of (run os libc config self) w = [getpid_event w]
   /\ (run os libc config self w).1
      = Raise (ValueError "We are not actually PID1, exiting for safety reasons"))
  \/ (os_pid os (w_trace w) = 1
      /\ events_of (run os libc config self) w
         = getpid_event w
           :: events_of (chain (steps_of_run os libc config self) (mret 0))
                        (identified w)
      /\ (run os libc config self w).1
         = (chain (steps_of_run os libc config self) (mret 0) (identified w)).1).
Proof.
  destruct (decide (os_pid os (w_trace w) = 1)) as [Hpid|Hpid].
  - right. split; [done|]. split.
    + apply events_of_appends. rewrite run_unfold, Hpid. simpl negb. cbv iota.
      rewrite (chain_appends _ 0 steps_of_run_ok). simpl.
      by rewrite <- app_assoc.
    + by rewrite run_unfold, Hpid.
  - left. split; [done|].
    assert (negb (os_pid os (w_trace w) =? 1) = true) as Hb.
    { apply negb_true_iff, Z.eqb_neq. done. }
    split.
    + apply events_of_appends. by rewrite run_unfold, Hb.
    + by rewrite run_unfold, Hb.
Qed.

(** ** The order of the statements *)

Lemma steps_ranked :
  StronglySorted (fun p q => (stage_rank p.1 < stage_rank q.1)%nat)
                 (steps_of_run os libc config self).
Proof.
  unfold steps_of_run.
  repeat (apply SSorted_cons;
          [|repeat (apply Forall_cons; split; [simpl; lia|]);
            by constructor]).
  apply SSorted_nil.
Qed.

Lemma steps_all_stages s :
  (0 < stage_rank s)%nat ->
  exists m, (s, m) ∈ steps_of_run os libc config self.
Proof.
  intros Hs. unfold steps_of_run.
  destruct s; simpl in Hs; try lia; eexists; in_list.
Qed.

(** Around a step of [run]: the steps before have a smaller rank and
    include every stage of a smaller rank, the steps after a larger one. *)
Lemma steps_split ps1 s m ps2 :
  steps_of_run os libc config self = ps1 ++ (s, m) :: ps2 ->
  steps_ok ps1 /\ step_ok s m /\ steps_ok ps2
  /\ (forall p, p ∈ ps1 -> (stage_rank p.1 < stage_rank s)%nat)
  /\ (forall p, p ∈ ps2 -> (stage_rank s < stage_rank p.1)%nat)
  /\ (forall s', (0 < stage_rank s' < stage_rank s)%nat ->
        exists m', (s', m') ∈ ps1)
  /\ (0 < stage_rank s)%nat.
Proof.
  intros Heq. pose proof steps_of_run_ok as Hok. pose proof steps_ranked as Hr.
  rewrite Heq in Hok, Hr. apply Forall_app in Hok as [Hok1 Hok2].
  apply Forall_cons in Hok2 as [Hs Hok2].
  assert (forall p, p ∈ ps1 -> (stage_rank p.1 < stage_rank s)%nat) as H1.
  { intros p Hp.
    apply (StronglySorted_app_1_elem_of _ _ _ p (s, m) Hr); [done|by left]. }
  assert (forall p, p ∈ ps2 -> (stage_rank s < stage_rank p.1)%nat) as H2.
  { intros p Hp. apply StronglySorted_app_1_r in Hr.
    apply StronglySorted_inv in Hr as [_ Hall].
    rewrite Forall_forall in Hall. by apply (Hall p). }
  split_and!; try done.
  - intros s' [Hpos Hlt]. destruct (steps_all_stages s' Hpos) as [m' Hin].
    rewrite Heq in Hin. exists m'.
    apply elem_of_app in Hin as [Hin|Hin]; [done|].
    apply elem_of_cons in Hin as [Hin|Hin].
    + inversion Hin; subst. lia.
    + specialize (H2 _ Hin). simpl in H2. lia.
  - assert ((s, m) ∈ steps_of_run os libc config self) as Hin.
    { rewrite Heq. apply elem_of_app. right. by left. }
    unfold steps_of_run in Hin.
    repeat (apply elem_of_cons in Hin as [Hin|Hin];
            [inversion Hin; simpl; lia|]).
    by apply elem_of_nil in Hin.
Qed.

Lemma from_steps_rank_lt ps s e :
  (forall p, p ∈ ps -> (stage_rank p.1 < stage_rank s)%nat) ->
  from_steps ps e -> (stage_rank (ev_stage e) < stage_rank s)%nat.
Proof. intros H (p & Hp & -> & _). by apply H. Qed.

Lemma from_steps_rank_gt ps s e :
  (forall p, p ∈ ps -> (stage_rank s < stage_rank p.1)%nat) ->
  from_steps ps e -> (stage_rank s < stage_rank (ev_stage e))%nat.
Proof. intros H (p & Hp & -> & _). by apply H. Qed.

Lemma from_steps_call ps e :
  from_steps ps e -> stage_call (ev_stage e) (ev_call e).
Proof. intros (p & Hp & -> & ?). done. Qed.

Ltac stage_cases H :=
  simpl in H;
  unfold root_mount_calls, remount_call, marker_call, wait_call, mknod_call,
    chmod_call, mount_call, ns_warning, tmpfiles_warning in H;
  repeat match type of H with
         | _ \/ _ => destruct H as [H|H]
         | exists _, _ => destruct H as [? H]
         | _ /\ _ => destruct H as [_ H]
         | _ ∈ _ :: _ => apply elem_of_cons in H as [H|H]
         | _ ∈ [] => by apply elem_of_nil in H
         end;
  try (subst; discriminate); try (rewrite H in *; discriminate).

(** Which stage a call belongs to. *)
Lemma stage_call_write s e :
  stage_call s (ev_call e) -> is_write e = true ->
  s = at_write /\ ev_call e = marker_call self.
Proof.
  unfold is_write. intros H Hw.
  destruct s;
    try solve [exfalso; stage_cases H; rewrite H in Hw; discriminate].
  split; [done|]. simpl in H. destruct H as [H|H]; [done|].
  rewrite H in Hw. discriminate.
Qed.

Lemma stage_call_check_output s argv :
  stage_call s (c_check_output argv) -> s = at_create_tmpfs_dirs.
Proof. intros H. destruct s; try done; exfalso; stage_cases H. Qed.

Lemma stage_call_read s fd n :
  stage_call s (c_read fd n) -> s = at_read.
Proof. intros H. destruct s; try done; exfalso; stage_cases H. Qed.

Lemma stage_call_mknod s path mode device :
  stage_call s (c_mknod path mode device) ->
  s = at_create_default_dev_nodes \/ s = at_create_loop_devices.
Proof. intros H. destruct s; eauto; exfalso; stage_cases H. Qed.

Lemma stage_call_umount2 s path flags :
  stage_call s (c_umount2 path flags) -> s = at_umount_old_root.
Proof. intros H. destruct s; try done; exfalso; stage_cases H. Qed.

Lemma stage_call_mount s source target fstype flags data :
  stage_call s (c_mount source target fstype flags data) ->
  (s = at_setup_root_mount
   /\ c_mount source target fstype flags data = remount_call libc)
  \/ s = at_mount_defaults.
Proof.
  intros H. destruct s; eauto; try solve [exfalso; stage_cases H].
  left. split; [done|]. simpl in H. unfold root_mount_calls in H.
  repeat (apply elem_of_cons in H as [H|H]; [done || discriminate|]).
  by apply elem_of_nil in H.
Qed.

Lemma stage_call_pivot_root s new_root put_old :
  stage_call s (c_pivot_root new_root put_old) -> s = at_setup_root_mount.
Proof. intros H. destruct s; try done; exfalso; stage_cases H. Qed.

(** ** Where an event of a run comes from *)

Lemma step_of_stage s m :
  (s, m) ∈ steps_of_run os libc config self ->
  match s with
  | at_create_namespaces => m = create_namespaces os libc config self
  | at_setup_root_mount => m = setup_root_mount os libc self
  | at_create_tmpfs_dirs => m = create_tmpfs_dirs os config
  | at_umount_old_root => m = umount_old_root os libc
  | at_write => m = write_step
  | at_read => m = read_step
  | _ => True
  end.
Proof.
  unfold steps_of_run. intros Hin.
  repeat (apply elem_of_cons in Hin as [Hin|Hin]; [by inversion Hin|]).
  by apply elem_of_nil in Hin.
Qed.

Lemma run_locate w pre e post :
  events_of (run os libc config self) w = pre ++ e :: post ->
  (pre = [] /\ e = getpid_event w)
  \/ (os_pid os (w_trace w) = 1
      /\ exists ps1 s m ps2 evs1 w1 pre2 post2,
        steps_of_run os libc config self = ps1 ++ (s, m) :: ps2
        /\ completed ps1 (identified w) evs1 w1
        /\ pre = getpid_event w :: evs1 ++ pre2
        /\ events_of m (enter s w1) = pre2 ++ e :: post2
        /\ post = post2 ++ match (m (enter s w1)).1 with
                           | Ok _ => events_of (chain ps2 (mret 0))
                                               (m (enter s w1)).2
                           | _ => []
                           end
        /\ (run os libc config self w).1
           = match (m (enter s w1)).1 with
             | Ok _ => (chain ps2 (mret 0) (m (enter s w1)).2).1
             | Raise x => Raise x
             | Blocked => Blocked
             end
        /\ w_trace (enter s w1) = w_trace w ++ getpid_event w :: evs1
        /\ ev_stage e = s /\ stage_call s (ev_call e)).
Proof.
  intros Heq. destruct (run_events w) as [(Hpid & Hevs & Hres)|(Hpid & Hevs & Hres)];
    rewrite Hevs in Heq.
  - left. destruct pre as [|? [|]]; by simplify_eq/=.
  - destruct pre as [|g pre]; simplify_eq/=; [by left|]. right.
    split; [done|].
    destruct (chain_locate _ 0 steps_of_run_ok _ _ _ _ H0)
      as (ps1 & s & m & ps2 & evs1 & w1 & pre2 & post2
          & Hps & Hc & -> & Hm & -> & Hres').
    destruct (steps_split _ _ _ _ Hps) as (Hok1 & [Hem _] & _).
    destruct (completed_facts _ _ _ _ Hok1 Hc) as (Htr & _).
    destruct (enter_step s m w1 Hem) as (_ & _ & Hall & _).
    rewrite Hm in Hall. apply Forall_app in Hall as [_ Hall].
    apply Forall_cons in Hall as [[Hst Hcall] _].
    exists ps1, s, m, ps2, evs1, w1, pre2, post2.
    split_and!; try done.
    + by rewrite Hres.
    + rewrite Htr. simpl. by rewrite <- app_assoc.
Qed.

Lemma getpid_event_facts w :
  ev_stage (getpid_event w) = at_getpid
  /\ ev_call (getpid_event w) = c_getpid
  /\ ev_ok (getpid_event w) = true.
Proof. done. Qed.

(** ** The identity check (C7) *)

(** C7. When the process id is not 1, [run] raises ValueError at the
    identity check: the look at the process id is the only thing it has
    done, so no session start, no signal disposition, no namespace and no
    mount operation was attempted. *)
Theorem run_refuses_without_pid1 w :
  os_pid os (w_trace w) <> 1 ->
  (run os libc config self w).1
  = Raise (ValueError "We are not actually PID1, exiting for safety reasons")
  /\ events_of (run os libc config self) w
     = [Ev at_getpid c_getpid (returned (v_int (os_pid os (w_trace w))))].
Proof.
  intros Hpid. destruct (run_events w) as [(_ & Hevs & Hres)|(Hpid' & _)]; done.
Qed.

(** ** The wait for shutdown (C9) *)

(** C9. A read in a run is the one-byte read on the control channel, at
    the last statement; as soon as it returns, whatever it returns (the
    empty string at end of stream included), [run] returns 0; and [run]
    returns nothing but 0, and only after that read has returned. *)
Theorem run_returns_zero_after_read w :
  (forall e, e ∈ events_of (run os libc config self) w -> is_read e = true ->
     ev_stage e = at_read /\ ev_call e = wait_call self
     /\ (ev_ok e = true -> (run os libc config self w).1 = Ok 0))
  /\ (forall v, (run os libc config self w).1 = Ok v ->
        v = 0 /\ exists data,
          Ev at_read (wait_call self) (returned (v_bytes data))
          ∈ events_of (run os libc config self) w).
Proof.
  split.
  - intros e He Hread. apply list_elem_of_split in He as (pre & post & Heq).
    destruct (run_locate w pre e post Heq) as [[_ ->]|(Hpid & Hloc)]; [done|].
    destruct Hloc as (ps1 & s & m & ps2 & evs1 & w1 & pre2 & post2
                      & Hps & Hc & -> & Hm & -> & Hres & Htr & Hst & Hcall).
    unfold is_read in Hread.
    destruct (ev_call e) as [| | | | | | | | | | | | | | | | |fd n|] eqn:Hce;
      try done.
    apply stage_call_read in Hcall as Hs. rewrite Hs in *. clear Hs s.
    assert ((at_read, m) ∈ steps_of_run os libc config self) as Hin.
    { rewrite Hps. apply elem_of_app. right. by left. }
    apply step_of_stage in Hin. subst m.
    destruct (steps_split _ _ _ _ Hps) as (_ & _ & _ & _ & Hgt & _).
    assert (ps2 = []) as ->.
    { destruct ps2 as [|p ps2]; [done|].
      specialize (Hgt p ltac:(by left)). destruct p as [[] ?]; simpl in Hgt; lia. }
    destruct (read_step_events (enter at_read w1)) as (o & Hevs & Ho).
    rewrite Hevs in Hm. simpl in Hcall.
    destruct pre2 as [|? pre2]; simplify_eq/=.
    + split_and!; try done. intros Hok. rewrite Hres.
      unfold ev_ok in Hok. simpl in Hok.
      destruct ((read_step (enter at_read w1)).1); [done|by subst o..].
    + exfalso. destruct o; simplify_eq/=;
        repeat (destruct pre2 as [|? pre2]; simplify_eq/=).
  - intros v Hok. destruct (run_events w) as [(_ & _ & Hres)|(Hpid & Hevs & Hres)].
    { rewrite Hres in Hok. done. }
    rewrite Hres in Hok. apply (chain_Ok _ 0 steps_of_run_ok) in Hok as [-> Hc].
    split; [done|].
    destruct (completed_facts _ _ _ _ steps_of_run_ok Hc) as (_ & _ & _ & Hdone).
    destruct (Hdone (at_read, read_step)) as [data Hd].
    { unfold steps_of_run. in_list. }
    exists data. rewrite Hevs. by right.
Qed.

(** ** The readiness marker (C2) *)

Lemma not_write_from_steps ps e :
  (forall p, p ∈ ps -> p.1 <> at_write) ->
  from_steps ps e -> is_write e = false.
Proof.
  intros Hps (p & Hp & Hst & Hcall).
  destruct (is_write e) eqn:Hw; [|done].
  destruct (stage_call_write _ _ Hcall Hw) as [Hs _].
  by destruct (Hps p Hp).
Qed.

Lemma not_write_by_rank (ps : list (Stage * M unit)) :
  (forall p, p ∈ ps -> stage_rank p.1 <> stage_rank at_write) ->
  forall p, p ∈ ps -> p.1 <> at_write.
Proof. intros H p Hp Heq. apply (H p Hp). by rewrite Heq. Qed.

(** As long as no call of a statement before [s] has failed, a chain has
    gone through every step before [s] and is at [s]. *)
Lemma chain_reaches {A} ps1 s m ps2 (a : A) :
  steps_ok (ps1 ++ (s, m) :: ps2) ->
  (forall p, p ∈ ps1 -> (stage_rank p.1 < stage_rank s)%nat) ->
  forall w,
    Forall (fun e => (stage_rank (ev_stage e) < stage_rank s)%nat ->
                     ev_ok e = true)
           (events_of (chain (ps1 ++ (s, m) :: ps2) (mret a)) w) ->
    exists evs1 w1,
      completed ps1 w evs1 w1
      /\ events_of (chain (ps1 ++ (s, m) :: ps2) (mret a)) w
         = evs1 ++ events_of (chain ((s, m) :: ps2) (mret a)) w1
      /\ (chain (ps1 ++ (s, m) :: ps2) (mret a) w).1
         = (chain ((s, m) :: ps2) (mret a) w1).1.
Proof.
  induction ps1 as [|[s0 m0] ps1 IH]; intros Hps Hlt w Hall.
  - exists [], w. split; [constructor|done].
  - change (((s0, m0) :: ps1) ++ (s, m) :: ps2)
      with ((s0, m0) :: (ps1 ++ (s, m) :: ps2)) in *.
    rewrite chain_events in Hall |- * by done. rewrite chain_cons.
    apply Forall_cons in Hps as [[Hm0 _] Hps]. simpl in Hm0.
    destruct (enter_step s0 m0 w Hm0) as (fs & _ & Hst & Hd).
    assert (stage_rank s0 < stage_rank s)%nat as Hs0.
    { apply (Hlt (s0, m0)). by left. }
    apply Forall_app in Hall as [Hall0 Hall].
    destruct ((m0 (enter s0 w)).1) as [[]|x|] eqn:Hr.
    + destruct (IH Hps) with (w := (m0 (enter s0 w)).2)
        as (evs1 & w1 & Hc & Hevs & Hres); [|done|].
      { intros p Hp. apply Hlt. by right. }
      exists (events_of m0 (enter s0 w) ++ evs1), w1. split_and!.
      * by constructor.
      * by rewrite Hevs, app_assoc.
      * done.
    + exfalso. simpl in Hd. destruct Hd as (pre & s' & c & Heq & _).
      rewrite Heq in Hall0, Hst.
      apply Forall_app in Hall0 as [_ Hall0], Hst as [_ Hst].
      apply Forall_cons in Hall0 as [Hok _], Hst as [[Hs' _] _].
      simpl in Hs'. subst s'. by specialize (Hok Hs0).
    + exfalso. simpl in Hd. destruct Hd as (pre & s' & c & Heq & _).
      rewrite Heq in Hall0, Hst.
      apply Forall_app in Hall0 as [_ Hall0], Hst as [_ Hst].
      apply Forall_cons in Hall0 as [Hok _], Hst as [[Hs' _] _].
      simpl in Hs'. subst s'. by specialize (Hok Hs0).
Qed.

(** C2. The readiness marker is the three bytes "RDY" written to the
    control channel's write end. It is written at most once; when it is
    written, every statement before it has gone through (process id 1,
    session, signal disposition, namespaces, pivot, mounts, device nodes,
    loop devices, tmpfs population, old-root detach, hostname) and no call
    before it failed; a run that returns has written it; and a run in which
    a statement before it fails, or whose process id is not 1, never
    writes it. And it is written whenever the setup went through, whatever
    becomes of the run afterwards: with process id 1 and no failed call of
    a statement before it, the events hold the write, which returned 3
    unless the system refused it, in which case the run ends there with
    that error. *)
Theorem readiness_marker_once_after_setup w :
  (forall pre e post,
     events_of (run os libc config self) w = pre ++ e :: post ->
     is_write e = true ->
     ev_stage e = at_write
     /\ ev_call e = c_write (control_write self) "RDY"
     /\ Forall (fun x => is_write x = false) pre
     /\ Forall (fun x => is_write x = false) post
     /\ setup_done libc config self pre)
  /\ (forall v, (run os libc config self w).1 = Ok v ->
        Ev at_write (c_write (control_write self) "RDY") (returned (v_int 3))
        ∈ events_of (run os libc config self) w)
  /\ (forall e, e ∈ events_of (run os libc config self) w ->
        ev_ok e = false ->
        (stage_rank (ev_stage e) < stage_rank at_write)%nat ->
        Forall (fun x => is_write x = false)
               (events_of (run os libc config self) w))
  /\ (os_pid os (w_trace w) <> 1 ->
        Forall (fun x => is_write x = false)
               (events_of (run os libc config self) w))
  /\ (os_pid os (w_trace w) = 1 ->
      Forall (fun x => (stage_rank (ev_stage x) < stage_rank at_write)%nat ->
                       ev_ok x = true)
             (events_of (run os libc config self) w) ->
      exists pre o post,
        events_of (run os libc config self) w
        = pre ++ Ev at_write (c_write (control_write self) "RDY") o :: post
        /\ match o with
           | returned v => v = v_int 3
           | raised x =>
               post = [] /\ (run os libc config self w).1 = Raise x
           | pending => False
           end).
Proof.
  split_and!.
  - intros pre e post Heq Hw.
    destruct (run_locate w pre e post Heq) as [[_ ->]|(Hpid & Hloc)]; [done|].
    destruct Hloc as (ps1 & s & m & ps2 & evs1 & w1 & pre2 & post2
                      & Hps & Hc & -> & Hm & -> & Hres & Htr & Hst & Hcall).
    destruct (stage_call_write _ _ Hcall Hw) as [Hs Hce].
    rewrite Hs in *. clear Hs s.
    assert ((at_write, m) ∈ steps_of_run os libc config self) as Hin.
    { rewrite Hps. apply elem_of_app. right. by left. }
    apply step_of_stage in Hin. subst m.
    destruct (steps_split _ _ _ _ Hps)
      as (Hok1 & _ & Hok2 & Hlt & Hgt & Hall & _).
    destruct (completed_facts _ _ _ _ Hok1 Hc) as (_ & Hokev & Hfrom & Hdone).
    destruct (write_step_events (enter at_write w1)) as (o & Hevs & Ho).
    rewrite Hevs in Hm.
    assert (pre2 = []) as ->.
    { destruct pre2 as [|? pre2]; [done|]. exfalso.
      destruct o; simplify_eq/=;
        repeat (destruct pre2 as [|? pre2]; simplify_eq/=). }
    simpl in Hm. injection Hm as He Hpost2. rewrite app_nil_r.
    assert (Forall (fun x => is_write x = false) evs1) as Hnw1.
    { eapply Forall_impl; [exact Hfrom|]. intros x Hx.
      apply (not_write_from_steps ps1); [|done].
      apply not_write_by_rank. intros p Hp. specialize (Hlt p Hp). lia. }
    split_and!; try done.
    + by constructor.
    + apply Forall_app. split.
      * rewrite <- Hpost2. destruct o; repeat constructor.
      * destruct ((write_step (enter at_write w1)).1); [|constructor..].
        eapply Forall_impl; [apply (chain_from_steps _ 0 Hok2)|].
        intros x Hx. apply (not_write_from_steps ps2); [|done].
        apply not_write_by_rank. intros p Hp. specialize (Hgt p Hp). lia.
    + split; [by constructor|]. intros s Hs.
      destruct (decide (s = at_getpid)) as [->|Hne].
      * simpl. unfold getpid_event. rewrite Hpid. by left.
      * destruct (Hall s) as [m' Hm'].
        { split; [destruct s; simpl; try lia; done|done]. }
        specialize (Hdone _ Hm'). revert Hdone. apply stage_done_mono.
        intros x Hx. by right.
  - intros v Hok.
    destruct (run_events w) as [(_ & _ & Hres)|(Hpid & Hevs & Hres)].
    { rewrite Hres in Hok. done. }
    rewrite Hres in Hok. apply (chain_Ok _ 0 steps_of_run_ok) in Hok as [-> Hc].
    destruct (completed_facts _ _ _ _ steps_of_run_ok Hc) as (_ & _ & _ & Hdone).
    specialize (Hdone (at_write, write_step)). rewrite Hevs. right.
    apply Hdone. unfold steps_of_run. in_list.
  - intros e He Hfail Hrank.
    apply list_elem_of_split in He as (pre & post & Heq). rewrite Heq.
    destruct (run_locate w pre e post Heq) as [[_ ->]|(Hpid & Hloc)]; [done|].
    destruct Hloc as (ps1 & s & m & ps2 & evs1 & w1 & pre2 & post2
                      & Hps & Hc & -> & Hm & -> & Hres & Htr & Hst & Hcall).
    destruct (steps_split _ _ _ _ Hps)
      as (Hok1 & [Hem _] & Hok2 & Hlt & Hgt & Hall & _).
    destruct (completed_facts _ _ _ _ Hok1 Hc) as (_ & Hokev & Hfrom & Hdone).
    destruct (enter_step s m w1 Hem) as (_ & _ & Hall1 & Hd).
    rewrite Hst in Hrank.
    assert (match (m (enter s w1)).1 with Ok _ => False | _ => True end) as Hnok.
    { destruct ((m (enter s w1)).1); [|done..]. simpl in Hd.
      rewrite Hm in Hd. apply Forall_app in Hd as [_ Hd].
      apply Forall_cons in Hd as [Hd _]. congruence. }
    assert (Forall (fun x => is_write x = false) (pre2 ++ e :: post2)) as Hnw.
    { rewrite <- Hm. eapply Forall_impl; [exact Hall1|]. intros x [Hxs Hxc].
      destruct (is_write x) eqn:Hw; [|done]. rewrite <- Hxs in Hxc.
      destruct (stage_call_write _ _ Hxc Hw) as [Hs' _].
      rewrite Hxs in Hs'. rewrite Hs' in Hrank. simpl in Hrank. lia. }
    apply Forall_app in Hnw as [Hnw1 Hnw2].
    apply Forall_cons in Hnw2 as [Hnwe Hnw2].
    apply Forall_app. split.
    + constructor; [done|]. apply Forall_app. split; [|done].
      eapply Forall_impl; [exact Hfrom|]. intros x Hx.
      apply (not_write_from_steps ps1); [|done].
      apply not_write_by_rank. intros p Hp. specialize (Hlt p Hp). lia.
    + constructor; [done|]. apply Forall_app. split; [done|].
      destruct ((m (enter s w1)).1); [done|constructor..].
  - intros Hpid.
    destruct (run_events w) as [(_ & -> & _)|(Hpid' & _)]; [|done].
    by repeat constructor.
  - intros Hpid Hall.
    destruct (run_events w) as [(Hpid' & _)|(_ & Hevs & Hres)]; [done|].
    rewrite Hevs in Hall |- *. rewrite Hres.
    apply Forall_cons in Hall as [_ Hall].
    assert (exists ps1,
              steps_of_run os libc config self
              = ps1 ++ (at_write, write_step)
                    :: [(at_read, read_step)]) as [ps1 Hps].
    { eexists (_ :: _ :: _ :: _ :: _ :: _ :: _ :: _ :: _ :: [_]).
      reflexivity. }
    destruct (steps_split _ _ _ _ Hps) as (_ & _ & _ & Hlt & _).
    pose proof steps_of_run_ok as Hok. rewrite Hps in Hok, Hall |- *.
    destruct (chain_reaches ps1 at_write write_step _ 0 Hok Hlt _ Hall)
      as (evs1 & w1 & _ & Hev1 & Hres1).
    rewrite Hev1, Hres1.
    apply Forall_app in Hok as [_ Hok2].
    rewrite chain_events, chain_cons by done.
    destruct (write_step_events (enter at_write w1)) as (o & Hw & Ho).
    rewrite Hw. simpl w_stage.
    exists (getpid_event w :: evs1), o. eexists. split.
    { cbn [app]. reflexivity. }
    destruct ((write_step (enter at_write w1)).1) as [[]|x|]; [| |done].
    + subst o. done.
    + subst o. simpl. done.
Qed.

(** ** The root pivot (C3) *)

(** In a computation that stopped at a failing call, that call is the last
    event. *)
Lemma disc_failed {A} (r : Result A) pre e post :
  disc r (pre ++ e :: post) ->
  Forall (fun x => ev_ok x = true) pre
  /\ (ev_ok e = false ->
      post = []
      /\ match r with
         | Ok _ => False
         | Raise x => ev_outcome e = raised x
         | Blocked => ev_outcome e = pending
         end).
Proof.
  assert (forall pre' l, pre' ++ [l] = pre ++ e :: post ->
            Forall (fun x => ev_ok x = true) pre' ->
            Forall (fun x => ev_ok x = true) pre
            /\ (ev_ok e = false -> post = [] /\ l = e)) as Hlast.
  { intros pre' l Heq Hok. apply app_split_at in Heq as Hcases.
    destruct Hcases as [(post1 & -> & ->)|(pre2 & -> & Hl)].
    - apply Forall_app in Hok as [Hpre Hok].
      apply Forall_cons in Hok as [He _]. split; [done|]. congruence.
    - destruct pre2 as [|? [|]]; simplify_eq/=.
      rewrite app_nil_r. done. }
  destruct r as [a|x|]; simpl.
  - intros Hall. apply Forall_app in Hall as [Hpre Hall].
    apply Forall_cons in Hall as [He _]. split; [done|]. congruence.
  - intros (pre' & s & c & Heq & Hok).
    destruct (Hlast pre' _ (eq_sym Heq) Hok) as [Hpre Hfail].
    split; [done|]. intros Hf. destruct (Hfail Hf) as [-> <-]. done.
  - intros (pre' & s & c & Heq & Hok).
    destruct (Hlast pre' _ (eq_sym Heq) Hok) as [Hpre Hfail].
    split; [done|]. intros Hf. destruct (Hfail Hf) as [-> <-]. done.
Qed.

(** An event of a statement up to the pivot creates no device node,
    detaches nothing, and mounts nothing but the remount of the root. *)
Lemma early_event e :
  stage_call (ev_stage e) (ev_call e) ->
  (stage_rank (ev_stage e) <= stage_rank at_setup_root_mount)%nat ->
  is_mknod e = false /\ is_umount2 e = false
  /\ (is_mount e = true ->
      ev_stage e = at_setup_root_mount /\ ev_call e = remount_call libc).
Proof.
  intros Hcall Hrank. unfold is_mknod, is_umount2, is_mount.
  destruct (ev_call e) eqn:Hc; split_and!; try done.
  - intros _. apply stage_call_mount in Hcall as [[? ?]|Hs]; [done|].
    rewrite Hs in Hrank. simpl in Hrank. lia.
  - exfalso. apply stage_call_mknod in Hcall as [Hs|Hs];
      rewrite Hs in Hrank; simpl in Hrank; lia.
  - exfalso. apply stage_call_umount2 in Hcall as Hs.
    rewrite Hs in Hrank; simpl in Hrank; lia.
Qed.

(** C3. Take any event of [setup_root_mount] in a run (the remount of the
    root, the pivot itself, ...). Before it: [create_namespaces] has gone
    through (its unshare returned), every call returned, and nothing of a
    later statement happened: no mount other than the remount of the root,
    no device node, no detach of the old root. After it: nothing of the
    namespace step or of an earlier statement. Each event carries a call of
    the statement it belongs to, and the pivot comes after the remount.
    And the pivot is performed before anything of a later statement: an
    event of a later statement, and so every mount of a table entry, every
    creation of a device node and the detach of the old root, comes after
    the unshare, the remount of the root and the pivot have returned. A run
    that returns has pivoted. *)
Theorem root_pivot_after_namespaces_before_mounts w :
  (forall pre e post,
     events_of (run os libc config self) w = pre ++ e :: post ->
     ev_stage e = at_setup_root_mount ->
     (exists flags,
        Ev at_create_namespaces (c_unshare flags) (returned v_none) ∈ pre)
     /\ Forall (fun x =>
          ev_ok x = true
          /\ (stage_rank (ev_stage x) <= stage_rank at_setup_root_mount)%nat
          /\ is_mknod x = false /\ is_umount2 x = false
          /\ (is_mount x = true ->
              ev_stage x = at_setup_root_mount
              /\ ev_call x = remount_call libc)) pre
     /\ Forall (fun x =>
          (stage_rank at_setup_root_mount <= stage_rank (ev_stage x))%nat) post
     /\ Forall (fun x => stage_call (ev_stage x) (ev_call x)) (pre ++ e :: post)
     /\ (ev_call e = c_pivot_root "." "old_root" ->
         Ev at_setup_root_mount (remount_call libc) (returned v_none) ∈ pre))
  /\ (forall pre e post,
        events_of (run os libc config self) w = pre ++ e :: post ->
        (stage_rank at_setup_root_mount < stage_rank (ev_stage e))%nat
        \/ is_mknod e = true
        \/ is_umount2 e = true
        \/ (is_mount e = true /\ ev_call e <> remount_call libc) ->
        (exists flags,
           Ev at_create_namespaces (c_unshare flags) (returned v_none) ∈ pre)
        /\ Ev at_setup_root_mount (remount_call libc) (returned v_none) ∈ pre
        /\ Ev at_setup_root_mount (c_pivot_root "." "old_root")
              (returned v_none) ∈ pre
        /\ forall c, c ∈ root_mount_calls libc self ->
             Ev at_setup_root_mount c (returned v_none) ∈ pre)
  /\ (forall v, (run os libc config self w).1 = Ok v ->
        Ev at_setup_root_mount (c_pivot_root "." "old_root") (returned v_none)
        ∈ events_of (run os libc config self) w).
Proof.
  split_and!.
  { intros pre e post Heq Hstage.
      destruct (run_locate w pre e post Heq) as [[_ ->]|(Hpid & Hloc)]; [done|].
      destruct Hloc as (ps1 & s & m & ps2 & evs1 & w1 & pre2 & post2
                        & Hps & Hc & -> & Hm & -> & Hres & Htr & Hst & Hcall).
      rewrite Hstage in Hst. rewrite <- Hst in *. clear Hst s.
      assert ((at_setup_root_mount, m) ∈ steps_of_run os libc config self) as Hin.
      { rewrite Hps. apply elem_of_app. right. by left. }
      apply step_of_stage in Hin. subst m.
      destruct (steps_split _ _ _ _ Hps)
        as (Hok1 & [Hem _] & Hok2 & Hlt & Hgt & Hall & _).
      destruct (completed_facts _ _ _ _ Hok1 Hc) as (_ & Hokev & Hfrom & Hdone).
      destruct (enter_step _ _ w1 Hem) as (_ & _ & Hall1 & Hd).
      rewrite Hm in Hall1, Hd. apply disc_failed in Hd as [Hokpre2 _].
      apply Forall_app in Hall1 as [Hpre2 Hpost2].
      apply Forall_cons in Hpost2 as [_ Hpost2].
      assert (Forall (fun x => stage_call (ev_stage x) (ev_call x))
                     (getpid_event w :: evs1 ++ pre2)) as Hcalls.
      { constructor; [done|]. apply Forall_app. split.
        - eapply Forall_impl; [exact Hfrom|]. apply from_steps_call.
        - eapply Forall_impl; [exact Hpre2|]. intros x [-> ?]. done. }
      assert (Forall (fun x =>
                (stage_rank (ev_stage x) <= stage_rank at_setup_root_mount)%nat)
                (getpid_event w :: evs1 ++ pre2)) as Hranks.
      { constructor; [simpl; lia|]. apply Forall_app. split.
        - eapply Forall_impl; [exact Hfrom|]. intros x Hx.
          apply (from_steps_rank_lt _ _ _ Hlt) in Hx. lia.
        - eapply Forall_impl; [exact Hpre2|]. intros x [-> ?]. done. }
      assert (Forall (fun x => ev_ok x = true) (getpid_event w :: evs1 ++ pre2))
        as Hoks.
      { constructor; [done|]. by apply Forall_app. }
      split_and!.
      - destruct (Hall at_create_namespaces) as [m' Hm']; [simpl; lia|].
        destruct (Hdone _ Hm') as [flags Hflags]. exists flags.
        right. apply elem_of_app. by left.
      - rewrite Forall_forall in Hcalls, Hranks, Hoks. apply Forall_forall.
        intros x Hx. split; [by apply Hoks|]. split; [by apply Hranks|].
        apply early_event; [by apply Hcalls|by apply Hranks].
      - apply Forall_app. split.
        + eapply Forall_impl; [exact Hpost2|]. intros x [-> ?]. done.
        + destruct ((setup_root_mount os libc self _).1); [|constructor..].
          eapply Forall_impl; [apply (chain_from_steps _ 0 Hok2)|].
          intros x Hx. apply (from_steps_rank_gt _ _ _ Hgt) in Hx. lia.
      - apply Forall_app. split; [done|]. constructor; [by rewrite Hstage|].
        apply Forall_app. split.
        + eapply Forall_impl; [exact Hpost2|]. intros x [-> ?]. done.
        + destruct ((setup_root_mount os libc self _).1); [|constructor..].
          eapply Forall_impl; [apply (chain_from_steps _ 0 Hok2)|].
          apply from_steps_call.
      - intros Hpivot. right. apply elem_of_app. right.
        apply (setup_root_mount_order _ _ _ _ Hm Hpivot). }
  - intros pre e post Heq Hlater.
    destruct (run_locate w pre e post Heq) as [[_ ->]|(Hpid & Hloc)].
    { exfalso. destruct Hlater as [H|[H|[H|[H _]]]];
        [simpl in H; lia|done..]. }
    destruct Hloc as (ps1 & s & m & ps2 & evs1 & w1 & pre2 & post2
                      & Hps & Hc & -> & Hm & -> & Hres & Htr & Hst & Hcall).
    assert (stage_rank at_setup_root_mount < stage_rank s)%nat as Hrank.
    { destruct Hlater as [H|[H|[H|[H Hne]]]]; [by rewrite Hst in H|..].
      - unfold is_mknod in H. destruct (ev_call e) eqn:Hce; try done.
        apply stage_call_mknod in Hcall as [Hs|Hs]; rewrite Hs; simpl; lia.
      - unfold is_umount2 in H. destruct (ev_call e) eqn:Hce; try done.
        apply stage_call_umount2 in Hcall as Hs. rewrite Hs; simpl; lia.
      - unfold is_mount in H. destruct (ev_call e) eqn:Hce; try done.
        apply stage_call_mount in Hcall as [[_ Heq']|Hs]; [done|].
        rewrite Hs; simpl; lia. }
    destruct (steps_split _ _ _ _ Hps) as (Hok1 & _ & _ & _ & _ & Hall & _).
    destruct (completed_facts _ _ _ _ Hok1 Hc) as (_ & _ & _ & Hdone).
    assert (forall x, x ∈ evs1 -> x ∈ getpid_event w :: evs1 ++ pre2) as Hin.
    { intros x Hx. right. apply elem_of_app. by left. }
    destruct (Hall at_create_namespaces) as [m1 Hm1]; [simpl in *; lia|].
    destruct (Hall at_setup_root_mount) as [m2 Hm2]; [simpl in *; lia|].
    pose proof (Hdone _ Hm1) as [flags Hflags].
    pose proof (Hdone _ Hm2) as Hroot. simpl in Hroot.
    split_and!.
    + exists flags. by apply Hin.
    + apply Hin, Hroot. unfold root_mount_calls. in_list.
    + apply Hin, Hroot. unfold root_mount_calls. in_list.
    + intros c Hc'. by apply Hin, Hroot.
  - intros v Hok.
    destruct (run_events w) as [(_ & _ & Hres)|(Hpid & Hevs & Hres)].
    { rewrite Hres in Hok. done. }
    rewrite Hres in Hok. apply (chain_Ok _ 0 steps_of_run_ok) in Hok as [-> Hc].
    destruct (completed_facts _ _ _ _ steps_of_run_ok Hc) as (_ & _ & _ & Hdone).
    specialize (Hdone (at_setup_root_mount, setup_root_mount os libc self)).
    rewrite Hevs. right. apply Hdone; [unfold steps_of_run; in_list|].
    unfold root_mount_calls. in_list.
Qed.

(** ** The tmpfs populator (C10) *)

Lemma faithful_quiet {A} (P : Call -> Prop) (m : M A) :
  emits P m -> (forall argv, ~ P (c_check_output argv)) -> faithful m.
Proof.
  intros Hm HP w pre e post argv Heq Hc.
  destruct (emits_events P m w Hm) as (_ & Hall & _).
  rewrite Heq in Hall. apply Forall_app in Hall as [_ Hall].
  apply Forall_cons in Hall as [[_ He] _]. rewrite Hc in He.
  by destruct (HP argv).
Qed.

Lemma faithful_bind {A B} P (m : M A) (k : A -> M B) :
  emits P m -> (forall a, emits P (k a)) ->
  faithful m -> (forall a, faithful (k a)) -> faithful (m ≫= k).
Proof.
  intros Hm Hk Hfm Hfk w pre e post argv Heq Hc.
  destruct ((m w).1) as [a|x|] eqn:Hr.
  - destruct (events_of_bind P m k w a Hm Hk Hr) as [_ Hevs].
    rewrite Hevs in Heq.
    apply app_split_at in Heq as [(post1 & Heq & _)|(pre2 & -> & Heq)].
    + by apply (Hfm w pre e post1).
    + rewrite app_assoc, <- (emits_frame P m w Hm).
      by apply (Hfk a _ pre2 e post).
  - destruct (events_of_bind_stop m k w) as [Hevs _].
    { intros a. by rewrite Hr. }
    rewrite Hevs in Heq. by apply (Hfm w pre e post).
  - destruct (events_of_bind_stop m k w) as [Hevs _].
    { intros a. by rewrite Hr. }
    rewrite Hevs in Heq. by apply (Hfm w pre e post).
Qed.

Lemma faithful_for_each {A} P (xs : list A) (body : A -> M unit) :
  (forall x, x ∈ xs -> emits P (body x)) ->
  (forall x, x ∈ xs -> faithful (body x)) ->
  faithful (for_each xs body).
Proof.
  induction xs as [|x xs IH]; intros Hem Hf.
  - apply (faithful_quiet (fun _ => False)); [apply emits_ret|tauto].
  - simpl. apply (faithful_bind P).
    + apply Hem. by left.
    + intros _. apply emits_for_each. intros y Hy. apply Hem. by right.
    + apply Hf. by left.
    + intros _. apply IH; intros y Hy; [apply Hem|apply Hf]; by right.
Qed.

Lemma faithful_check_output argv : faithful (check_output os argv).
Proof.
  intros w pre e post argv' Heq Hc.
  assert (events_of (check_output os argv) w
          = [Ev (w_stage w) (c_check_output argv) (check_outcome (w_trace w) argv)])
    as Hevs.
  { unfold check_output, check_outcome, events_of. cbv zeta.
    destruct (os_fault os (w_trace w) _); simpl.
    { by rewrite drop_app_length. }
    destruct (os_child os (w_trace w) argv) as [[status output]|]; simpl;
      [|by rewrite drop_app_length].
    destruct (seen_status (w_trace w) status =? 0); simpl;
      by rewrite drop_app_length. }
  rewrite Hevs in Heq.
  destruct pre as [|? [|]]; simplify_eq/=. by rewrite app_nil_r.
Qed.

Lemma faithful_create_tmpfs_dirs : faithful (create_tmpfs_dirs os config).
Proof.
  unfold create_tmpfs_dirs.
  apply (faithful_bind (stage_call at_create_tmpfs_dirs)).
  - apply emits_path_exists. by left.
  - intros [|].
    + apply emits_for_each, emits_tmpfs_body.
    + apply emits_log. right. by left.
  - apply (faithful_quiet (fun c => c = c_exists tmpfiles));
      [by apply emits_path_exists|done].
  - intros [|].
    + apply (faithful_for_each (stage_call at_create_tmpfs_dirs));
        [apply emits_tmpfs_body|].
      intros m Hm. fold (tmpfs_body m). unfold tmpfs_body.
      destruct (String.eqb (m_type m) "tmpfs").
      * apply (faithful_bind (fun _ => True)); [emits_any| |
          apply faithful_check_output|].
        -- intros out. destruct (negb _); emits_any.
        -- intros out. destruct (negb _).
           ++ apply (faithful_quiet (fun c => exists l s, c = c_log l s));
                [apply emits_log; eauto|].
              intros argv (? & ? & ?). done.
           ++ apply (faithful_quiet (fun _ => False)); [apply emits_ret|tauto].
      * apply (faithful_quiet (fun _ => False)); [apply emits_ret|tauto].
    + apply (faithful_quiet (fun c => exists l s, c = c_log l s));
        [apply emits_log; eauto|].
      intros argv (? & ? & ?). done.
Qed.

(** When the tool is missing: the look, the warning, and nothing else. *)
Lemma create_tmpfs_dirs_absent w pre post :
  events_of (create_tmpfs_dirs os config) w
  = pre ++ Ev (w_stage w) (c_exists tmpfiles) (returned (v_bool false))
        :: post ->
  pre = []
  /\ post = [Ev (w_stage w) tmpfiles_warning (returned v_none)]
  /\ (create_tmpfs_dirs os config w).1 = Ok tt.
Proof.
  intros Hm.
  assert (emits (fun c => (exists argv, c = c_check_output argv)
                          \/ exists l s, c = c_log l s)
                (for_each (CONTAINER_MOUNTS config) tmpfs_body)) as Hloop.
  { apply emits_for_each. intros m _. unfold tmpfs_body.
    destruct (String.eqb _ _); [|apply emits_ret].
    apply emits_bind; [apply emits_check_output; eauto|].
    intros out. destruct (negb _); [apply emits_log; eauto|apply emits_ret]. }
  unfold events_of in Hm. rewrite create_tmpfs_dirs_unfold in Hm |- *.
  rewrite bind_unfold, path_exists_run in Hm |- *.
  destruct (present (w_fs w) tmpfiles).
  - exfalso.
    destruct (Hloop (after w [Ev (w_stage w) (c_exists tmpfiles)
                                 (returned (v_bool true))] (w_fs w)))
      as (evs & fs & Hw & Hall & _).
    rewrite Hw in Hm. simpl in Hm.
    rewrite <- app_assoc, drop_app_length in Hm. simpl in Hm.
    destruct pre as [|? pre]; simplify_eq/=.
    rewrite Forall_forall in Hall.
    destruct (Hall (Ev (w_stage w) (c_exists tmpfiles)
                       (returned (v_bool false)))) as [_ Hcall].
    { apply elem_of_app. right. by left. }
    simpl in Hcall. destruct Hcall as [[? ?]|(? & ? & ?)]; done.
  - rewrite log_run in Hm |- *. simpl in Hm.
    rewrite <- app_assoc, drop_app_length in Hm. simpl in Hm.
    destruct pre as [|? [|? [|]]]; simplify_eq/=. done.
Qed.

Lemma umount_old_root_first w :
  exists o rest,
    events_of (umount_old_root os libc) w
    = Ev (w_stage w) (c_umount2 "/old_root" (MNT_DETACH libc)) o :: rest.
Proof.
  unfold umount_old_root, umount2, os_rmdir, events_of.
  rewrite bind_unfold, effect_run.
  destruct (os_fault os (w_trace w) _); simpl.
  { rewrite drop_app_length. eauto. }
  rewrite effect_run. simpl.
  match goal with
  | |- context [os_fault os ?h ?c] => destruct (os_fault os h c)
  end; simpl; rewrite <- app_assoc, drop_app_length; simpl; eauto.
Qed.

Lemma steps_after_tmpfs ps1 m ps2 :
  steps_of_run os libc config self = ps1 ++ (at_create_tmpfs_dirs, m) :: ps2 ->
  exists ps2', ps2 = (at_umount_old_root, umount_old_root os libc) :: ps2'.
Proof.
  unfold steps_of_run. intros Heq.
  do 13 (destruct ps1 as [|? ps1]; simplify_eq/=; eauto).
Qed.

(** *** The disposition of SIGCHLD at a call of the tool *)

Lemma sigchld_step_ignored acc e :
  (forall sig hd, ev_call e = c_signal sig hd -> hd = SIG_IGN) ->
  acc = true
  \/ ((exists sig, ev_call e = c_signal sig SIG_IGN) /\ ev_ok e = true) ->
  sigchld_step acc e = true.
Proof.
  unfold sigchld_step, ev_ok. intros Hign Hor.
  destruct (ev_call e) as [| |sig hd| | | | | | | | | | | | | | | |] eqn:Hc;
    try (destruct Hor as [->|[[? ?] _]]; done).
  rewrite (Hign sig hd eq_refl). destruct sig.
  destruct (ev_outcome e); [done|..];
    destruct Hor as [->|[_ ?]]; done.
Qed.

Lemma foldl_sigchld_ignored l :
  forall acc,
    Forall (fun e => forall sig hd, ev_call e = c_signal sig hd -> hd = SIG_IGN)
           l ->
    acc = true
    \/ (exists e, e ∈ l /\ (exists sig, ev_call e = c_signal sig SIG_IGN)
                  /\ ev_ok e = true) ->
    foldl sigchld_step acc l = true.
Proof.
  induction l as [|e l IH]; intros acc Hall Hor; simpl.
  - destruct Hor as [->|(e & He & _)]; [done|]. by apply elem_of_nil in He.
  - apply Forall_cons in Hall as [He Hall]. apply IH; [done|].
    destruct Hor as [->|(e0 & Hin & Hsig & Hok)].
    + left. apply sigchld_step_ignored; [done|by left].
    + apply elem_of_cons in Hin as [->|Hin].
      * left. apply sigchld_step_ignored; [done|by right].
      * right. eauto.
Qed.

(** Once a [signal.signal(SIGCHLD, SIG_IGN)] has returned, and as long as
    no other disposition is set, SIGCHLD is ignored. *)
Lemma sigchld_ignored_after h l :
  Forall (fun e => forall sig hd, ev_call e = c_signal sig hd -> hd = SIG_IGN)
         l ->
  (exists e, e ∈ l /\ (exists sig, ev_call e = c_signal sig SIG_IGN)
             /\ ev_ok e = true) ->
  sigchld_ignored (h ++ l) = true.
Proof.
  intros Hall Hex. unfold sigchld_ignored. rewrite foldl_app.
  apply foldl_sigchld_ignored; [done|by right].
Qed.

(** Events that set no disposition leave it as it was. *)
Lemma sigchld_ignored_quiet h l :
  Forall (fun e => forall sig hd, ev_call e <> c_signal sig hd) l ->
  sigchld_ignored (h ++ l) = sigchld_ignored h.
Proof.
  intros Hall. unfold sigchld_ignored. rewrite foldl_app.
  generalize (foldl sigchld_step false h). intros acc.
  induction Hall as [|e l He Hl IH] in acc |- *; [done|]. simpl.
  rewrite IH. unfold sigchld_step.
  destruct (ev_call e) as [| |sig hd| | | | | | | | | | | | | | | |] eqn:Hc;
    try done.
  by destruct (He sig hd).
Qed.

Lemma stage_call_signal s sig hd :
  stage_call s (c_signal sig hd) -> hd = SIG_IGN.
Proof.
  intros H. destruct s; try solve [exfalso; stage_cases H].
  simpl in H. by inversion H.
Qed.

(** At a call of the tool in a run, SIGCHLD is ignored: [run] has set that
    disposition before, and nothing has changed it since. *)
Lemma run_tool_call w pre e post argv :
  events_of (run os libc config self) w = pre ++ e :: post ->
  ev_call e = c_check_output argv ->
  ev_stage e = at_create_tmpfs_dirs
  /\ sigchld_ignored (w_trace w ++ pre) = true
  /\ ev_outcome e = check_outcome (w_trace w ++ pre) argv
  /\ (ev_ok e = false ->
      post = []
      /\ match (run os libc config self w).1 with
         | Ok _ => False
         | Raise x => ev_outcome e = raised x
         | Blocked => ev_outcome e = pending
         end).
Proof.
  intros Heq Hce.
  destruct (run_locate w pre e post Heq) as [[_ ->]|(Hpid & Hloc)]; [done|].
  destruct Hloc as (ps1 & s & m & ps2 & evs1 & w1 & pre2 & post2
                    & Hps & Hc & -> & Hm & -> & Hres & Htr & Hst & Hcall).
  rewrite Hce in Hcall. apply stage_call_check_output in Hcall as Hs.
  rewrite Hs in *. clear Hs s.
  assert ((at_create_tmpfs_dirs, m) ∈ steps_of_run os libc config self)
    as Hin.
  { rewrite Hps. apply elem_of_app. right. by left. }
  apply step_of_stage in Hin. subst m.
  pose proof (faithful_create_tmpfs_dirs _ _ _ _ _ Hm Hce) as Hout.
  rewrite Htr in Hout.
  destruct (steps_split _ _ _ _ Hps) as (Hok1 & _ & _ & _ & _ & Hall & _).
  destruct (completed_facts _ _ _ _ Hok1 Hc) as (_ & _ & Hfrom & Hdone).
  destruct (enter_step _ _ w1 emits_create_tmpfs_dirs) as (_ & _ & Hall1 & Hd).
  rewrite Hm in Hall1, Hd.
  apply Forall_app in Hall1 as [Hpre2 _].
  assert (w_trace w ++ getpid_event w :: evs1 ++ pre2
          = (w_trace w ++ getpid_event w :: evs1) ++ pre2) as Happ.
  { by rewrite <- app_assoc. }
  rewrite Happ. split_and!; [done| |done|].
  - rewrite <- Happ. apply sigchld_ignored_after.
    + constructor; [done|]. apply Forall_app. split.
      * eapply Forall_impl; [exact Hfrom|]. intros x Hx sig hd Hxc.
        apply from_steps_call in Hx. rewrite Hxc in Hx.
        by apply stage_call_signal in Hx.
      * eapply Forall_impl; [exact Hpre2|]. intros x [Hxs Hx] sig hd Hxc.
        rewrite Hxc in Hx. by apply stage_call_signal in Hx.
    + destruct (Hall at_enable_zombie_reaping) as [m' Hm']; [simpl; lia|].
      specialize (Hdone _ Hm'). simpl in Hdone.
      eexists. split; [right; apply elem_of_app; left; exact Hdone|].
      split; [by exists SIGCHLD|done].
  - intros Hfail. apply disc_failed in Hd as [_ Hd].
    destruct (Hd Hfail) as [-> Hr]. rewrite Hres.
    by destruct ((create_tmpfs_dirs os config _).1).
Qed.

(** C10. In a run the exit status of the tool is never seen. [run] has set
    SIGCHLD to be ignored before it calls the tool, so whenever the system
    lets the call through and the child exits, with whatever status,
    check_output returns what the child printed and the run goes on: a
    status other than zero does not abort it. When the tool is not there,
    the look that found it missing is followed by the warning and by the
    next statement of [run], the detach of the old root. *)
Theorem run_loses_tmpfiles_status w :
  (forall pre e post argv status output,
     events_of (run os libc config self) w = pre ++ e :: post ->
     ev_call e = c_check_output argv ->
     os_fault os (w_trace w ++ pre) (c_check_output argv) = None ->
     os_child os (w_trace w ++ pre) argv = Some (status, output) ->
     ev_stage e = at_create_tmpfs_dirs
     /\ sigchld_ignored (w_trace w ++ pre) = true
     /\ ev_outcome e = returned (v_bytes output))
  /\ (forall pre post,
        events_of (run os libc config self) w
        = pre ++ Ev at_create_tmpfs_dirs (c_exists tmpfiles)
                    (returned (v_bool false)) :: post ->
        exists o post',
          post = Ev at_create_tmpfs_dirs tmpfiles_warning (returned v_none)
                 :: Ev at_umount_old_root
                       (c_umount2 "/old_root" (MNT_DETACH libc)) o
                 :: post').
Proof.
  split.
  - intros pre e post argv status output Heq Hce Hfault Hchild.
    destruct (run_tool_call w pre e post argv Heq Hce)
      as (Hst & Hign & Hout & _).
    split_and!; [done|done|]. rewrite Hout. unfold check_outcome, seen_status.
    by rewrite Hfault, Hchild, Hign.
  - intros pre post Heq.
    destruct (run_locate w pre _ post Heq) as [[_ Hg]|(Hpid & Hloc)]; [done|].
    destruct Hloc as (ps1 & s & m & ps2 & evs1 & w1 & pre2 & post2
                      & Hps & Hc & -> & Hm & -> & Hres & Htr & Hst & Hcall).
    simpl in Hst. rewrite <- Hst in *. clear Hst s.
    assert ((at_create_tmpfs_dirs, m) ∈ steps_of_run os libc config self)
      as Hin.
    { rewrite Hps. apply elem_of_app. right. by left. }
    apply step_of_stage in Hin. subst m.
    destruct (steps_after_tmpfs _ _ _ Hps) as [ps2' ->].
    destruct (steps_split _ _ _ _ Hps) as (_ & _ & Hok2 & _).
    apply create_tmpfs_dirs_absent in Hm as (-> & -> & Hok).
    rewrite Hok, chain_events by done.
    destruct (umount_old_root_first
                (enter at_umount_old_root
                   (create_tmpfs_dirs os config
                      (enter at_create_tmpfs_dirs w1)).2))
      as (o & rest & ->).
    simpl. eauto.
Qed.

(** ** The namespace flags (C4, C5, C6) *)

Lemma land_foldl_lor (p acc : Z) (flags : list Z) :
  Z.land acc p = 0 ->
  Forall (fun f => Z.land f p = 0) flags ->
  Z.land (foldl Z.lor acc flags) p = 0.
Proof.
  revert acc. induction flags as [|f flags IH]; intros acc Hacc Hall; [done|].
  apply Forall_cons in Hall as [Hf Hall]. simpl. apply IH; [|done].
  rewrite Z.land_lor_distr_l, Hacc, Hf. done.
Qed.

Lemma spec_requested_elem fs items name flag :
  (name, flag) ∈ spec_requested libc self fs items ->
  (name, flag) ∈ items
  /\ considered libc self flag = true
  /\ present fs (ns_path name) = true.
Proof.
  unfold spec_requested. rewrite list_elem_of_In, filter_In,
    <- list_elem_of_In. simpl.
  intros [Hin Hb]. apply andb_true_iff in Hb. tauto.
Qed.

Lemma considered_not_pid flag :
  considered libc self flag = true -> flag <> CLONE_NEWPID libc.
Proof.
  unfold considered. intros H Heq. apply andb_true_iff in H as [H _].
  apply negb_true_iff, Z.eqb_neq in H. done.
Qed.

Lemma considered_not_net flag :
  isolate_networking self = false ->
  considered libc self flag = true -> flag <> CLONE_NEWNET libc.
Proof.
  unfold considered. intros Hiso H Heq. apply andb_true_iff in H as [_ H].
  rewrite Hiso in H. simpl in H. rewrite andb_true_r in H.
  apply negb_true_iff, Z.eqb_neq in H. done.
Qed.

(** The flags of the specification have no bit of a flag [p] which no
    requested entry carries. *)
Lemma spec_flags_without fs p :
  (forall name flag, (name, flag) ∈ spec_requested libc self fs (NAMESPACES config) ->
     Z.land flag p = 0) ->
  Z.land (spec_flags libc self fs (NAMESPACES config) 0) p = 0.
Proof.
  intros H. unfold spec_flags. apply land_foldl_lor; [done|].
  apply Forall_forall. intros f Hf.
  apply list_elem_of_fmap in Hf as ([name flag] & -> & Hin). eauto.
Qed.

Lemma create_namespaces_shape w :
  exists pre o,
    events_of (create_namespaces os libc config self) w
    = pre ++ [Ev (w_stage w)
                 (c_unshare (spec_flags libc self (w_fs w) (NAMESPACES config) 0))
                 o]
    /\ Forall (fun e => ev_ok e = true /\ is_unshare e = false) pre.
Proof.
  destruct (create_namespaces_spec w) as (evs & o & Hevs & Hall & _).
  exists evs, o. split; [done|].
  eapply Forall_impl; [exact Hall|]. intros e (_ & _ & ? & ?). done.
Qed.

(** C4. Whatever the configuration, the file tree and the behaviour of the
    system, [create_namespaces] issues exactly one unshare, as its last
    call, with the flags of the requested entries or-ed together; no
    requested entry carries the PID flag, and with a table of bit flags
    (each one the PID flag or sharing no bit with it) the flags passed have
    no bit of the PID flag. *)
Theorem create_namespaces_never_requests_pid w :
  exists pre o,
    events_of (create_namespaces os libc config self) w
    = pre ++ [Ev (w_stage w)
                 (c_unshare (foldl Z.lor 0
                    (map snd (spec_requested libc self (w_fs w)
                                             (NAMESPACES config)))))
                 o]
    /\ Forall (fun e => ev_ok e = true /\ is_unshare e = false) pre
    /\ Forall (fun it => it ∈ NAMESPACES config /\ it.2 <> CLONE_NEWPID libc)
              (spec_requested libc self (w_fs w) (NAMESPACES config))
    /\ ((forall name flag, (name, flag) ∈ NAMESPACES config ->
           same_or_disjoint flag (CLONE_NEWPID libc)) ->
        Z.land (foldl Z.lor 0
                  (map snd (spec_requested libc self (w_fs w)
                                           (NAMESPACES config))))
               (CLONE_NEWPID libc) = 0).
Proof.
  destruct (create_namespaces_shape w) as (pre & o & Hevs & Hpre).
  exists pre, o. split; [exact Hevs|]. split; [done|]. split.
  - apply Forall_forall. intros [name flag] Hin.
    apply spec_requested_elem in Hin as (Hin & Hc & _).
    split; [done|]. by apply considered_not_pid.
  - intros Hbits. apply spec_flags_without. intros name flag Hin.
    apply spec_requested_elem in Hin as (Hin & Hc & _).
    destruct (Hbits name flag Hin) as [Heq|Hd]; [|done].
    by apply considered_not_pid in Hc.
Qed.

(** C5. When networking is not to be isolated, no requested entry carries
    the network flag, whether or not the kernel exposes the network
    namespace kind, and with a table of bit flags (each one the network
    flag or sharing no bit with it) the flags passed to unshare have no bit
    of the network flag. *)
Theorem create_namespaces_keeps_network w :
  isolate_networking self = false ->
  exists pre o,
    events_of (create_namespaces os libc config self) w
    = pre ++ [Ev (w_stage w)
                 (c_unshare (foldl Z.lor 0
                    (map snd (spec_requested libc self (w_fs w)
                                             (NAMESPACES config)))))
                 o]
    /\ Forall (fun e => ev_ok e = true /\ is_unshare e = false) pre
    /\ Forall (fun it => it ∈ NAMESPACES config /\ it.2 <> CLONE_NEWNET libc)
              (spec_requested libc self (w_fs w) (NAMESPACES config))
    /\ ((forall name flag, (name, flag) ∈ NAMESPACES config ->
           same_or_disjoint flag (CLONE_NEWNET libc)) ->
        Z.land (foldl Z.lor 0
                  (map snd (spec_requested libc self (w_fs w)
                                           (NAMESPACES config))))
               (CLONE_NEWNET libc) = 0).
Proof.
  intros Hiso.
  destruct (create_namespaces_shape w) as (pre & o & Hevs & Hpre).
  exists pre, o. split; [exact Hevs|]. split; [done|]. split.
  - apply Forall_forall. intros [name flag] Hin.
    apply spec_requested_elem in Hin as (Hin & Hc & _).
    split; [done|]. by apply (considered_not_net _ Hiso).
  - intros Hbits. apply spec_flags_without. intros name flag Hin.
    apply spec_requested_elem in Hin as (Hin & Hc & _).
    destruct (Hbits name flag Hin) as [Heq|Hd]; [|done].
    by apply (considered_not_net _ Hiso) in Hc.
Qed.

(** C6, amended. For an entry that is neither the PID flag nor, with
    networking not isolated, the network flag: when its namespace kind is
    missing, the look that found it missing is followed at once by the
    warning, every call before the unshare returns, the unshare is still
    issued, with the flags of the requested entries, of which this entry is
    none (with the other kinds carrying other bits, the flags passed have
    no bit of this flag), and the outcome of [create_namespaces] is that of
    the unshare. *)
Theorem create_namespaces_skips_missing_kind w name flag :
  (name, flag) ∈ NAMESPACES config ->
  flag <> CLONE_NEWPID libc ->
  (flag = CLONE_NEWNET libc -> isolate_networking self = true) ->
  present (w_fs w) (ns_path name) = false ->
  exists pre mid o,
    events_of (create_namespaces os libc config self) w
    = pre ++ [Ev (w_stage w) (c_exists (ns_path name)) (returned (v_bool false));
              Ev (w_stage w) (ns_warning name) (returned v_none)]
          ++ mid
          ++ [Ev (w_stage w)
                 (c_unshare (foldl Z.lor 0
                    (map snd (spec_requested libc self (w_fs w)
                                             (NAMESPACES config)))))
                 o]
    /\ Forall (fun e => ev_ok e = true /\ is_unshare e = false) (pre ++ mid)
    /\ ((name, flag) ∉ spec_requested libc self (w_fs w) (NAMESPACES config))
    /\ ((forall n f, (n, f) ∈ NAMESPACES config ->
           n = name \/ Z.land f flag = 0) ->
        Z.land (foldl Z.lor 0
                  (map snd (spec_requested libc self (w_fs w)
                                           (NAMESPACES config))))
               flag = 0)
    /\ match (create_namespaces os libc config self w).1 with
       | Ok _ => o = returned v_none
       | Raise x => o = raised x
       | Blocked => False
       end.
Proof.
  intros Hin Hpid Hnet Habsent.
  assert (considered libc self flag = true) as Hc.
  { unfold considered. apply andb_true_iff. split.
    - by apply negb_true_iff, Z.eqb_neq.
    - apply negb_true_iff, andb_false_iff.
      destruct (Z.eqb_spec flag (CLONE_NEWNET libc)) as [Heq|Hne]; [|by left].
      right. by rewrite (Hnet Heq). }
  destruct (create_namespaces_spec w) as (evs & o & Hevs & Hall & Hwarn & Ho).
  destruct (Hwarn name flag Hin Hc Habsent) as (pre & mid & ->).
  exists pre, mid, o. split_and!.
  - rewrite Hevs. by rewrite <- !app_assoc.
  - apply Forall_app in Hall as [Hpre Hall].
    apply Forall_app in Hall as [_ Hmid]. apply Forall_app. split.
    + eapply Forall_impl; [exact Hpre|]. intros e (_ & _ & ? & ?). done.
    + eapply Forall_impl; [exact Hmid|]. intros e (_ & _ & ? & ?). done.
  - intros Hreq. apply spec_requested_elem in Hreq as (_ & _ & Hp). congruence.
  - intros Hbits. apply spec_flags_without. intros n f Hreq.
    apply spec_requested_elem in Hreq as (Hin' & _ & Hp).
    destruct (Hbits n f Hin') as [->|Hd]; [congruence|done].
  - done.
Qed.

(** ** Device nodes (C8, C1) *)

Lemma land_permission_bits mode :
  0 <= mode <= 4095 -> Z.land mode S_IALLUGO = mode.
Proof.
  intros H. change S_IALLUGO with (Z.ones 12).
  rewrite Z.land_ones by lia. apply Z.mod_small. lia.
Qed.

(** C8. A node made by [create_device_node] ends with the permission bits
    of the mode passed in, whatever the file-creation mask: the chmod after
    the mknod sets them. For a permission mode, 0 to 0o7777, that is
    exactly the mode passed in. *)
Theorem create_device_node_sets_mode name major minor mode blk mask w :
  (create_device_node os name major minor mode blk (with_umask mask w)).1
  = Ok tt ->
  w_fs (create_device_node os name major minor mode blk (with_umask mask w)).2
    !! dev_path name
  = Some (device_inode blk major minor (Z.land mode S_IALLUGO))
  /\ (0 <= mode <= 4095 ->
      w_fs (create_device_node os name major minor mode blk
              (with_umask mask w)).2 !! dev_path name
      = Some (device_inode blk major minor mode)).
Proof.
  intros Hok.
  pose proof (run_pair (create_device_node os name major minor mode blk)
                       (with_umask mask w)) as Hrun.
  rewrite Hok in Hrun. apply create_device_node_Ok in Hrun as [_ Hrun].
  rewrite Hrun. simpl. rewrite lookup_insert_eq. split; [done|].
  intros Hmode. by rewrite land_permission_bits.
Qed.

Lemma for_each_nodes_keep {A} (xs : list A) (f : A -> M unit) :
  (forall x w w', f x w = (Ok tt, w') ->
     forall p node, w_fs w !! p = Some node -> w_fs w' !! p = Some node) ->
  forall w w', for_each xs f w = (Ok tt, w') ->
    forall p node, w_fs w !! p = Some node -> w_fs w' !! p = Some node.
Proof.
  intros Hf. induction xs as [|x xs IH]; intros w w' Hrun p node Hp.
  - by inversion Hrun; subst.
  - apply for_each_Ok_cons in Hrun as (w1 & H1 & H2). eauto.
Qed.

Lemma create_device_node_keeps name major minor mode blk w w' :
  create_device_node os name major minor mode blk w = (Ok tt, w') ->
  forall p node, w_fs w !! p = Some node -> w_fs w' !! p = Some node.
Proof.
  intros H p node Hp. apply create_device_node_Ok in H as [Hfree ->].
  simpl. rewrite lookup_insert_ne; [done|]. congruence.
Qed.

(** C1, amended. For every entry of the table, [create_default_dev_nodes]
    leaves at /dev/<name> a character device with the entry's major and
    minor numbers and permission mode 0o666. *)
Theorem create_default_dev_nodes_makes_char_nodes w d :
  (create_default_dev_nodes os config w).1 = Ok tt ->
  d ∈ CONTAINER_DEVICE_NODES config ->
  w_fs (create_default_dev_nodes os config w).2 !! dev_path (d_name d)
  = Some (device_inode false (d_major d) (d_minor d) 438).
Proof.
  unfold create_default_dev_nodes.
  generalize (CONTAINER_DEVICE_NODES config) as ds.
  intros ds. revert w. induction ds as [|d0 ds IH]; intros w Hok Hin.
  - by apply elem_of_nil in Hin.
  - destruct (for_each _ _ w) as [r w'] eqn:Hrun. simpl in Hok; subst r.
    apply for_each_Ok_cons in Hrun as (w1 & H1 & H2). simpl.
    apply elem_of_cons in Hin as [->|Hin].
    + eapply for_each_nodes_keep; [|exact H2|].
      { intros x ? ?. apply create_device_node_keeps. }
      apply create_device_node_Ok in H1 as [_ ->]. simpl.
      by rewrite lookup_insert_eq.
    + specialize (IH w1). rewrite H2 in IH. by apply IH.
Qed.

(** ** Plain names under /dev *)

Lemma split_no_sep s : no_sep s = true -> pathlib.split s = [s].
Proof.
  induction s as [|c s IH]; [done|]. simpl. intros H.
  apply andb_true_iff in H as [Hc Hs]. apply negb_true_iff in Hc.
  rewrite Hc, (IH Hs). done.
Qed.

(** X14. For a plain file name, [Path("/dev", name)] is "/dev/" followed by
    the name. *)
Lemma dev_path_plain name :
  plain_name name = true -> dev_path name = "/dev/" +:+ name.
Proof.
  unfold plain_name. intros H.
  apply andb_true_iff in H as [H Hdot]. apply andb_true_iff in H as [Hsep Hne].
  unfold dev_path, pathlib.Path. simpl rev. unfold pathlib.parse_rev.
  apply negb_true_iff in Hne. rewrite Hne.
  destruct name as [|c name]; [done|].
  simpl in Hsep. apply andb_true_iff in Hsep as [Hc Hsep'].
  apply negb_true_iff in Hc. unfold pathlib.splitroot. rewrite Hc.
  simpl. unfold pathlib.components.
  rewrite split_no_sep by (simpl; by rewrite Hc, Hsep').
  cbn [List.filter]. rewrite Hne, Hdot. done.
Qed.

(** ** Calls in order *)

Lemma scripted_ret : scripted [] (mret tt).
Proof.
  intros w. unfold events_of. simpl. rewrite drop_ge by done. done.
Qed.

Lemma scripted_effect c : scripted [c] (effect os c).
Proof.
  intros w. unfold events_of. rewrite effect_run.
  destruct (os_fault os (w_trace w) c); simpl; rewrite drop_app_length; done.
Qed.

Lemma scripted_bind P cs1 cs2 (m k : M unit) :
  emits P m -> emits P k ->
  scripted cs1 m -> scripted cs2 k -> scripted (cs1 ++ cs2) (m ;; k).
Proof.
  intros Hm Hk H1 H2 w. destruct (H1 w) as [Hp1 Heq1].
  destruct ((m w).1) as [[]|x|] eqn:Hr.
  - destruct (events_of_bind P m (fun _ => k) w tt Hm (fun _ => Hk) Hr)
      as [Hrun Hevs].
    rewrite Hevs, Hrun. destruct (H2 (m w).2) as [Hp2 Heq2].
    unfold calls_of in *. rewrite map_app.
    rewrite (Heq1 eq_refl). split.
    + by apply prefix_app.
    + intros Hok. by rewrite (Heq2 Hok).
  - destruct (events_of_bind_stop m (fun _ => k) w) as [Hevs Hres].
    { intros a. by rewrite Hr. }
    rewrite Hr in Hres. rewrite Hevs. split.
    + by apply prefix_app_r.
    + intros Hok. congruence.
  - destruct (events_of_bind_stop m (fun _ => k) w) as [Hevs Hres].
    { intros a. by rewrite Hr. }
    rewrite Hr in Hres. rewrite Hevs. split.
    + by apply prefix_app_r.
    + intros Hok. congruence.
Qed.

Lemma scripted_for_each {A} P (cs : A -> list Call) (xs : list A)
    (body : A -> M unit) :
  (forall x, x ∈ xs -> emits P (body x)) ->
  (forall x, x ∈ xs -> scripted (cs x) (body x)) ->
  scripted (flat_map cs xs) (for_each xs body).
Proof.
  induction xs as [|x xs IH]; intros Hem Hsc; simpl.
  - apply scripted_ret.
  - apply (scripted_bind P).
    + apply Hem. by left.
    + apply emits_for_each. intros y Hy. apply Hem. by right.
    + apply Hsc. by left.
    + apply IH; intros y Hy; [apply Hem|apply Hsc]; by right.
Qed.

(** X5. [mount_defaults] walks the table in its order: for each entry the
    mkdir of the destination, then the mount with the entry's source, type,
    flags (0 when it has none) and options joined by commas. It stops at
    the first call that does not return, and has issued all of them when it
    goes through. *)
Theorem mount_defaults_in_table_order w :
  calls_of (events_of (mount_defaults os config) w)
    `prefix_of` mount_script (CONTAINER_MOUNTS config)
  /\ ((mount_defaults os config w).1 = Ok tt ->
      calls_of (events_of (mount_defaults os config) w)
      = mount_script (CONTAINER_MOUNTS config)).
Proof.
  revert w. apply (scripted_for_each (fun _ => True)).
  - intros m _. emits_any.
  - intros m _. apply (scripted_bind (fun _ => True) [_] [_]);
      [emits_any|emits_any|apply scripted_effect..].
Qed.

(** X6. [setup_root_mount] issues, in this order: the recursive slave
    remount of "/", the mkdir of old_root under the root directory, the
    chdir into the root directory, the pivot and the chroot. It stops at
    the first call that does not return. *)
Theorem setup_root_mount_in_order w :
  calls_of (events_of (setup_root_mount os libc self) w)
    `prefix_of` [c_mount "none" "/" None (Z.lor (MS_REC libc) (MS_SLAVE libc))
                         None;
                 c_mkdir (pathlib.Path [root_dir self; "old_root"]);
                 c_chdir (root_dir self);
                 c_pivot_root "." "old_root";
                 c_chroot "."]
  /\ ((setup_root_mount os libc self w).1 = Ok tt ->
      calls_of (events_of (setup_root_mount os libc self) w)
      = [c_mount "none" "/" None (Z.lor (MS_REC libc) (MS_SLAVE libc)) None;
         c_mkdir (pathlib.Path [root_dir self; "old_root"]);
         c_chdir (root_dir self);
         c_pivot_root "." "old_root";
         c_chroot "."]).
Proof.
  revert w. unfold setup_root_mount, mount, path_mkdir, os_chdir, pivot_root,
    os_chroot.
  repeat (apply (scripted_bind (fun _ => True) [_]);
          [emits_any|emits_any|apply scripted_effect|]).
  apply scripted_effect.
Qed.

(** X7. [umount_old_root] detaches /old_root, then removes the directory;
    the rmdir is not attempted when the umount2 does not return. *)
Theorem umount_old_root_in_order w :
  calls_of (events_of (umount_old_root os libc) w)
    `prefix_of` [c_umount2 "/old_root" (MNT_DETACH libc); c_rmdir "/old_root"]
  /\ ((umount_old_root os libc w).1 = Ok tt ->
      calls_of (events_of (umount_old_root os libc) w)
      = [c_umount2 "/old_root" (MNT_DETACH libc); c_rmdir "/old_root"]).
Proof.
  revert w. unfold umount_old_root, umount2, os_rmdir.
  apply (scripted_bind (fun _ => True) [_] [_]);
    [emits_any|emits_any|apply scripted_effect..].
Qed.

(** ** Device nodes, further *)

(** A loop of [create_device_node] that went through: the paths were free
    and differ from one another, each now holds its node, and no other
    path has changed. *)
Lemma for_each_device_nodes {A} (nm : A -> string) (ma mi : A -> Z) mode blk
    (xs : list A) :
  forall w w',
    for_each xs (fun x => create_device_node os (nm x) (ma x) (mi x) mode blk) w
    = (Ok tt, w') ->
    NoDup (map (fun x => dev_path (nm x)) xs)
    /\ (forall x, x ∈ xs ->
          w_fs w !! dev_path (nm x) = None
          /\ w_fs w' !! dev_path (nm x)
             = Some (device_inode blk (ma x) (mi x) (Z.land mode S_IALLUGO)))
    /\ (forall p, p ∉ map (fun x => dev_path (nm x)) xs ->
          w_fs w' !! p = w_fs w !! p).
Proof.
  induction xs as [|x0 xs IH]; intros w w' Hrun.
  - inversion Hrun; subst. split_and!; [constructor| |done].
    intros x Hx. by apply elem_of_nil in Hx.
  - apply for_each_Ok_cons in Hrun as (w1 & H0 & Hrest).
    apply create_device_node_Ok in H0 as [Hfree0 Hw1].
    destruct (IH _ _ Hrest) as (Hnd & Hnodes & Hframe).
    assert (w_fs w1 !! dev_path (nm x0)
            = Some (device_inode blk (ma x0) (mi x0) (Z.land mode S_IALLUGO)))
      as Hnode0.
    { rewrite Hw1. simpl. by rewrite lookup_insert_eq. }
    assert (dev_path (nm x0) ∉ map (fun x => dev_path (nm x)) xs) as Hnotin.
    { intros Hin. apply list_elem_of_fmap in Hin as (x & Heq & Hx).
      destruct (Hnodes x Hx) as [Hnone _]. rewrite <- Heq in Hnone.
      congruence. }
    simpl. split_and!.
    + by apply NoDup_cons.
    + intros x Hx. apply elem_of_cons in Hx as [->|Hx].
      * split; [done|]. by rewrite (Hframe _ Hnotin).
      * destruct (Hnodes x Hx) as [Hnone Hsome]. split; [|done].
        assert (dev_path (nm x0) <> dev_path (nm x)) as Hne.
        { intros Heq. rewrite Heq in Hnode0. congruence. }
        rewrite Hw1 in Hnone. simpl in Hnone.
        by rewrite lookup_insert_ne in Hnone.
    + intros p Hp. apply not_elem_of_cons in Hp as [Hne Hp].
      rewrite (Hframe p Hp), Hw1. simpl. by rewrite lookup_insert_ne.
Qed.

(** X2. When [create_default_dev_nodes] goes through, the paths of the
    table's entries differ from one another and were all free before, and
    no path outside the table has changed: with two entries for one path,
    or a node already there, it cannot go through. *)
Theorem create_default_dev_nodes_paths_distinct_and_free w :
  (create_default_dev_nodes os config w).1 = Ok tt ->
  NoDup (map (fun d => dev_path (d_name d)) (CONTAINER_DEVICE_NODES config))
  /\ (forall d, d ∈ CONTAINER_DEVICE_NODES config ->
        w_fs w !! dev_path (d_name d) = None)
  /\ (forall p,
        p ∉ map (fun d => dev_path (d_name d)) (CONTAINER_DEVICE_NODES config) ->
        w_fs (create_default_dev_nodes os config w).2 !! p = w_fs w !! p).
Proof.
  intros Hok.
  pose proof (run_pair (create_default_dev_nodes os config) w) as Hrun.
  rewrite Hok in Hrun. unfold create_default_dev_nodes in Hrun at 1.
  apply (for_each_device_nodes d_name d_major d_minor) in Hrun
    as (Hnd & Hnodes & Hframe).
  split_and!; [done| |done]. intros d Hd. by destruct (Hnodes d Hd).
Qed.

Lemma loop_path i :
  0 <= i < 8 -> dev_path ("loop" +:+ pretty i) = "/dev/loop" +:+ pretty i.
Proof.
  intros Hi.
  assert (i = 0 \/ i = 1 \/ i = 2 \/ i = 3 \/ i = 4 \/ i = 5 \/ i = 6 \/ i = 7)
    as Hcases by lia.
  repeat (destruct Hcases as [->|Hcases]; [reflexivity|]). by subst.
Qed.

(** X1. When [create_loop_devices] goes through, /dev/loop-control is a
    character device 10:237 and /dev/loop0 to /dev/loop7 are block devices
    7:0 to 7:7, all of mode 0o660, and no other path has changed: nine
    nodes, no more. *)
Theorem create_loop_devices_nodes w :
  (create_loop_devices os w).1 = Ok tt ->
  w_fs (create_loop_devices os w).2 !! "/dev/loop-control"
  = Some (device_inode false 10 237 432)
  /\ (forall i, 0 <= i < 8 ->
        w_fs (create_loop_devices os w).2 !! ("/dev/loop" +:+ pretty i)
        = Some (device_inode true 7 i 432))
  /\ (forall p, p <> "/dev/loop-control" ->
        (forall i, 0 <= i < 8 -> p <> "/dev/loop" +:+ pretty i) ->
        w_fs (create_loop_devices os w).2 !! p = w_fs w !! p).
Proof.
  intros Hok.
  pose proof (run_pair (create_loop_devices os) w) as Hrun.
  rewrite Hok in Hrun. unfold create_loop_devices in Hrun at 1.
  apply bind_Ok in Hrun as ([] & w1 & H0 & Hrest).
  apply create_device_node_Ok in H0 as [_ Hw1].
  apply (for_each_device_nodes (fun i => "loop" +:+ pretty i) (fun _ => 7)
           (fun i => i)) in Hrest as (_ & Hnodes & Hframe).
  assert (forall p, (forall i, 0 <= i < 8 -> p <> "/dev/loop" +:+ pretty i) ->
            p ∉ map (fun i => dev_path ("loop" +:+ pretty i)) (seqZ 0 8))
    as Hout.
  { intros p Hp Hin. apply list_elem_of_fmap in Hin as (i & -> & Hi).
    apply elem_of_seqZ in Hi. apply (Hp i); [lia|]. apply loop_path. lia. }
  split_and!.
  - rewrite Hframe, Hw1.
    + simpl. by rewrite lookup_insert_eq.
    + apply Hout. intros i Hi.
      assert (i = 0 \/ i = 1 \/ i = 2 \/ i = 3 \/ i = 4 \/ i = 5 \/ i = 6
              \/ i = 7) as Hcases by lia.
      repeat (destruct Hcases as [->|Hcases]; [discriminate|]).
      subst. discriminate.
  - intros i Hi. rewrite <- loop_path by done.
    destruct (Hnodes i) as [_ Hnode]; [apply elem_of_seqZ; lia|].
    exact Hnode.
  - intros p Hne Hp. rewrite (Hframe p (Hout p Hp)), Hw1. simpl.
    by rewrite lookup_insert_ne.
Qed.

(** X3. [create_device_node] on a path that is taken raises at the mknod
    (FileExistsError when the system lets the call through), attempts no
    chmod and leaves the file tree as it was. *)
Theorem create_device_node_refuses_taken_path name major minor mode blk w node :
  w_fs w !! dev_path name = Some node ->
  exists x,
    create_device_node os name major minor mode blk w
    = (Raise x,
       after w [Ev (w_stage w) (mknod_call name major minor blk) (raised x)]
             (w_fs w))
    /\ (os_fault os (w_trace w) (mknod_call name major minor blk) = None ->
        x = FileExistsError (dev_path name)).
Proof.
  intros Hnode. unfold create_device_node, os_mknod, syscall.
  rewrite bind_unfold. fold (dev_path name).
  change (c_mknod (dev_path name) (if blk then S_IFBLK else S_IFCHR)
            (makedev major minor)) with (mknod_call name major minor blk).
  destruct (os_fault os (w_trace w) (mknod_call name major minor blk)) as [x|].
  - exists x. done.
  - rewrite Hnode. exists (FileExistsError (dev_path name)). done.
Qed.

(** X4. When the mknod of [create_device_node] goes through and the chmod
    is refused, the error is that of the chmod and the node stays behind
    without any permission bit, whatever the file-creation mask: the mknod
    was given the file type alone. *)
Theorem create_device_node_chmod_refused name major minor mode blk w x :
  w_fs w !! dev_path name = None ->
  os_fault os (w_trace w) (mknod_call name major minor blk) = None ->
  os_fault os (w_trace w ++ [Ev (w_stage w) (mknod_call name major minor blk)
                                (returned v_none)])
           (chmod_call name mode) = Some x ->
  (create_device_node os name major minor mode blk w).1 = Raise x
  /\ w_fs (create_device_node os name major minor mode blk w).2
       !! dev_path name
     = Some (device_inode blk major minor 0).
Proof.
  intros Hfree Hmk Hch. unfold create_device_node, os_mknod, path_chmod, syscall.
  rewrite bind_unfold. fold (dev_path name).
  change (c_mknod (dev_path name) (if blk then S_IFBLK else S_IFCHR)
            (makedev major minor)) with (mknod_call name major minor blk).
  change (c_chmod (dev_path name) mode) with (chmod_call name mode).
  rewrite Hmk, Hfree. simpl. rewrite Hch. simpl.
  split; [done|]. rewrite lookup_insert_eq. unfold device_inode.
  by destruct blk.
Qed.

(** ** How a run ends *)

(** The result of a chain shows in its events. *)
Lemma chain_disc {A} ps (a : A) :
  steps_ok ps ->
  forall w, disc (chain ps (mret a) w).1 (events_of (chain ps (mret a)) w).
Proof.
  induction ps as [|[s m] ps IH]; intros Hps w.
  - unfold events_of. simpl. rewrite drop_ge by done. constructor.
  - rewrite chain_events by done. rewrite chain_cons.
    apply Forall_cons in Hps as [[Hm _] Hps]. simpl in Hm.
    destruct (enter_step s m w Hm) as (fs & _ & _ & Hd).
    destruct ((m (enter s w)).1) as [[]|x|] eqn:Hr.
    + apply (disc_app _ _ tt); [done|]. by apply IH.
    + by rewrite app_nil_r.
    + by rewrite app_nil_r.
Qed.

(** X8. How [run] ends shows in its events. When it returns, every call
    returned. When it raises, either the process id was not 1 and nothing
    but the look at it happened, or the last call raised that very error
    and every call before it returned: no statement catches an error. When
    it waits for ever, it waits in its last call, every call before having
    returned. *)
Theorem run_outcome_in_events w :
  match (run os libc config self w).1 with
  | Ok _ =>
      Forall (fun e => ev_ok e = true) (events_of (run os libc config self) w)
  | Raise x =>
      (os_pid os (w_trace w) <> 1
       /\ events_of (run os libc config self) w = [getpid_event w])
      \/ (os_pid os (w_trace w) = 1
          /\ exists pre s c,
               events_of (run os libc config self) w
               = pre ++ [Ev s c (raised x)]
               /\ Forall (fun e => ev_ok e = true) pre)
  | Blocked =>
      exists pre s c,
        events_of (run os libc config self) w = pre ++ [Ev s c pending]
        /\ Forall (fun e => ev_ok e = true) pre
  end.
Proof.
  destruct (run_events w) as [(Hpid & Hevs & Hres)|(Hpid & Hevs & Hres)].
  { rewrite Hres. by left. }
  pose proof (chain_disc _ 0 steps_of_run_ok (identified w)) as Hd.
  rewrite <- Hres in Hd.
  destruct ((run os libc config self w).1) as [z|x|] eqn:Hr; unfold disc in Hd.
  - rewrite Hevs. by constructor.
  - right. split; [done|]. destruct Hd as (pre & s & c & Heq & Hpre).
    exists (getpid_event w :: pre), s, c. rewrite Hevs, Heq.
    split; [done|]. by constructor.
  - destruct Hd as (pre & s & c & Heq & Hpre).
    exists (getpid_event w :: pre), s, c. rewrite Hevs, Heq.
    split; [done|]. by constructor.
Qed.

(** ** The statements of a run, in their order *)

Lemma same_stage_sorted s (l : list Event) :
  Forall (fun e => ev_stage e = s) l -> StronglySorted stage_le l.
Proof.
  induction 1 as [|e l He Hl IH]; [apply SSorted_nil|].
  apply SSorted_cons; [done|]. eapply Forall_impl; [exact Hl|].
  intros e' He'. unfold stage_le. rewrite He, He'. done.
Qed.

Lemma chain_sorted {A} ps (a : A) :
  steps_ok ps ->
  StronglySorted (fun p q => (stage_rank p.1 < stage_rank q.1)%nat) ps ->
  forall w, StronglySorted stage_le (events_of (chain ps (mret a)) w).
Proof.
  induction ps as [|[s m] ps IH]; intros Hps Hr w.
  - unfold events_of. simpl. rewrite drop_ge by done. apply SSorted_nil.
  - rewrite chain_events by done.
    apply Forall_cons in Hps as [[Hm _] Hps]. simpl in Hm.
    apply StronglySorted_inv in Hr as [Hr Hlt].
    destruct (enter_step s m w Hm) as (fs & _ & Hall & _).
    assert (Forall (fun e => ev_stage e = s) (events_of m (enter s w)))
      as Hs.
    { eapply Forall_impl; [exact Hall|]. by intros e [? _]. }
    apply StronglySorted_app_2.
    + intros e1 e2 H1 H2. rewrite Forall_forall in Hs.
      unfold stage_le. rewrite (Hs e1 H1).
      destruct ((m (enter s w)).1); try by apply elem_of_nil in H2.
      pose proof (chain_from_steps ps a Hps (m (enter s w)).2) as Hfrom.
      rewrite Forall_forall in Hfrom.
      destruct (Hfrom e2 H2) as (p & Hp & -> & _).
      rewrite Forall_forall in Hlt. specialize (Hlt p Hp). simpl in Hlt. lia.
    + by apply (same_stage_sorted s).
    + destruct ((m (enter s w)).1); try apply SSorted_nil. by apply IH.
Qed.

(** X9. The events of a run follow the order of the statements of [run]:
    a call of a statement never comes after a call of a later one, and
    each call is one its statement can issue. *)
Theorem run_events_in_statement_order w :
  StronglySorted stage_le (events_of (run os libc config self) w)
  /\ Forall (fun e => stage_call (ev_stage e) (ev_call e))
            (events_of (run os libc config self) w).
Proof.
  destruct (run_events w) as [(_ & -> & _)|(_ & -> & _)].
  - split.
    + apply SSorted_cons; [apply SSorted_nil|constructor].
    + by repeat constructor.
  - pose proof (chain_from_steps _ 0 steps_of_run_ok (identified w)) as Hfrom.
    split.
    + apply SSorted_cons.
      * apply chain_sorted; [apply steps_of_run_ok|apply steps_ranked].
      * eapply Forall_impl; [exact Hfrom|].
        intros e _. unfold stage_le. simpl. lia.
    + constructor; [done|]. eapply Forall_impl; [exact Hfrom|].
      intros e. apply from_steps_call.
Qed.

(** ** The calls of the tool *)

Lemma emits_any_tmpfs_body m : emits (fun _ => True) (tmpfs_body m).
Proof.
  unfold tmpfs_body.
  destruct (String.eqb (m_type m) "tmpfs"); [|apply emits_ret].
  apply emits_bind; [by apply emits_check_output|].
  intros out. destruct (negb _); [by apply emits_log|apply emits_ret].
Qed.

(** An iteration of the loop calls the tool once when the mount is a
    tmpfs, and not at all otherwise. *)
Lemma tmpfs_body_tools m w :
  tool_calls (events_of (tmpfs_body m) w)
  = if is_tmpfs m then [tmpfiles_argv m] else [].
Proof.
  unfold tmpfs_body, is_tmpfs, events_of.
  destruct (String.eqb (m_type m) "tmpfs").
  - rewrite bind_unfold. unfold check_output. cbv zeta.
    destruct (os_fault os (w_trace w) _) as [x|]; simpl.
    { by rewrite drop_app_length. }
    destruct (os_child os (w_trace w) (tmpfiles_argv m))
      as [[status output]|]; simpl; [|by rewrite drop_app_length].
    destruct (seen_status (w_trace w) status =? 0); simpl.
    + destruct (negb (String.eqb output "")); simpl.
      * by rewrite <- app_assoc, drop_app_length.
      * by rewrite drop_app_length.
    + by rewrite drop_app_length.
  - simpl. by rewrite drop_ge.
Qed.

Lemma tmpfs_loop_tools ms :
  forall w,
    tool_calls (events_of (for_each ms tmpfs_body) w)
      `prefix_of` map tmpfiles_argv (List.filter is_tmpfs ms)
    /\ ((for_each ms tmpfs_body w).1 = Ok tt ->
        tool_calls (events_of (for_each ms tmpfs_body) w)
        = map tmpfiles_argv (List.filter is_tmpfs ms)).
Proof.
  induction ms as [|m ms IH]; intros w.
  - unfold events_of. simpl. rewrite drop_ge by done. done.
  - change (for_each (m :: ms) tmpfs_body)
      with (tmpfs_body m ;; for_each ms tmpfs_body).
    assert (map tmpfiles_argv (List.filter is_tmpfs (m :: ms))
            = (if is_tmpfs m then [tmpfiles_argv m] else [])
              ++ map tmpfiles_argv (List.filter is_tmpfs ms)) as ->.
    { simpl. by destruct (is_tmpfs m). }
    rewrite <- (tmpfs_body_tools m w).
    destruct ((tmpfs_body m w).1) as [[]|x|] eqn:Hr.
    + destruct (events_of_bind (fun _ => True) (tmpfs_body m)
                  (fun _ => for_each ms tmpfs_body) w tt
                  (emits_any_tmpfs_body m)) as [Hrun Hevs]; [|done|].
      { intros _. apply emits_for_each. intros ? _.
        apply emits_any_tmpfs_body. }
      rewrite Hevs, Hrun. unfold tool_calls at 1 3. rewrite omap_app.
      destruct (IH (tmpfs_body m w).2) as [Hp Heq].
      split; [by apply prefix_app|]. intros Hok.
      unfold tool_calls in Heq. by rewrite (Heq Hok).
    + destruct (events_of_bind_stop (tmpfs_body m)
                  (fun _ => for_each ms tmpfs_body) w) as [Hevs Hres].
      { intros a. by rewrite Hr. }
      rewrite Hr in Hres. rewrite Hevs. split.
      * by apply prefix_app_r.
      * intros Hok. congruence.
    + destruct (events_of_bind_stop (tmpfs_body m)
                  (fun _ => for_each ms tmpfs_body) w) as [Hevs Hres].
      { intros a. by rewrite Hr. }
      rewrite Hr in Hres. rewrite Hevs. split.
      * by apply prefix_app_r.
      * intros Hok. congruence.
Qed.

(** X10. [create_tmpfs_dirs] calls the tool for the tmpfs mounts of the
    table and for no other, in the order of the table, once each, with the
    mount's destination as the prefix: what it has called is always a
    prefix of that list, all of it when the tool is there and the method
    goes through, and nothing when the tool is not there. *)
Theorem create_tmpfs_dirs_tool_calls w :
  tool_calls (events_of (create_tmpfs_dirs os config) w)
    `prefix_of` map tmpfiles_argv (List.filter is_tmpfs (CONTAINER_MOUNTS config))
  /\ (present (w_fs w) tmpfiles = true ->
      (create_tmpfs_dirs os config w).1 = Ok tt ->
      tool_calls (events_of (create_tmpfs_dirs os config) w)
      = map tmpfiles_argv (List.filter is_tmpfs (CONTAINER_MOUNTS config)))
  /\ (present (w_fs w) tmpfiles = false ->
      tool_calls (events_of (create_tmpfs_dirs os config) w) = []).
Proof.
  unfold events_of. rewrite create_tmpfs_dirs_unfold, bind_unfold.
  rewrite path_exists_run.
  destruct (present (w_fs w) tmpfiles) eqn:Hp.
  - set (e1 := Ev (w_stage w) (c_exists tmpfiles) (returned (v_bool true))).
    set (w1 := after w [e1] (w_fs w)).
    destruct (tmpfs_loop_tools (CONTAINER_MOUNTS config) w1) as [Hpre Heq].
    assert (emits (fun _ => True) (for_each (CONTAINER_MOUNTS config) tmpfs_body))
      as Hem.
    { apply emits_for_each. intros ? _. apply emits_any_tmpfs_body. }
    rewrite (emits_frame _ _ w1 Hem).
    change (w_trace w1) with (w_trace w ++ [e1]).
    rewrite <- app_assoc, drop_app_length.
    change (tool_calls ([e1] ++ ?l)) with (tool_calls l).
    split_and!; [done|done|done].
  - rewrite log_run. simpl. rewrite <- app_assoc, drop_app_length. simpl.
    split_and!; [apply prefix_nil|done|done].
Qed.

(** ** The looks of the namespace isolator *)

Lemma namespaces_loop_looks items :
  forall acc w, exists evs r,
    namespaces_loop libc self items acc w = (Ok r, after w evs (w_fs w))
    /\ looked_at evs
       = map (fun it => ns_path it.1)
             (List.filter (fun it => considered libc self it.2) items).
Proof.
  induction items as [|[name flag] rest IH]; intros acc w.
  - exists [], acc. simpl. by rewrite after_nil.
  - simpl. unfold considered at 1. simpl.
    destruct (flag =? CLONE_NEWPID libc); simpl; [apply IH|].
    destruct ((flag =? CLONE_NEWNET libc) && negb (isolate_networking self));
      simpl; [apply IH|].
    rewrite bind_unfold, path_exists_run. fold (ns_path name).
    destruct (present (w_fs w) (ns_path name)); simpl.
    + set (w1 := after w _ _).
      destruct (IH (Z.lor acc flag) w1) as (evs & r & Hrun & Hlook).
      eexists (_ :: evs), r. rewrite Hrun. subst w1.
      rewrite after_after. split; [done|]. simpl. by rewrite Hlook.
    + rewrite bind_unfold, log_run. simpl.
      set (w1 := after (after w _ _) _ _).
      destruct (IH acc w1) as (evs & r & Hrun & Hlook).
      eexists (_ :: _ :: evs), r. rewrite Hrun. subst w1.
      rewrite !after_after. split; [done|]. simpl. by rewrite Hlook.
Qed.

(** X11. Whatever the system answers, [create_namespaces] looks at the
    path of each entry of the table other than the PID entry and, without
    network isolation, the network entry: each once, in the order of the
    table, and at no other path. *)
Theorem create_namespaces_looks w :
  looked_at (events_of (create_namespaces os libc config self) w)
  = map (fun it => ns_path it.1)
        (List.filter (fun it => considered libc self it.2) (NAMESPACES config)).
Proof.
  destruct (namespaces_loop_looks (NAMESPACES config) 0 w)
    as (evs & r & Hrun & Hlook).
  assert (forall o, looked_at (evs ++ [Ev (w_stage w) (c_unshare r) o])
                    = looked_at evs) as Hlast.
  { intros o. unfold looked_at. rewrite omap_app. simpl. by rewrite app_nil_r. }
  rewrite <- Hlook. unfold events_of, create_namespaces, unshare.
  rewrite bind_unfold, Hrun, effect_run. simpl.
  destruct (os_fault os _ _); simpl;
    rewrite <- app_assoc, drop_app_length; apply Hlast.
Qed.

(** ** Absolute names *)

(** X13. A name that starts with "/" takes [Path("/dev", name)] out of
    /dev: for a plain file name [n], the node path of "/n" is "/n". *)
Theorem dev_path_absolute n :
  plain_name n = true -> dev_path ("/" +:+ n) = "/" +:+ n.
Proof.
  unfold plain_name. intros H.
  apply andb_true_iff in H as [H Hdot]. apply andb_true_iff in H as [Hsep Hne].
  destruct n as [|c n]; [done|].
  simpl in Hsep. apply andb_true_iff in Hsep as [Hc Hsep'].
  apply negb_true_iff in Hc.
  unfold dev_path, pathlib.Path. simpl rev. unfold pathlib.parse_rev.
  simpl String.eqb at 1. cbv iota.
  unfold pathlib.splitroot. simpl. rewrite Hc.
  change (String.length (String c n)) with (S (String.length n)).
  replace (S (S (String.length n)) - S (String.length n))%nat with 1%nat
    by lia.
  change (1 =? 2)%nat with false. cbv beta iota.
  change ("/" =? "")%string with false. cbv beta iota.
  unfold pathlib.components.
  rewrite split_no_sep by (simpl; by rewrite Hc, Hsep').
  cbn [List.filter]. apply negb_true_iff in Hne. rewrite Hne, Hdot. done.
Qed.

(** ** The output of the tool *)

Lemma seq_events P (m k : M unit) w :
  emits P m -> emits P k ->
  events_of (m ;; k) w
  = events_of m w ++ match (m w).1 with
                     | Ok _ => events_of k (m w).2
                     | _ => []
                     end.
Proof.
  intros Hm Hk. destruct ((m w).1) as [[]|x|] eqn:Hr.
  - by destruct (events_of_bind P m (fun _ => k) w tt Hm (fun _ => Hk) Hr).
  - destruct (events_of_bind_stop m (fun _ => k) w) as [-> _].
    { intros a. by rewrite Hr. }
    by rewrite app_nil_r.
  - destruct (events_of_bind_stop m (fun _ => k) w) as [-> _].
    { intros a. by rewrite Hr. }
    by rewrite app_nil_r.
Qed.

Lemma tmpfs_body_skip m w : is_tmpfs m = false -> tmpfs_body m w = (Ok tt, w).
Proof. unfold tmpfs_body, is_tmpfs. by intros ->. Qed.

(** An iteration for a tmpfs mount: the call of the tool, then the log
    line that goes with its outcome. *)
Lemma tmpfs_body_run m w :
  is_tmpfs m = true ->
  exists o,
    events_of (tmpfs_body m) w
    = Ev (w_stage w) (c_check_output (tmpfiles_argv m)) o
      :: output_log os (w_stage w) o.
Proof.
  unfold tmpfs_body, is_tmpfs, events_of. intros ->.
  rewrite bind_unfold. unfold check_output. cbv zeta.
  destruct (os_fault os (w_trace w) _) as [x|]; simpl.
  { exists (raised x). by rewrite drop_app_length. }
  destruct (os_child os (w_trace w) (tmpfiles_argv m))
    as [[status output]|]; simpl;
    [|exists pending; by rewrite drop_app_length].
  destruct (seen_status (w_trace w) status =? 0); simpl.
  - exists (returned (v_bytes output)). simpl.
    destruct (negb (String.eqb output "")); simpl.
    + by rewrite <- app_assoc, drop_app_length.
    + by rewrite drop_app_length.
  - eexists (raised _). by rewrite drop_app_length.
Qed.

Lemma emits_any_tmpfs_loop ms :
  emits (fun _ => True) (for_each ms tmpfs_body).
Proof. apply emits_for_each. intros ? _. apply emits_any_tmpfs_body. Qed.

Lemma tmpfs_loop_cons m ms w :
  events_of (for_each (m :: ms) tmpfs_body) w
  = events_of (tmpfs_body m) w
    ++ match (tmpfs_body m w).1 with
       | Ok _ => events_of (for_each ms tmpfs_body) (tmpfs_body m w).2
       | _ => []
       end.
Proof.
  apply (seq_events (fun _ => True));
    [apply emits_any_tmpfs_body|apply emits_any_tmpfs_loop].
Qed.

Lemma tmpfs_loop_head ms :
  forall w, tool_or_end (events_of (for_each ms tmpfs_body) w).
Proof.
  induction ms as [|m ms IH]; intros w.
  - unfold events_of. simpl. by rewrite drop_ge.
  - rewrite tmpfs_loop_cons. destruct (is_tmpfs m) eqn:Ht.
    + destruct (tmpfs_body_run m w Ht) as (o & ->). simpl. eauto.
    + rewrite (tmpfs_body_skip m w Ht). simpl.
      assert (events_of (tmpfs_body m) w = []) as ->.
      { unfold events_of. rewrite (tmpfs_body_skip m w Ht). simpl.
        by rewrite drop_ge. }
      apply IH.
Qed.

Lemma tmpfs_loop_logs ms :
  forall w pre e post argv,
    events_of (for_each ms tmpfs_body) w = pre ++ e :: post ->
    ev_call e = c_check_output argv ->
    exists post',
      post = output_log os (ev_stage e) (ev_outcome e) ++ post'
      /\ tool_or_end post'.
Proof.
  induction ms as [|m ms IH]; intros w pre e post argv Hevs Hcall.
  { unfold events_of in Hevs. simpl in Hevs. rewrite drop_ge in Hevs by done.
    by destruct pre. }
  rewrite tmpfs_loop_cons in Hevs. destruct (is_tmpfs m) eqn:Ht.
  - destruct (tmpfs_body_run m w Ht) as (o & Hbody). rewrite Hbody in Hevs.
    assert (forall pre',
              match (tmpfs_body m w).1 with
              | Ok _ => events_of (for_each ms tmpfs_body) (tmpfs_body m w).2
              | _ => []
              end = pre' ++ e :: post ->
              exists post',
                post = output_log os (ev_stage e) (ev_outcome e) ++ post'
                /\ tool_or_end post') as Hrest.
    { intros pre' Heq. destruct ((tmpfs_body m w).1).
      - exact (IH _ _ _ _ argv Heq Hcall).
      - by destruct pre'.
      - by destruct pre'. }
    destruct pre as [|p pre]; simpl in Hevs; injection Hevs as He Hpost.
    + subst e. simpl. eexists. split; [by rewrite Hpost|].
      destruct ((tmpfs_body m w).1); [apply tmpfs_loop_head|done|done].
    + unfold output_log in Hpost.
      destruct o as [[| | |out]| |]; simpl in Hpost; try by apply (Hrest pre).
      destruct (negb (String.eqb out "")); simpl in Hpost;
        [|by apply (Hrest pre)].
      destruct pre as [|p' pre]; simpl in Hpost; injection Hpost as He' Hpost.
      * subst e. simpl in Hcall. discriminate.
      * by apply (Hrest pre).
  - assert (events_of (tmpfs_body m) w = []) as Hnil.
    { unfold events_of. rewrite (tmpfs_body_skip m w Ht). simpl.
      by rewrite drop_ge. }
    rewrite Hnil, (tmpfs_body_skip m w Ht) in Hevs. simpl in Hevs.
    exact (IH _ _ _ _ argv Hevs Hcall).
Qed.

(** X12. What the tool printed is logged right after its call, as the
    debug line "systemd-tmpfiles output: " followed by its repr, when it
    printed something; when it printed nothing no line is logged: the call
    is the last event or the next call of the tool follows. *)
Theorem create_tmpfs_dirs_logs_output w pre e post argv out :
  events_of (create_tmpfs_dirs os config) w = pre ++ e :: post ->
  ev_call e = c_check_output argv ->
  ev_outcome e = returned (v_bytes out) ->
  if String.eqb out "" then tool_or_end post
  else exists post',
         post = Ev (ev_stage e)
                   (c_log DEBUG ("systemd-tmpfiles output: " +:+ os_repr os out))
                   (returned v_none) :: post'.
Proof.
  intros Hevs Hcall Hout.
  assert (exists post',
            post = output_log os (ev_stage e) (ev_outcome e) ++ post'
            /\ tool_or_end post') as (post' & -> & Hend).
  { unfold events_of in Hevs.
    rewrite create_tmpfs_dirs_unfold, bind_unfold, path_exists_run in Hevs.
    destruct (present (w_fs w) tmpfiles).
    - set (e1 := Ev (w_stage w) (c_exists tmpfiles) (returned (v_bool true)))
        in Hevs.
      set (w1 := after w [e1] (w_fs w)) in Hevs.
      rewrite (emits_frame _ _ w1 (emits_any_tmpfs_loop _)) in Hevs.
      change (w_trace w1) with (w_trace w ++ [e1]) in Hevs.
      rewrite <- app_assoc, drop_app_length in Hevs.
      destruct pre as [|p pre]; simpl in Hevs; injection Hevs as He Hrest.
      + subst e. discriminate.
      + exact (tmpfs_loop_logs _ _ _ _ _ argv Hrest Hcall).
    - rewrite log_run in Hevs. simpl in Hevs.
      rewrite <- app_assoc, drop_app_length in Hevs.
      destruct pre as [|p [|p' pre]]; simplify_eq/=.
      by destruct pre. }
  rewrite Hout. unfold output_log.
  destruct (String.eqb out ""); simpl; [done|eauto].
Qed.

(** ** The exit status of the tool, outside a run *)

(** X15. As long as SIGCHLD is not ignored, [create_tmpfs_dirs] stops at
    the first call of the tool whose child exits with a status other than
    zero: the call raises CalledProcessError with that status, it is the
    last event, and the method raises that error. *)
Theorem create_tmpfs_dirs_aborts_on_seen_status w pre e post argv status output :
  events_of (create_tmpfs_dirs os config) w = pre ++ e :: post ->
  ev_call e = c_check_output argv ->
  sigchld_ignored (w_trace w) = false ->
  os_fault os (w_trace w ++ pre) (c_check_output argv) = None ->
  os_child os (w_trace w ++ pre) argv = Some (status, output) ->
  status <> 0 ->
  ev_outcome e = raised (CalledProcessError status argv)
  /\ post = []
  /\ (create_tmpfs_dirs os config w).1
     = Raise (CalledProcessError status argv).
Proof.
  intros Heq Hce Hsig Hfault Hchild Hstatus.
  pose proof (faithful_create_tmpfs_dirs _ _ _ _ _ Heq Hce) as Hout.
  destruct (emits_events _ _ w emits_create_tmpfs_dirs) as (_ & Hall & Hd).
  rewrite Heq in Hall, Hd. apply Forall_app in Hall as [Hpre _].
  assert (sigchld_ignored (w_trace w ++ pre) = false) as Hsig'.
  { rewrite sigchld_ignored_quiet; [done|].
    eapply Forall_impl; [exact Hpre|]. intros x [_ Hx] sig hd Hxc.
    rewrite Hxc in Hx. stage_cases Hx. }
  unfold check_outcome, seen_status in Hout.
  rewrite Hfault, Hchild, Hsig' in Hout.
  apply Z.eqb_neq in Hstatus. rewrite Hstatus in Hout.
  apply disc_failed in Hd as [_ Hd].
  destruct Hd as [-> Hr]. { unfold ev_ok. by rewrite Hout. }
  split_and!; [done|done|].
  destruct ((create_tmpfs_dirs os config w).1) as [|x|]; [done| |congruence].
  congruence.
Qed.
End steps.

(** ** Examples: the theorems at a small system *)

Lemma create_default_dev_nodes_makes_char_nodes_witness :
  w_fs (create_default_dev_nodes ex_os ex_config ex_world).2 !! "/dev/null"
  = Some (device_inode false 1 3 438).
Proof.
  apply (create_default_dev_nodes_makes_char_nodes ex_os ex_config ex_world
           ex_null).
  - vm_compute. reflexivity.
  - vm_compute. left.
Defined.

(** C1 as stated fails: for an entry of kind block and mode 0o660 the node
    is a character device of mode 0o666. *)
Lemma create_default_dev_nodes_ignores_kind_and_mode :
  (create_default_dev_nodes ex_os ex_config_sda ex_world).1 = Ok tt
  /\ ex_sda ∈ CONTAINER_DEVICE_NODES ex_config_sda
  /\ w_fs (create_default_dev_nodes ex_os ex_config_sda ex_world).2
       !! dev_path (d_name ex_sda)
     = Some (device_inode false 8 0 438)
  /\ w_fs (create_default_dev_nodes ex_os ex_config_sda ex_world).2
       !! dev_path (d_name ex_sda)
     <> Some (entry_inode ex_sda).
Proof.
  split; [vm_compute; reflexivity|]. split; [left|].
  split; [vm_compute; reflexivity|].
  vm_compute. discriminate.
Qed.

Lemma readiness_marker_once_after_setup_witness :
  ev_call ex_marker = c_write (control_write ex_self) "RDY"
  /\ Forall (fun x => is_write x = false) (take 42 ex_events)
  /\ Forall (fun x => is_write x = false) (drop 43 ex_events)
  /\ setup_done ex_libc ex_config ex_self (take 42 ex_events).
Proof.
  destruct (proj1 (readiness_marker_once_after_setup ex_os ex_libc ex_config
                     ex_self ex_world)
                  (take 42 ex_events) ex_marker (drop 43 ex_events))
    as (_ & H); [vm_compute; reflexivity|reflexivity|exact H].
Defined.

Lemma root_pivot_after_namespaces_before_mounts_witness :
  ((exists flags,
      Ev at_create_namespaces (c_unshare flags) (returned v_none)
      ∈ take 11 ex_events)
   /\ Ev at_setup_root_mount (remount_call ex_libc) (returned v_none)
      ∈ take 11 ex_events)
  /\ ex_pivot ∈ take 14 ex_events.
Proof.
  destruct (root_pivot_after_namespaces_before_mounts ex_os ex_libc ex_config
              ex_self ex_world) as (Hat & Hlater & _).
  split.
  - destruct (Hat (take 11 ex_events) ex_pivot (drop 12 ex_events))
      as (Hns & _ & _ & _ & Hre); [vm_compute; reflexivity|reflexivity|].
    split; [exact Hns|]. apply Hre. reflexivity.
  - destruct (Hlater (take 14 ex_events) ex_mount_proc (drop 15 ex_events))
      as (_ & _ & Hpivot & _); [vm_compute; reflexivity| |exact Hpivot].
    right; right; right. split; [reflexivity|discriminate].
Defined.

Lemma create_namespaces_never_requests_pid_witness :
  exists pre o,
    events_of (create_namespaces ex_os ex_libc ex_config ex_self) ex_world
    = pre ++ [Ev at_getpid (c_unshare 0x40020000) o]
    /\ Z.land 0x40020000 (CLONE_NEWPID ex_libc) = 0.
Proof.
  destruct (create_namespaces_never_requests_pid ex_os ex_libc ex_config
              ex_self ex_world) as (pre & o & Hevs & _ & _ & Hbits).
  exists pre, o. split; [exact Hevs|]. apply Hbits.
  intros name flag Hin. vm_compute in Hin.
  repeat (apply elem_of_cons in Hin as [Hin|Hin];
          [injection Hin as -> ->; vm_compute; tauto|]).
  by apply elem_of_nil in Hin.
Defined.

Lemma create_namespaces_keeps_network_witness :
  exists pre o,
    events_of (create_namespaces ex_os ex_libc ex_config ex_self_offline)
              ex_world
    = pre ++ [Ev at_getpid (c_unshare 0x20000) o]
    /\ Z.land 0x20000 (CLONE_NEWNET ex_libc) = 0.
Proof.
  destruct (create_namespaces_keeps_network ex_os ex_libc ex_config
              ex_self_offline ex_world eq_refl)
    as (pre & o & Hevs & _ & _ & Hbits).
  exists pre, o. split; [exact Hevs|]. apply Hbits.
  intros name flag Hin. vm_compute in Hin.
  repeat (apply elem_of_cons in Hin as [Hin|Hin];
          [injection Hin as -> ->; vm_compute; tauto|]).
  by apply elem_of_nil in Hin.
Defined.

Lemma create_namespaces_skips_missing_kind_witness :
  exists pre mid o,
    events_of (create_namespaces ex_os ex_libc ex_config ex_self) ex_world
    = pre ++ [Ev at_getpid (c_exists "/proc/self/ns/uts")
                 (returned (v_bool false));
              Ev at_getpid (ns_warning "uts") (returned v_none)]
          ++ mid ++ [Ev at_getpid (c_unshare 0x40020000) o]
    /\ Z.land 0x40020000 0x4000000 = 0.
Proof.
  destruct (create_namespaces_skips_missing_kind ex_os ex_libc ex_config
              ex_self ex_world "uts" 0x4000000)
    as (pre & mid & o & Hevs & _ & _ & Hbits & _).
  - vm_compute. right. right. right. left.
  - vm_compute. discriminate.
  - reflexivity.
  - vm_compute. reflexivity.
  - exists pre, mid, o. split; [exact Hevs|]. reflexivity.
Defined.

(** C6 as stated fails: with networking not isolated, the network entry is
    passed over without a look and without a warning, though its namespace
    kind is missing. *)
Lemma create_namespaces_no_warning_for_network :
  ("net", 0x40000000) ∈ NAMESPACES ex_config
  /\ 0x40000000 <> CLONE_NEWPID ex_libc
  /\ present (w_fs ex_world_bare) (ns_path "net") = false
  /\ ~ exists e,
       e ∈ events_of (create_namespaces ex_os ex_libc ex_config ex_self_offline)
                     ex_world_bare
       /\ ev_call e = ns_warning "net".
Proof.
  split; [vm_compute; right; left|]. split; [vm_compute; discriminate|].
  split; [vm_compute; reflexivity|].
  intros (e & Hin & Hcall). vm_compute in Hin.
  repeat (apply elem_of_cons in Hin as [->|Hin]; [vm_compute in Hcall; discriminate|]).
  by apply elem_of_nil in Hin.
Qed.

Lemma run_refuses_without_pid1_witness :
  (run ex_os_stranger ex_libc ex_config ex_self ex_world).1
  = Raise (ValueError "We are not actually PID1, exiting for safety reasons")
  /\ events_of (run ex_os_stranger ex_libc ex_config ex_self) ex_world
     = [Ev at_getpid c_getpid (returned (v_int 4711))].
Proof.
  apply (run_refuses_without_pid1 ex_os_stranger ex_libc ex_config ex_self
           ex_world).
  vm_compute. discriminate.
Defined.

Lemma create_device_node_sets_mode_witness :
  w_fs (create_device_node ex_os "null" 1 3 438 false
          (with_umask 63 ex_world)).2 !! "/dev/null"
  = Some (device_inode false 1 3 438).
Proof.
  apply (create_device_node_sets_mode ex_os "null" 1 3 438 false 63 ex_world).
  - vm_compute. reflexivity.
  - lia.
Defined.

Lemma run_returns_zero_after_read_witness :
  ex_wait ∈ events_of (run ex_os ex_libc ex_config ex_self) ex_world
  /\ (run ex_os ex_libc ex_config ex_self ex_world).1 = Ok 0.
Proof.
  assert (ex_wait ∈ events_of (run ex_os ex_libc ex_config ex_self) ex_world)
    as Hin.
  { apply (list_elem_of_lookup_2 _ 44). vm_compute. reflexivity. }
  split; [exact Hin|].
  destruct (proj1 (run_returns_zero_after_read ex_os ex_libc ex_config ex_self
                     ex_world) ex_wait Hin eq_refl) as (_ & _ & Hres).
  exact (Hres eq_refl).
Defined.

(** C10 at a tool that exits with status 1: the call returns and the run
    goes on to its end. *)
Lemma run_loses_tmpfiles_status_witness :
  os_child ex_os_tool_fails (take 38 ex_events_tool_fails)
           (tmpfiles_argv ex_tmp) = Some (1, "")
  /\ ev_outcome ex_tool_call = returned (v_bytes "")
  /\ events_of (run ex_os_tool_fails ex_libc ex_config ex_self) ex_world_tool
     = take 38 ex_events_tool_fails ++ ex_tool_call
       :: drop 39 ex_events_tool_fails
  /\ (run ex_os_tool_fails ex_libc ex_config ex_self ex_world_tool).1 = Ok 0.
Proof.
  assert (events_of (run ex_os_tool_fails ex_libc ex_config ex_self)
                    ex_world_tool
          = take 38 ex_events_tool_fails ++ ex_tool_call
            :: drop 39 ex_events_tool_fails) as Hevs.
  { vm_compute. reflexivity. }
  destruct (proj1 (run_loses_tmpfiles_status ex_os_tool_fails ex_libc
                     ex_config ex_self ex_world_tool)
                  (take 38 ex_events_tool_fails) ex_tool_call
                  (drop 39 ex_events_tool_fails)
                  (tmpfiles_argv ex_tmp) 1 "" Hevs)
    as (_ & _ & Hout); [reflexivity|reflexivity|reflexivity|].
  split; [reflexivity|]. split; [exact Hout|]. split; [exact Hevs|].
  vm_compute. reflexivity.
Defined.

Lemma create_loop_devices_nodes_witness :
  w_fs (create_loop_devices ex_os ex_world).2 !! "/dev/loop-control"
  = Some (device_inode false 10 237 432)
  /\ w_fs (create_loop_devices ex_os ex_world).2 !! "/dev/loop3"
     = Some (device_inode true 7 3 432).
Proof.
  destruct (create_loop_devices_nodes ex_os ex_world) as (Hc & Hl & _);
    [vm_compute; reflexivity|].
  split; [exact Hc|]. apply (Hl 3). lia.
Defined.

Lemma create_default_dev_nodes_paths_distinct_and_free_witness :
  NoDup (map (fun d => dev_path (d_name d)) (CONTAINER_DEVICE_NODES ex_config))
  /\ w_fs ex_world !! dev_path (d_name ex_null) = None.
Proof.
  destruct (create_default_dev_nodes_paths_distinct_and_free ex_os ex_config
              ex_world) as (Hnd & Hfree & _); [vm_compute; reflexivity|].
  split; [exact Hnd|]. apply Hfree. vm_compute. left.
Defined.

Lemma create_device_node_refuses_taken_path_witness :
  exists x,
    create_device_node ex_os "null" 1 3 438 false ex_world_dev
    = (Raise x,
       after ex_world_dev
         [Ev at_create_default_dev_nodes (mknod_call "null" 1 3 false)
             (raised x)]
         (w_fs ex_world_dev)).
Proof.
  destruct (create_device_node_refuses_taken_path ex_os "null" 1 3 438 false
              ex_world_dev ex_file) as (x & Hrun & _);
    [vm_compute; reflexivity|].
  exists x. exact Hrun.
Defined.

Lemma create_device_node_chmod_refused_witness :
  (create_device_node ex_os_no_chmod "null" 1 3 438 false ex_world).1
  = Raise (OSError 1)
  /\ w_fs (create_device_node ex_os_no_chmod "null" 1 3 438 false ex_world).2
       !! dev_path "null"
     = Some (device_inode false 1 3 0).
Proof.
  apply (create_device_node_chmod_refused ex_os_no_chmod "null" 1 3 438 false
           ex_world (OSError 1)).
  - vm_compute. reflexivity.
  - reflexivity.
  - reflexivity.
Defined.

Lemma create_tmpfs_dirs_logs_output_witness :
  exists post',
    [Ev at_getpid (c_log DEBUG "systemd-tmpfiles output: b'created'")
        (returned v_none)]
    = Ev at_getpid (c_log DEBUG "systemd-tmpfiles output: b'created'")
         (returned v_none) :: post'.
Proof.
  apply (create_tmpfs_dirs_logs_output ex_os_chatty ex_config ex_world_tool
           [Ev at_getpid (c_exists tmpfiles) (returned (v_bool true))]
           ex_tool_returns
           [Ev at_getpid (c_log DEBUG "systemd-tmpfiles output: b'created'")
               (returned v_none)]
           (tmpfiles_argv ex_tmp) "created").
  - vm_compute. reflexivity.
  - reflexivity.
  - reflexivity.
Defined.

Lemma dev_path_plain_witness : dev_path "null" = "/dev/null".
Proof. apply (dev_path_plain "null"). reflexivity. Defined.

Lemma dev_path_absolute_witness : dev_path "/null" = "/null".
Proof. apply (dev_path_absolute "null"). reflexivity. Defined.

Lemma create_tmpfs_dirs_aborts_on_seen_status_witness :
  ev_outcome ex_tool_raises
  = raised (CalledProcessError 1 (tmpfiles_argv ex_tmp))
  /\ (create_tmpfs_dirs ex_os_tool_fails ex_config ex_world_tool).1
     = Raise (CalledProcessError 1 (tmpfiles_argv ex_tmp)).
Proof.
  destruct (create_tmpfs_dirs_aborts_on_seen_status ex_os_tool_fails ex_libc
              ex_config ex_self ex_world_tool
              [Ev at_getpid (c_exists tmpfiles) (returned (v_bool true))]
              ex_tool_raises [] (tmpfiles_argv ex_tmp) 1 "")
    as (Hout & _ & Hres);
    [vm_compute; reflexivity|reflexivity|reflexivity|reflexivity|reflexivity
    |lia|].
  split; [exact Hout|exact Hres].
Defined.
